(** * mf-deps-manager: version comparison, reconciliation, catalog refresh
      and catalog validation

    A shallow embedding of [src/dependency-manager.ts],
    [src/update-checker.ts] and [src/validator.ts].

    - JavaScript objects used as ordered string-keyed records are
      association lists in [Object.entries] order ([JsObject]).
    - A rejected promise / thrown exception is the [Throw] case of [Result].
    - The npm package [semver] is an external module: it is the interface
      [SemverLib]; [RefSemver] is a small executable instance of it.
    - Console output, prompts and file writes are recorded as a trace of
      events.  [chalk] only colours text and is the identity here. *)

From Stdlib Require Import String Ascii List Bool NArith Arith Lia DecimalString.
Import ListNotations.
Open Scope string_scope.

Set Implicit Arguments.
Set Warnings "-register-all".

(* ------------------------------------------------------------------ *)
(** * Exceptions *)

Inductive JsError : Type :=
| TypeError (msg : string)
| Error (msg : string).

Inductive Result (A : Type) : Type :=
| Ok (a : A)
| Throw (e : JsError).

Arguments Ok {A} a.
Arguments Throw {A} e.

Definition bind {A B : Type} (m : Result A) (k : A -> Result B) : Result B :=
  match m with
  | Ok a => k a
  | Throw e => Throw e
  end.

Notation "x <- m ;; k" := (bind m (fun x => k))
  (at level 61, m at next level, right associativity).

(** [for (const x of xs) { acc = body(acc, x) }] where the body may throw. *)
Fixpoint forEach {A S : Type} (body : S -> A -> Result S) (xs : list A) (s : S)
  : Result S :=
  match xs with
  | [] => Ok s
  | x :: rest => s' <- body s x ;; forEach body rest s'
  end.

(* ------------------------------------------------------------------ *)
(** * JavaScript objects as ordered records *)

Module JsObject.

(** The entries of an object in [Object.entries] order.  Keys are package
    or category names; they are assumed not to be array indices or names
    inherited from [Object.prototype]. *)
Definition t (V : Type) : Type := list (string * V).

Definition keys {V} (o : t V) : list string := map fst o.

(** The own property [k] of [o], [None] when there is none: this is
    [o[k]], with [None] for [undefined], unless [k] is a name that [o]
    inherits (see [inherited] below). *)
Fixpoint get {V} (k : string) (o : t V) : option V :=
  match o with
  | [] => None
  | (k', v) :: rest => if String.eqb k k' then Some v else get k rest
  end.

(** [o[k] = v]: an existing key keeps its place, a new key goes last. *)
Fixpoint set {V} (k : string) (v : V) (o : t V) : t V :=
  match o with
  | [] => [(k, v)]
  | (k', v') :: rest =>
      if String.eqb k k' then (k', v) :: rest else (k', v') :: set k v rest
  end.

Definition wf {V} (o : t V) : Prop := NoDup (keys o).

(** The property names of [Object.prototype].  For such a [k] that is not
    a key of [o], [o[k]] is the inherited function or object and not
    [undefined]; [get] is [o[k]] for every other [k]. *)
Definition inherited (k : string) : bool :=
  existsb (String.eqb k)
    ["constructor"; "hasOwnProperty"; "isPrototypeOf"; "propertyIsEnumerable";
     "toLocaleString"; "toString"; "valueOf"; "__proto__";
     "__defineGetter__"; "__defineSetter__";
     "__lookupGetter__"; "__lookupSetter__"].

End JsObject.

(* ------------------------------------------------------------------ *)
(** * String helpers used by the sources *)

(** [s.startsWith(p)] *)
Definition startsWith (s p : string) : bool := String.prefix p s.

Fixpoint filterChars (keep : ascii -> bool) (s : string) : string :=
  match s with
  | EmptyString => EmptyString
  | String c rest =>
      if keep c then String c (filterChars keep rest) else filterChars keep rest
  end.

(** The character class [[\^~>=<]]. *)
Definition isOperatorChar (c : ascii) : bool :=
  (Ascii.eqb c "^" || Ascii.eqb c "~" || Ascii.eqb c ">"
   || Ascii.eqb c "=" || Ascii.eqb c "<")%char.

(** [s.replace(/[\^~>=<]/g, '')] *)
Definition stripOperators (s : string) : string :=
  filterChars (fun c => negb (isOperatorChar c)) s.

(** White space of [String.prototype.trim], for ASCII text. *)
Definition isWhiteSpace (c : ascii) : bool :=
  let n := nat_of_ascii c in (n =? 32)%nat || ((9 <=? n)%nat && (n <=? 13)%nat).

Fixpoint trimStart (s : string) : string :=
  match s with
  | EmptyString => EmptyString
  | String c rest => if isWhiteSpace c then trimStart rest else s
  end.

Definition reverse (s : string) : string :=
  string_of_list_ascii (rev (list_ascii_of_string s)).

(** [s.trim()] *)
Definition trim (s : string) : string :=
  reverse (trimStart (reverse (trimStart s))).

(** [String(n)] for an array index. *)
Definition indexToString (n : nat) : string :=
  NilEmpty.string_of_uint (Nat.to_uint n).

(** [error.message] *)
Definition message (e : JsError) : string :=
  match e with TypeError m | Error m => m end.

(** A JavaScript string is truthy iff it is not empty. *)
Definition truthy (s : string) : bool :=
  match s with EmptyString => false | _ => true end.

(* ------------------------------------------------------------------ *)
(** * The [semver] module *)

(** What the program relies on from [semver]: the [SemVer] constructor, which
    throws a [TypeError] on a string that is not a version, the three-way
    [compare] of two parsed versions, the [Range] constructor (whose failure
    [satisfies] swallows) and [Range.prototype.test].  Two facts about the
    library are used: a version compares equal to itself, and a string that
    parses as a version contains none of the characters [^ ~ > = <]. *)
Class SemverLib : Type := {
  SemVer : Type;
  Range : Type;
  newSemVer : string -> Result SemVer;
  compare : SemVer -> SemVer -> comparison;
  newRange : string -> option Range;
  rangeTest : Range -> SemVer -> bool;
  compare_same : forall v, compare v v = Eq;
  version_chars : forall s v c,
    newSemVer s = Ok v -> In c (list_ascii_of_string s) -> isOperatorChar c = false
}.

Module semver.
Section Functions.
Context {L : SemverLib}.

(** [compare(a, b)]: [new SemVer(a).compare(new SemVer(b))]. *)
Definition compare (a b : string) : Result comparison :=
  va <- newSemVer a ;;
  vb <- newSemVer b ;;
  Ok (compare va vb).

(** [gt(a, b)]: [compare(a, b) > 0]. *)
Definition gt (a b : string) : Result bool :=
  c <- compare a b ;;
  Ok (match c with Gt => true | _ => false end).

(** [satisfies(version, range)]: a range or a version that does not
    parse gives [false]; nothing is thrown. *)
Definition satisfies (version range : string) : bool :=
  match newRange range with
  | None => false
  | Some r =>
      match newSemVer version with
      | Throw _ => false
      | Ok v => rangeTest r v
      end
  end.

End Functions.
End semver.

(* ------------------------------------------------------------------ *)
(** * [DependencyManager.compareVersions] *)

Record VersionRelation : Type := {
  isDowngrade : bool;
  isRangeSatisfied : option bool
}.

Definition startsWithRangeOperator (current : string) : bool :=
  startsWith current ">=" || startsWith current "<="
  || startsWith current ">" || startsWith current "<".

Section CompareVersions.
Context {L : SemverLib}.

Definition compareVersions (current target : string) : Result VersionRelation :=
  if startsWithRangeOperator current then
    let isRangeSatisfied := semver.satisfies target current in
    Ok {| isDowngrade := false; isRangeSatisfied := Some isRangeSatisfied |}
  else
    let cleanCurrent := stripOperators current in
    let cleanTarget := stripOperators target in
    if startsWith current "^" || startsWith current "~" then
      d <- semver.gt cleanCurrent cleanTarget ;;
      Ok {| isDowngrade := d; isRangeSatisfied := None |}
    else
      d <- semver.gt cleanCurrent cleanTarget ;;
      Ok {| isDowngrade := d; isRangeSatisfied := None |}.

End CompareVersions.

(* ------------------------------------------------------------------ *)
(** * A reference instance of [SemverLib]

    Versions [MAJOR.MINOR.PATCH] (numeric identifiers without leading
    zeros, each at most [Number.MAX_SAFE_INTEGER]) and ranges made of one
    comparator [<op>MAJOR.MINOR.PATCH] with [<op>] one of nothing, [=], [>],
    [>=], [<], [<=].  On these strings it agrees with the library.  It
    knows nothing of pre-release and build tags, of a leading [v], of white
    space or of compound ranges, and takes such strings as not parsing; the
    scenarios at the end, which are evaluated with it, stay clear of them. *)

Module RefSemver.

Record Version : Type := { major : N; minor : N; patch : N }.

Inductive Operator : Type := OpEq | OpGt | OpGte | OpLt | OpLte.

Definition Comparator : Type := (Operator * Version)%type.

Definition isDigit (c : ascii) : bool :=
  let n := nat_of_ascii c in (48 <=? n)%nat && (n <=? 57)%nat.

Definition isVersionChar (c : ascii) : bool := isDigit c || Ascii.eqb c ".".

Fixpoint splitOn (sep : ascii) (s : string) : list string :=
  match s with
  | EmptyString => [EmptyString]
  | String c rest =>
      match splitOn sep rest with
      | [] => [EmptyString]
      | h :: t =>
          if Ascii.eqb c sep then EmptyString :: h :: t else String c h :: t
      end
  end.

Definition digitsValue (s : string) : N :=
  fold_left (fun acc c => (acc * 10 + N.of_nat (nat_of_ascii c - 48))%N)
            (list_ascii_of_string s) 0%N.

(** [0|[1-9]\d*] *)
Definition numericIdentifier (s : string) : option N :=
  match s with
  | EmptyString => None
  | String c rest =>
      if forallb isDigit (list_ascii_of_string s)
         && (negb (Ascii.eqb c "0") || String.eqb rest "")
      then Some (digitsValue s) else None
  end.

Definition MAX_SAFE_INTEGER : N := 9007199254740991.

Definition parse (s : string) : Result Version :=
  if forallb isVersionChar (list_ascii_of_string s) then
    match map numericIdentifier (splitOn "." s) with
    | [Some a; Some b; Some c] =>
        if (MAX_SAFE_INTEGER <? a)%N then Throw (TypeError "Invalid major version")
        else if (MAX_SAFE_INTEGER <? b)%N then Throw (TypeError "Invalid minor version")
        else if (MAX_SAFE_INTEGER <? c)%N then Throw (TypeError "Invalid patch version")
        else Ok {| major := a; minor := b; patch := c |}
    | _ => Throw (TypeError ("Invalid Version: " ++ s))
    end
  else Throw (TypeError ("Invalid Version: " ++ s)).

Definition compareMain (a b : Version) : comparison :=
  match (major a ?= major b)%N with
  | Eq => match (minor a ?= minor b)%N with
          | Eq => (patch a ?= patch b)%N
          | c => c
          end
  | c => c
  end.

Definition dropChars (n : nat) (s : string) : string :=
  substring n (String.length s - n) s.

Definition parseComparator (s : string) : option Comparator :=
  let withOp (op : Operator) (n : nat) :=
    match parse (dropChars n s) with
    | Ok v => Some (op, v)
    | Throw _ => None
    end in
  if startsWith s ">=" then withOp OpGte 2%nat
  else if startsWith s "<=" then withOp OpLte 2%nat
  else if startsWith s ">" then withOp OpGt 1%nat
  else if startsWith s "<" then withOp OpLt 1%nat
  else if startsWith s "=" then withOp OpEq 1%nat
  else withOp OpEq 0%nat.

Definition test (c : Comparator) (v : Version) : bool :=
  let (op, w) := c in
  match op, compareMain v w with
  | OpEq, Eq => true
  | OpGt, Gt => true
  | OpGte, (Gt | Eq) => true
  | OpLt, Lt => true
  | OpLte, (Lt | Eq) => true
  | _, _ => false
  end.

#[export] Instance lib : SemverLib.
Proof.
  refine {| SemVer := Version; Range := Comparator;
            newSemVer := parse; compare := compareMain;
            newRange := parseComparator; rangeTest := test |}.
  - intros v. unfold compareMain. now rewrite !N.compare_refl.
  - intros s v c Hparse Hin. unfold parse in Hparse.
    destruct (forallb isVersionChar (list_ascii_of_string s)) eqn:Hall;
      [ | discriminate ].
    rewrite forallb_forall in Hall. specialize (Hall c Hin).
    unfold isVersionChar, isDigit in Hall. unfold isOperatorChar.
    repeat match goal with
           | |- context [Ascii.eqb c ?x] =>
               destruct (Ascii.eqb_spec c x); [ subst c; discriminate Hall | ]
           end.
    reflexivity.
Defined.

End RefSemver.

(* ------------------------------------------------------------------ *)
(** * [DependencyManager.update] *)

Inductive DependencyType : Type :=
| dependencies
| devDependencies
| peerDependencies.

Definition DependencyType_eqb (a b : DependencyType) : bool :=
  match a, b with
  | dependencies, dependencies
  | devDependencies, devDependencies
  | peerDependencies, peerDependencies => true
  | _, _ => false
  end.

(** The three buckets of [package.json]; [None] is an absent bucket.  The
    other keys of the file are carried along untouched and left out. *)
Module PackageJson.
Record t : Type := {
  deps : option (JsObject.t string);
  devDeps : option (JsObject.t string);
  peerDeps : option (JsObject.t string)
}.

(** [packageJson[depType]] *)
Definition get (depType : DependencyType) (p : t) : option (JsObject.t string) :=
  match depType with
  | dependencies => deps p
  | devDependencies => devDeps p
  | peerDependencies => peerDeps p
  end.

(** [packageJson[depType] = bucket] *)
Definition set (depType : DependencyType) (bucket : JsObject.t string) (p : t) : t :=
  match depType with
  | dependencies =>
      {| deps := Some bucket; devDeps := devDeps p; peerDeps := peerDeps p |}
  | devDependencies =>
      {| deps := deps p; devDeps := Some bucket; peerDeps := peerDeps p |}
  | peerDependencies =>
      {| deps := deps p; devDeps := devDeps p; peerDeps := Some bucket |}
  end.
End PackageJson.

Module UpdateInfo.
Record t : Type := {
  current : string;
  new : string;
  category : string;
  isDowngrade : bool;
  isRangeSatisfied : option bool
}.
End UpdateInfo.

(** [updates: Record<DependencyType, Record<string, UpdateInfo>>] *)
Module Updates.
Record t : Type := {
  deps : JsObject.t UpdateInfo.t;
  devDeps : JsObject.t UpdateInfo.t;
  peerDeps : JsObject.t UpdateInfo.t
}.

Definition empty : t := {| deps := []; devDeps := []; peerDeps := [] |}.

Definition get (depType : DependencyType) (u : t) : JsObject.t UpdateInfo.t :=
  match depType with
  | dependencies => deps u
  | devDependencies => devDeps u
  | peerDependencies => peerDeps u
  end.

(** [updates[depType][pkg] = info] *)
Definition set (depType : DependencyType) (pkg : string) (info : UpdateInfo.t)
    (u : t) : t :=
  match depType with
  | dependencies =>
      {| deps := JsObject.set pkg info (deps u);
         devDeps := devDeps u; peerDeps := peerDeps u |}
  | devDependencies =>
      {| deps := deps u;
         devDeps := JsObject.set pkg info (devDeps u); peerDeps := peerDeps u |}
  | peerDependencies =>
      {| deps := deps u; devDeps := devDeps u;
         peerDeps := JsObject.set pkg info (peerDeps u) |}
  end.

(** [Object.entries(updates)] *)
Definition entries (u : t) : list (DependencyType * JsObject.t UpdateInfo.t) :=
  [(dependencies, deps u); (devDependencies, devDeps u);
   (peerDependencies, peerDeps u)].
End Updates.

Definition dependencyTypes : list DependencyType :=
  [dependencies; devDependencies; peerDependencies].

(** Lines written with [console.log] by [update]. *)
Inductive Line : Type :=
| UpToDate                       (* All dependencies are up to date *)
| UpdatesAvailable               (* Updates available: *)
| BucketHeader (depType : DependencyType)
| UpdateLine (pkg current new category : string)
             (downgradeTag : bool) (rangeTag : option bool)
| Blank
| DryRunNotice                   (* (Dry run - no changes made) *)
| Skipping (pkg current new : string)
| Updated.                       (* package.json updated. ... *)

(** What [update] does to the outside, in order.  [Prompt] is one call of
    [promptUser] with what the user typed; [SavePackageJson] carries the
    object that is written as [JSON.stringify(_, null, 2)] and a newline. *)
Inductive Event : Type :=
| Log (line : Line)
| Prompt (pkg current new : string) (answer : string)
| SavePackageJson (content : PackageJson.t).

(** [answer.toLowerCase() === 'y'] *)
Definition isYes (answer : string) : bool :=
  String.eqb answer "y" || String.eqb answer "Y".

(** State of the scanning loops: [updates] and [hasUpdates]. *)
Definition ScanState : Type := (Updates.t * bool)%type.

(** State of the applying loops: the manifest in memory, the events so far
    and the number of questions asked. *)
Record ApplyState : Type := {
  packageJson : PackageJson.t;
  events : list Event;
  asked : nat
}.

Section Update.
Context {L : SemverLib}.

(** Body of [for (const [category, catalog] of Object.entries(catalogs))]. *)
Definition scanCatalog (depType : DependencyType) (pkg currentVersion : string)
    (st : ScanState) (entry : string * JsObject.t string) : Result ScanState :=
  let (category, catalog) := entry in
  match JsObject.get pkg catalog with
  | Some target =>
      if truthy target && negb (String.eqb target currentVersion) then
        comparison <- compareVersions currentVersion target ;;
        Ok (Updates.set depType pkg
              {| UpdateInfo.current := currentVersion;
                 UpdateInfo.new := target;
                 UpdateInfo.category := category;
                 UpdateInfo.isDowngrade := isDowngrade comparison;
                 UpdateInfo.isRangeSatisfied := isRangeSatisfied comparison |}
              (fst st),
            true)
      else Ok st
  | None => Ok st
  end.

(** Body of [for (const [pkg, currentVersion] of Object.entries(...))]. *)
Definition scanPackage (catalogs : JsObject.t (JsObject.t string))
    (depType : DependencyType) (st : ScanState) (entry : string * string)
  : Result ScanState :=
  let (pkg, currentVersion) := entry in
  forEach (scanCatalog depType pkg currentVersion) catalogs st.

(** Body of [for (const depType of dependencyTypes)]. *)
Definition scanBucket (packageJson : PackageJson.t)
    (catalogs : JsObject.t (JsObject.t string))
    (st : ScanState) (depType : DependencyType) : Result ScanState :=
  match PackageJson.get depType packageJson with
  | Some bucket => forEach (scanPackage catalogs depType) bucket st
  | None => Ok st
  end.

(** The first phase of [update]: lines 223-275. *)
Definition collectUpdates (packageJson : PackageJson.t)
    (catalogs : JsObject.t (JsObject.t string)) : Result ScanState :=
  forEach (scanBucket packageJson catalogs) dependencyTypes (Updates.empty, false).

(** One line of the report, lines 289-306. *)
Definition updateLine (depType : DependencyType) (entry : string * UpdateInfo.t)
  : Event :=
  let (pkg, info) := entry in
  Log (UpdateLine pkg (UpdateInfo.current info) (UpdateInfo.new info)
         (UpdateInfo.category info) (UpdateInfo.isDowngrade info)
         (if DependencyType_eqb depType peerDependencies
          then UpdateInfo.isRangeSatisfied info else None)).

(** The report, lines 285-310. *)
Definition display (updates : Updates.t) : list Event :=
  flat_map
    (fun depType =>
       match Updates.get depType updates with
       | [] => []
       | entries =>
           Log (BucketHeader depType) :: map (updateLine depType) entries
           ++ [Log Blank]
       end)
    dependencyTypes.

(** Body of [for (const [pkg, info] of Object.entries(deps))], lines 320-343.
    [answers n] is what the user types at the [n]-th question. *)
Definition applyUpdate (answers : nat -> string) (depType : DependencyType)
    (st : ApplyState) (entry : string * UpdateInfo.t) : Result ApplyState :=
  let (pkg, info) := entry in
  let shouldUpdate := true in
  let '(shouldUpdate, st) :=
    if UpdateInfo.isDowngrade info then
      let answer := answers (asked st) in
      (isYes answer,
       {| packageJson := packageJson st;
          events := events st
                    ++ [Prompt pkg (UpdateInfo.current info) (UpdateInfo.new info)
                          answer];
          asked := S (asked st) |})
    else (shouldUpdate, st) in
  let '(shouldUpdate, st) :=
    match DependencyType_eqb depType peerDependencies,
          UpdateInfo.isRangeSatisfied info with
    | true, Some true =>
        (false,
         {| packageJson := packageJson st;
            events := events st
                      ++ [Log (Skipping pkg (UpdateInfo.current info)
                                 (UpdateInfo.new info))];
            asked := asked st |})
    | _, _ => (shouldUpdate, st)
    end in
  if shouldUpdate then
    match PackageJson.get depType (packageJson st) with
    | Some bucket =>
        Ok {| packageJson :=
                PackageJson.set depType
                  (JsObject.set pkg (UpdateInfo.new info) bucket) (packageJson st);
              events := events st;
              asked := asked st |}
    | None => Throw (TypeError "Cannot set properties of undefined")
    end
  else Ok st.

(** Body of [for (const [depType, deps] of Object.entries(updates))]. *)
Definition applyBucket (answers : nat -> string) (st : ApplyState)
    (entry : DependencyType * JsObject.t UpdateInfo.t) : Result ApplyState :=
  let (depType, deps) := entry in
  forEach (applyUpdate answers depType) deps st.

(** The last phase of [update], lines 318-345. *)
Definition applyUpdates (answers : nat -> string) (updates : Updates.t)
    (st : ApplyState) : Result ApplyState :=
  forEach (applyBucket answers) (Updates.entries updates) st.

(** What a call of [update] leaves behind: the manifest object in memory
    and the events in order. *)
Record Outcome : Type := {
  manifest : PackageJson.t;
  trace : list Event
}.

(** [update(dryRun)] on the parsed [package.json] and the parsed catalogs
    in [Object.entries(catalogs)] order, that is once the files are read
    (lines 222-242).  A [SavePackageJson] event is the call of
    [savePackageJson]. *)
Definition update (dryRun : bool) (packageJson0 : PackageJson.t)
    (catalogs : JsObject.t (JsObject.t string)) (answers : nat -> string)
  : Result Outcome :=
  scanned <- collectUpdates packageJson0 catalogs ;;
  let (updates, hasUpdates) := scanned in
  if negb hasUpdates then
    Ok {| manifest := packageJson0; trace := [Log UpToDate] |}
  else
    let shown := Log UpdatesAvailable :: display updates in
    if dryRun then
      Ok {| manifest := packageJson0; trace := shown ++ [Log DryRunNotice] |}
    else
      st <- applyUpdates answers updates
              {| packageJson := packageJson0; events := shown; asked := 0 |} ;;
      Ok {| manifest := packageJson st;
            trace := events st
                     ++ [SavePackageJson (packageJson st); Log Updated] |}.

End Update.

(* ------------------------------------------------------------------ *)
(** * [UpdateChecker.updateCategory] *)

Module UpdateChecker.

Inductive Line : Type :=
| Updating (category : string)
| PackageUpdated (pkg currentVersion latestVersion : string)
| NoChanges (pkg currentVersion : string)
| ErrorUpdating (pkg msg : string)
| UpdatedSuccessfully (category backupPath : string)
| NoUpdatesNeeded (category : string)
| FileNotFound (category : string).

(** What [updateCategory] does to the outside, in order.  [WriteFile]
    carries the object that is written as [JSON.stringify(_, null, 2)] and a
    newline.  Copying and writing are taken to succeed. *)
Inductive Event : Type :=
| Log (line : Line)
| CopyFile (src dest : string)
| WriteFile (path : string) (content : JsObject.t string).

(** State of the loop over the catalog: [updatedDeps], [updateCount] and
    the lines printed. *)
Record LoopState : Type := {
  updatedDeps : JsObject.t string;
  updateCount : nat;
  printed : list Event
}.

Section UpdateCategory.
(** [path.join] *)
Variable pathJoin : string -> string -> string.
(** [JSON.parse(await fs.readFile(path, 'utf-8'))]; [None] when either
    throws. *)
Variable readCatalog : string -> option (JsObject.t string).
(** [execSync(`npm view ${pkg} version`)]: the output of the registry or
    the error thrown. *)
Variable npmView : string -> Result string.

(** Body of [for (const [pkg, currentVersion] of Object.entries(deps))]. *)
Definition refreshPackage (st : LoopState) (entry : string * string) : LoopState :=
  let (pkg, currentVersion) := entry in
  match npmView pkg with
  | Ok output =>
      let latestVersion := trim output in
      let updatedDeps' := JsObject.set pkg latestVersion (updatedDeps st) in
      if negb (String.eqb latestVersion currentVersion) then
        {| updatedDeps := updatedDeps';
           updateCount := S (updateCount st);
           printed := printed st
                      ++ [Log (PackageUpdated pkg currentVersion latestVersion)] |}
      else
        {| updatedDeps := updatedDeps';
           updateCount := updateCount st;
           printed := printed st ++ [Log (NoChanges pkg currentVersion)] |}
  | Throw error =>
      {| updatedDeps := JsObject.set pkg currentVersion (updatedDeps st);
         updateCount := updateCount st;
         printed := printed st ++ [Log (ErrorUpdating pkg (message error))] |}
  end.

Definition refreshLoop (deps : JsObject.t string) (category : string) : LoopState :=
  fold_left refreshPackage deps
    {| updatedDeps := []; updateCount := 0; printed := [Log (Updating category)] |}.

(** [updateCategory(category)]: the events in order. *)
Definition updateCategory (catalogPath category : string) : list Event :=
  let filePath := pathJoin catalogPath (category ++ ".json") in
  match readCatalog filePath with
  | Some deps =>
      let st := refreshLoop deps category in
      if (0 <? updateCount st)%nat then
        let backupPath := filePath ++ ".backup" in
        printed st
        ++ [CopyFile filePath backupPath;
            WriteFile filePath (updatedDeps st);
            Log (UpdatedSuccessfully category backupPath)]
      else printed st ++ [Log (NoUpdatesNeeded category)]
  | None => [Log (FileNotFound category)]
  end.

End UpdateCategory.

(** What the refreshed catalog holds for an entry: the trimmed answer of
    the registry, or the entry as it was when the lookup fails. *)
Definition refreshed (npmView : string -> Result string)
    (entry : string * string) : string * string :=
  match npmView (fst entry) with
  | Ok output => (fst entry, trim output)
  | Throw _ => entry
  end.

(** The registry answered with a version that differs. *)
Definition changed (npmView : string -> Result string)
    (entry : string * string) : bool :=
  match npmView (fst entry) with
  | Ok output => negb (String.eqb (trim output) (snd entry))
  | Throw _ => false
  end.

(** The line printed for an entry. *)
Definition lineFor (npmView : string -> Result string)
    (entry : string * string) : Event :=
  match npmView (fst entry) with
  | Ok output =>
      if negb (String.eqb (trim output) (snd entry))
      then Log (PackageUpdated (fst entry) (snd entry) (trim output))
      else Log (NoChanges (fst entry) (snd entry))
  | Throw error => Log (ErrorUpdating (fst entry) (message error))
  end.

Definition isLog (e : Event) : bool :=
  match e with Log _ => true | _ => false end.

Definition isCopyFile (e : Event) : bool :=
  match e with CopyFile _ _ => true | _ => false end.

Definition isWriteFile (e : Event) : bool :=
  match e with WriteFile _ _ => true | _ => false end.

Definition isPackageUpdated (e : Event) : bool :=
  match e with Log (PackageUpdated _ _ _) => true | _ => false end.

End UpdateChecker.

(* ------------------------------------------------------------------ *)
(** * [validateCatalog] *)

Module Validator.

(** A value returned by [JSON.parse]. *)
Inductive Json : Type :=
| JNull
| JBool (b : bool)
| JNumber (literal : string)
| JString (s : string)
| JArray (items : list Json)
| JObject (members : list (string * Json)).

(** [typeof json === 'object'] *)
Definition typeofObject (json : Json) : bool :=
  match json with
  | JNull | JArray _ | JObject _ => true
  | _ => false
  end.

Definition isNull (json : Json) : bool :=
  match json with JNull => true | _ => false end.

(** [typeof version === 'string'] *)
Definition typeofString (json : Json) : bool :=
  match json with JString _ => true | _ => false end.

Fixpoint indexed (n : nat) (items : list Json) : list (string * Json) :=
  match items with
  | [] => []
  | x :: rest => (indexToString n, x) :: indexed (S n) rest
  end.

(** [Object.entries(json)] *)
Definition entries (json : Json) : list (string * Json) :=
  match json with
  | JObject members => members
  | JArray items => indexed 0 items
  | _ => []
  end.

(** What reading and parsing a file gives. *)
Inductive FileContent : Type :=
| ReadFails (e : JsError)
| SyntaxError (msg : string)
| Parsed (json : Json).

Section ValidateCatalog.
Variable pathJoin : string -> string -> string.
(** [fs.access(path)] succeeds. *)
Variable access : string -> bool.
(** [JSON.parse(await fs.readFile(path, 'utf-8'))] *)
Variable readJson : string -> FileContent.

(** Body of the loop at lines 45-51. *)
Definition checkEntry (category : string) (_ : unit) (entry : string * Json)
  : Result unit :=
  let (pkg, version) := entry in
  if negb (typeofString version) then
    Throw (Error ("Invalid version for " ++ pkg ++ " in " ++ category
                  ++ ".json: must be a string"))
  else Ok tt.

(** Body of the loop at lines 31-58. *)
Definition checkCategory (catalogPath : string) (_ : unit) (category : string)
  : Result unit :=
  let filePath := pathJoin catalogPath (category ++ ".json") in
  match readJson filePath with
  | ReadFails e => Throw e
  | SyntaxError msg =>
      Throw (Error ("Invalid JSON in " ++ category ++ ".json: " ++ msg))
  | Parsed json =>
      if negb (typeofObject json) || isNull json then
        Throw (Error ("Invalid format in " ++ category
                      ++ ".json: must be an object"))
      else forEach (checkEntry category) (entries json) tt
  end.

Definition validateCatalog (catalogPath : string) (categories : list string)
  : Result unit :=
  if negb (access catalogPath) then
    Throw (Error ("Catalog path '" ++ catalogPath ++ "' does not exist"))
  else
    let missingCategories :=
      filter (fun category =>
                negb (access (pathJoin catalogPath (category ++ ".json"))))
             categories in
    if (0 <? length missingCategories)%nat then
      Throw (Error ("Missing category files: "
                    ++ String.concat ", " missingCategories))
    else forEach (checkCategory catalogPath) categories tt.

End ValidateCatalog.

(** The parsed documents that pass the two checks of lines 38-51. *)
Definition accepted (json : Json) : bool :=
  match json with
  | JObject members => forallb (fun entry => typeofString (snd entry)) members
  | JArray items => forallb typeofString items
  | _ => false
  end.

End Validator.

(* ------------------------------------------------------------------ *)
(** * Vocabulary of the specification *)

Section Vocabulary.
Context {L : SemverLib}.

(** [s] parses as a semantic version. *)
Definition isVersion (s : string) : Prop := exists v, newSemVer s = Ok v.

(** [s] does not parse as a semantic version. *)
Definition malformed (s : string) : Prop := exists e, newSemVer s = Throw e.

(** [current] is a bare version, or a version behind a caret or a tilde. *)
Definition bareOrCaretTilde (current : string) : Prop :=
  exists v, isVersion v /\ (current = v \/ current = "^" ++ v \/ current = "~" ++ v).

(** [a] is strictly greater than [b] in the ordering of semantic versions. *)
Definition semverGreater (a b : string) : Prop :=
  exists va vb,
    newSemVer a = Ok va /\ newSemVer b = Ok vb /\ compare va vb = Gt.

End Vocabulary.

(** What one catalog contributes for a package declared as
    [currentVersion]: its category and its version. *)
Definition matchOf (pkg currentVersion : string)
    (entry : string * JsObject.t string) : option (string * string) :=
  let (category, catalog) := entry in
  match JsObject.get pkg catalog with
  | Some target =>
      if truthy target && negb (String.eqb target currentVersion)
      then Some (category, target) else None
  | None => None
  end.

(** Every matching category with its version, in iteration order. *)
Definition matching (pkg currentVersion : string)
    (catalogs : JsObject.t (JsObject.t string)) : list (string * string) :=
  flat_map (fun entry => match matchOf pkg currentVersion entry with
                         | Some m => [m]
                         | None => []
                         end) catalogs.

(** The last matching category in iteration order. *)
Fixpoint lastMatch (pkg currentVersion : string)
    (catalogs : JsObject.t (JsObject.t string)) : option (string * string) :=
  match catalogs with
  | [] => None
  | entry :: rest =>
      match lastMatch pkg currentVersion rest with
      | Some m => Some m
      | None => matchOf pkg currentVersion entry
      end
  end.

(** [packageJson[depType]?.[pkg]] *)
Definition declared (depType : DependencyType) (pkg : string)
    (p : PackageJson.t) : option string :=
  match PackageJson.get depType p with
  | Some bucket => JsObject.get pkg bucket
  | None => None
  end.

(** The object literal stored at lines 263-269. *)
Definition mkUpdateInfo (currentVersion target category : string)
    (comparison : VersionRelation) : UpdateInfo.t :=
  {| UpdateInfo.current := currentVersion;
     UpdateInfo.new := target;
     UpdateInfo.category := category;
     UpdateInfo.isDowngrade := isDowngrade comparison;
     UpdateInfo.isRangeSatisfied := isRangeSatisfied comparison |}.

(** Every bucket of the manifest has distinct package names, as the keys
    of a JavaScript object are. *)
Definition wfPackageJson (p : PackageJson.t) : Prop :=
  forall depType bucket,
    PackageJson.get depType p = Some bucket -> JsObject.wf bucket.

(** Every bucket of pending changes has distinct package names. *)
Definition wfUpdates (u : Updates.t) : Prop :=
  forall depType, JsObject.wf (Updates.get depType u).

(** The catalogs agree: two catalogs that declare the same package with
    a version that is not empty declare the same version. *)
Definition consistent (catalogs : JsObject.t (JsObject.t string)) : Prop :=
  forall c1 cat1 c2 cat2 pkg v1 v2,
    In (c1, cat1) catalogs -> In (c2, cat2) catalogs ->
    JsObject.get pkg cat1 = Some v1 -> JsObject.get pkg cat2 = Some v2 ->
    v1 <> "" -> v2 <> "" -> v1 = v2.

(** A catalog without its entries whose version is the empty string. *)
Definition dropEmpty (catalog : JsObject.t string) : JsObject.t string :=
  filter (fun entry => truthy (snd entry)) catalog.

(** The pending changes recorded under one package name. *)
Definition changesFor (pkg : string) (entries : JsObject.t UpdateInfo.t)
  : list (string * UpdateInfo.t) :=
  filter (fun entry => String.eqb (fst entry) pkg) entries.

(** The change lines of the report: one for each pending change, bucket
    after bucket. *)
Definition changeLines (updates : Updates.t) : list Event :=
  flat_map (fun depType => map (updateLine depType) (Updates.get depType updates))
           dependencyTypes.

(** A change is skipped as already satisfied. *)
Definition skipped (depType : DependencyType) (info : UpdateInfo.t) : Prop :=
  depType = peerDependencies /\ UpdateInfo.isRangeSatisfied info = Some true.

Definition isLog (e : Event) : bool :=
  match e with Log _ => true | _ => false end.

(** The change lines of a trace. *)
Definition isUpdateLine (e : Event) : bool :=
  match e with Log (UpdateLine _ _ _ _ _ _) => true | _ => false end.

Definition isPrompt (e : Event) : bool :=
  match e with Prompt _ _ _ _ => true | _ => false end.

Definition isSave (e : Event) : bool :=
  match e with SavePackageJson _ => true | _ => false end.

Section PendingChanges.
Context {L : SemverLib}.

(** [info] is the pending change recorded for a package declared as
    [currentVersion] from [category], whose catalog says [target]. *)
Definition pendingFrom (currentVersion category target : string)
    (info : UpdateInfo.t) : Prop :=
  exists comparison,
    compareVersions currentVersion target = Ok comparison
    /\ info = mkUpdateInfo currentVersion target category comparison.

(** What the scan leaves under a package name: the change from the last
    matching catalog when the package is declared and some catalog
    matches, and what was there before otherwise. *)
Definition scanned (catalogs : JsObject.t (JsObject.t string))
    (pkg : string) (decl : option string)
    (before after : option UpdateInfo.t) : Prop :=
  match decl with
  | None => after = before
  | Some currentVersion =>
      match lastMatch pkg currentVersion catalogs with
      | None => after = before
      | Some (category, target) =>
          exists info, after = Some info
                       /\ pendingFrom currentVersion category target info
      end
  end.

End PendingChanges.

(* ------------------------------------------------------------------ *)
(** * Data of the scenarios *)

Module Scenarios.

Definition yes : nat -> string := fun _ => "y".
Definition no : nat -> string := fun _ => "n".

Definition core18 : JsObject.t (JsObject.t string) :=
  [("core", [("react", "18.2.0")])].

Definition reactRuntime : PackageJson.t :=
  {| PackageJson.deps := Some [("react", "17.0.0")];
     PackageJson.devDeps := None;
     PackageJson.peerDeps := None |}.

Definition reactPeer : PackageJson.t :=
  {| PackageJson.deps := None;
     PackageJson.devDeps := None;
     PackageJson.peerDeps := Some [("react", ">=17.0.0")] |}.

Definition twoCatalogs : JsObject.t (JsObject.t string) :=
  [("core", [("react", "18.0.0")]); ("ui", [("react", "18.2.0")])].

Definition emptyVersion : JsObject.t (JsObject.t string) :=
  [("core", [("react", "")]); ("ui", [("react", "18.2.0")])].

Definition reactChange (current new category : string)
    (satisfied : option bool) : UpdateInfo.t :=
  {| UpdateInfo.current := current; UpdateInfo.new := new;
     UpdateInfo.category := category;
     UpdateInfo.isDowngrade := false;
     UpdateInfo.isRangeSatisfied := satisfied |}.

(** A manifest with an upgrade, a downgrade and a range that is already
    satisfied. *)
Definition mixed : PackageJson.t :=
  {| PackageJson.deps := Some [("react", "17.0.0"); ("lodash", "4.17.21")];
     PackageJson.devDeps := Some [("typescript", "5.4.0")];
     PackageJson.peerDeps := Some [("react", ">=17.0.0")] |}.

Definition coreAndTools : JsObject.t (JsObject.t string) :=
  [("core", [("react", "18.2.0")]); ("tools", [("typescript", "5.0.0")])].

(** A pending change that carries both flags. *)
Definition bothFlags : Updates.t :=
  {| Updates.deps := []; Updates.devDeps := [];
     Updates.peerDeps :=
       [("react",
         {| UpdateInfo.current := ">=17.0.0"; UpdateInfo.new := "16.0.0";
            UpdateInfo.category := "core";
            UpdateInfo.isDowngrade := true;
            UpdateInfo.isRangeSatisfied := Some true |})] |}.

End Scenarios.

(* ------------------------------------------------------------------ *)
(** * [DependencyManager.add] *)

(** [s.includes(c)] for a one-character [c]. *)
Fixpoint includes (c : ascii) (s : string) : bool :=
  match s with
  | EmptyString => false
  | String d rest => Ascii.eqb d c || includes c rest
  end.

(** [Object.assign(target, source)]: the entries of [source] are written
    into [target] in order. *)
Definition assign (target source : JsObject.t string) : JsObject.t string :=
  fold_left (fun o entry => JsObject.set (fst entry) (snd entry) o) source target.

(** [packageJson[depType] || {}] *)
Definition bucketOrEmpty (depType : DependencyType) (p : PackageJson.t)
  : JsObject.t string :=
  match PackageJson.get depType p with
  | Some bucket => bucket
  | None => []
  end.

Module Add.

(** ['dev' | 'peer' | 'dependencies'] *)
Inductive Behavior : Type := dev | peer | deps.

Inductive Line : Type :=
| Added (packageName version : string) (targetType : DependencyType)
| PackageNotFound (packageName category : string)
| AddedCategory (item : string) (actualTargetType : DependencyType)
| Updated.

Inductive Event : Type :=
| Log (line : Line)
| SavePackageJson (content : PackageJson.t).

(** The manifest in memory and the events so far. *)
Record State : Type := {
  packageJson : PackageJson.t;
  events : list Event
}.

(** What a call of [add] leaves behind once [package.json] is read;
    [failure] is the error thrown inside the loop over the items, with which
    the promise is rejected.  A [SavePackageJson] event is the call of
    [savePackageJson]. *)
Record Outcome : Type := {
  manifest : PackageJson.t;
  trace : list Event;
  failure : option JsError
}.

Definition isSave (e : Event) : bool :=
  match e with SavePackageJson _ => true | _ => false end.

Section Add.
(** The parsed content of [<category>.json] under the catalog path; [None]
    when reading or parsing throws. *)
Variable catalogFile : string -> option (JsObject.t string).

(** [loadCatalog(category)] *)
Definition loadCatalog (category : string) : Result (JsObject.t string) :=
  match catalogFile category with
  | Some catalog => Ok catalog
  | None => Throw (Error ("Category '" ++ category ++ "' not found"))
  end.

(** Lines 177-184. *)
Definition actualTargetType (targetType : DependencyType)
    (defaultBehavior : JsObject.t Behavior) (item : string) : DependencyType :=
  match targetType, JsObject.get item defaultBehavior with
  | dependencies, Some dev => devDependencies
  | dependencies, Some peer => peerDependencies
  | dependencies, Some deps => dependencies
  | _, _ => targetType
  end.

(** Body of [for (const item of items)], lines 156-194.  The state comes
    back with the error when [loadCatalog] throws. *)
Definition addItem (targetType : DependencyType)
    (defaultBehavior : JsObject.t Behavior) (st : State) (item : string)
  : State * option JsError :=
  if includes ":" item then
    let parts := RefSemver.splitOn ":" item in
    let category := nth 0 parts "undefined" in
    let packageName := nth 1 parts "undefined" in
    match loadCatalog category with
    | Throw e => (st, Some e)
    | Ok catalog =>
        let notFound :=
          ({| packageJson := packageJson st;
              events := events st ++ [Log (PackageNotFound packageName category)] |},
           None) in
        match JsObject.get packageName catalog with
        | Some version =>
            if truthy version then
              match PackageJson.get targetType (packageJson st) with
              | Some bucket =>
                  ({| packageJson :=
                        PackageJson.set targetType
                          (JsObject.set packageName version bucket)
                          (packageJson st);
                      events := events st
                                ++ [Log (Added packageName version targetType)] |},
                   None)
              | None =>
                  (st, Some (TypeError "Cannot set properties of undefined"))
              end
            else notFound
        | None => notFound
        end
    end
  else
    match loadCatalog item with
    | Throw e => (st, Some e)
    | Ok catalog =>
        let actual := actualTargetType targetType defaultBehavior item in
        ({| packageJson :=
              PackageJson.set actual
                (assign (bucketOrEmpty actual (packageJson st)) catalog)
                (packageJson st);
            events := events st ++ [Log (AddedCategory item actual)] |},
         None)
    end.

Fixpoint addItems (targetType : DependencyType)
    (defaultBehavior : JsObject.t Behavior) (items : list string) (st : State)
  : State * option JsError :=
  match items with
  | [] => (st, None)
  | item :: rest =>
      match addItem targetType defaultBehavior st item with
      | (st', None) => addItems targetType defaultBehavior rest st'
      | stopped => stopped
      end
  end.

(** [add(items, targetType, defaultBehavior)] on the parsed
    [package.json]. *)
Definition add (items : list string) (targetType : DependencyType)
    (defaultBehavior : JsObject.t Behavior) (packageJson0 : PackageJson.t)
  : Outcome :=
  let st0 :=
    {| packageJson :=
         PackageJson.set targetType (bucketOrEmpty targetType packageJson0)
           packageJson0;
       events := [] |} in
  match addItems targetType defaultBehavior items st0 with
  | (st, Some e) =>
      {| manifest := packageJson st; trace := events st; failure := Some e |}
  | (st, None) =>
      {| manifest := packageJson st;
         trace := events st ++ [SavePackageJson (packageJson st); Log Updated];
         failure := None |}
  end.

End Add.

(** The category an item names: the item itself, or what stands before its
    first colon. *)
Definition categoryOf (item : string) : string :=
  if includes ":" item then nth 0 (RefSemver.splitOn ":" item) "undefined"
  else item.

End Add.

(* ------------------------------------------------------------------ *)
(** * [UpdateChecker.checkAll] *)

Module CheckAll.

Inductive Line : Type :=
| Checking (category : string)
| Outdated (pkg version latestVersion : string)
| ErrorChecking (pkg msg : string)
| Found (categoryUpdates : nat) (category : string)
| AllUpToDate (category : string)
| Skipping (category : string)
| Summary (totalUpdates : nat)
| HintRun
| HintCommand.

(** State of the loops: the lines printed, [categoryUpdates] and
    [totalUpdates]. *)
Record State : Type := {
  printed : list Line;
  categoryUpdates : nat;
  totalUpdates : nat
}.

Section CheckAll.
Variable pathJoin : string -> string -> string.
Variable readCatalog : string -> option (JsObject.t string).
Variable npmView : string -> Result string.

(** Body of [for (const [pkg, version] of Object.entries(deps))]. *)
Definition checkPackage (st : State) (entry : string * string) : State :=
  let (pkg, version) := entry in
  match npmView pkg with
  | Ok output =>
      let latestVersion := trim output in
      if negb (String.eqb latestVersion version) then
        {| printed := printed st ++ [Outdated pkg version latestVersion];
           categoryUpdates := S (categoryUpdates st);
           totalUpdates := S (totalUpdates st) |}
      else st
  | Throw error =>
      {| printed := printed st ++ [ErrorChecking pkg (message error)];
         categoryUpdates := categoryUpdates st;
         totalUpdates := totalUpdates st |}
  end.

(** Body of [for (const category of categories)]. *)
Definition checkCategory (catalogPath : string) (st : State) (category : string)
  : State :=
  let filePath := pathJoin catalogPath (category ++ ".json") in
  match readCatalog filePath with
  | Some deps =>
      let st1 :=
        fold_left checkPackage deps
          {| printed := printed st ++ [Checking category];
             categoryUpdates := 0;
             totalUpdates := totalUpdates st |} in
      {| printed := printed st1
                    ++ [if (0 <? categoryUpdates st1)%nat
                        then Found (categoryUpdates st1) category
                        else AllUpToDate category];
         categoryUpdates := categoryUpdates st1;
         totalUpdates := totalUpdates st1 |}
  | None =>
      {| printed := printed st ++ [Skipping category];
         categoryUpdates := categoryUpdates st;
         totalUpdates := totalUpdates st |}
  end.

(** [checkAll(categories)]: the lines printed and [totalUpdates]. *)
Definition checkAll (catalogPath : string) (categories : list string)
  : list Line * nat :=
  let st := fold_left (checkCategory catalogPath) categories
              {| printed := []; categoryUpdates := 0; totalUpdates := 0 |} in
  ((printed st ++ [Summary (totalUpdates st)]
    ++ (if (0 <? totalUpdates st)%nat then [HintRun; HintCommand] else []))%list,
   totalUpdates st).

End CheckAll.

(** The number of packages of a category for which the registry gives
    another version; none when the catalog cannot be read. *)
Definition outdated (pathJoin : string -> string -> string)
    (readCatalog : string -> option (JsObject.t string))
    (npmView : string -> Result string) (catalogPath category : string) : nat :=
  match readCatalog (pathJoin catalogPath (category ++ ".json")) with
  | Some deps => length (filter (UpdateChecker.changed npmView) deps)
  | None => 0
  end.

(** The line that closes a category in the output. *)
Definition verdict (pathJoin : string -> string -> string)
    (readCatalog : string -> option (JsObject.t string))
    (npmView : string -> Result string) (catalogPath category : string) : Line :=
  match readCatalog (pathJoin catalogPath (category ++ ".json")) with
  | Some deps =>
      let n := length (filter (UpdateChecker.changed npmView) deps) in
      if (0 <? n)%nat then Found n category else AllUpToDate category
  | None => Skipping category
  end.

End CheckAll.

(* ------------------------------------------------------------------ *)
(** * Catalog files across runs of [updateCategory], and [updateAll] *)

Module CatalogFiles.

(** The catalog directory: what [JSON.parse(await fs.readFile(path))] gives
    for each path, [None] when it throws.  A catalog that was written is read
    back as it was written. *)
Definition Fs : Type := string -> option (JsObject.t string).

(** [fs.writeFile(path, JSON.stringify(content, null, 2) + '\n')] *)
Definition writeFile (path : string) (content : JsObject.t string) (fs : Fs) : Fs :=
  fun p => if String.eqb p path then Some content else fs p.

(** [fs.copyFile(src, dest)] *)
Definition copyFile (src dest : string) (fs : Fs) : Fs :=
  fun p => if String.eqb p dest then fs src else fs p.

Definition perform (fs : Fs) (e : UpdateChecker.Event) : Fs :=
  match e with
  | UpdateChecker.CopyFile src dest => copyFile src dest fs
  | UpdateChecker.WriteFile path content => writeFile path content fs
  | UpdateChecker.Log _ => fs
  end.

Definition run (fs : Fs) (events : list UpdateChecker.Event) : Fs :=
  fold_left perform events fs.

(** An event that touches a file. *)
Definition touches (e : UpdateChecker.Event) : bool :=
  UpdateChecker.isCopyFile e || UpdateChecker.isWriteFile e.

Section UpdateAll.
Variable pathJoin : string -> string -> string.
Variable npmView : string -> Result string.

(** [updateCategory(category)] on the files [fs]: its events and the
    files afterwards. *)
Definition updateCategoryOn (fs : Fs) (catalogPath category : string)
  : list UpdateChecker.Event * Fs :=
  let events := UpdateChecker.updateCategory pathJoin fs npmView catalogPath category in
  (events, run fs events).

(** [updateAll(categories)] *)
Fixpoint updateAll (fs : Fs) (catalogPath : string) (categories : list string)
  : list UpdateChecker.Event * Fs :=
  match categories with
  | [] => ([], fs)
  | category :: rest =>
      let (events1, fs1) := updateCategoryOn fs catalogPath category in
      let (events2, fs2) := updateAll fs1 catalogPath rest in
      ((events1 ++ events2)%list, fs2)
  end.

End UpdateAll.

(** The catalog at [path], when it can be read, has distinct package names
    and no entry for which the registry gives another version. *)
Definition settled (npmView : string -> Result string) (fs : Fs) (path : string)
  : Prop :=
  match fs path with
  | Some deps =>
      JsObject.wf deps /\ filter (UpdateChecker.changed npmView) deps = []
  | None => True
  end.

(** Every catalog of [categories] that can be read has distinct package
    names. *)
Definition readable (pathJoin : string -> string -> string)
    (catalogPath : string) (categories : list string) (fs : Fs) : Prop :=
  forall c deps,
    In c categories -> fs (pathJoin catalogPath (c ++ ".json")) = Some deps ->
    JsObject.wf deps.

End CatalogFiles.

(* ------------------------------------------------------------------ *)
(** * More vocabulary *)

(** The pending changes that need a confirmation. *)
Definition downgrades (entries : JsObject.t UpdateInfo.t)
  : list (string * UpdateInfo.t) :=
  filter (fun entry => UpdateInfo.isDowngrade (snd entry)) entries.

(** The bucket is absent on both sides, or present with the same package
    names in the same order. *)
Definition sameKeys (before after : option (JsObject.t string)) : Prop :=
  match before, after with
  | None, None => True
  | Some b, Some a => JsObject.keys a = JsObject.keys b
  | _, _ => False
  end.

(** No declared package bears a name that objects inherit from
    [Object.prototype]: for the declared packages [catalog[pkg]] is the
    entry of the catalog or [undefined]. *)
Definition ownNames (p : PackageJson.t) : Prop :=
  forall depType pkg cur,
    declared depType pkg p = Some cur -> JsObject.inherited pkg = false.

(* ------------------------------------------------------------------ *)
(** * Data of further scenarios *)

Module MoreScenarios.

Definition core17 : JsObject.t (JsObject.t string) :=
  [("core", [("react", "17.0.0")])].

Definition reactNewer : PackageJson.t :=
  {| PackageJson.deps := Some [("react", "18.2.0")];
     PackageJson.devDeps := None;
     PackageJson.peerDeps := None |}.

Definition downgrade : UpdateInfo.t :=
  {| UpdateInfo.current := "18.2.0"; UpdateInfo.new := "17.0.0";
     UpdateInfo.category := "core";
     UpdateInfo.isDowngrade := true;
     UpdateInfo.isRangeSatisfied := None |}.

Definition downgradeFound : Updates.t :=
  {| Updates.deps := [("react", downgrade)];
     Updates.devDeps := []; Updates.peerDeps := [] |}.

Definition coreCatalog : JsObject.t string :=
  [("react", "18.2.0"); ("lodash", "4.17.21")].

Definition catalogFile (category : string) : option (JsObject.t string) :=
  if String.eqb category "core" then Some coreCatalog else None.

Definition coreIsPeer : JsObject.t Add.Behavior := [("core", Add.peer)].

Definition join (dir file : string) : string := dir ++ "/" ++ file.

Definition files (path : string) : option (JsObject.t string) :=
  if String.eqb path "catalog/core.json"
  then Some [("a", "1.0.0"); ("b", "2.0.0")]
  else if String.eqb path "catalog/ui.json"
       then Some [("c", "3.0.0")]
       else None.

Definition registry (pkg : string) : Result string :=
  if String.eqb pkg "a" then Ok "1.0.0"
  else if String.eqb pkg "b" then Ok "2.1.0"
  else Throw (Error "E404").

Definition documents (path : string) : Validator.FileContent :=
  if String.eqb path "catalog/core.json"
  then Validator.Parsed (Validator.JObject [("react", Validator.JString "18.2.0")])
  else Validator.Parsed
         (Validator.JObject [("react", Validator.JString "18.2.0");
                             ("lodash", Validator.JNumber "4")]).

End MoreScenarios.

(* ================================================================== *)
(** * Properties of [compareVersions] *)

Section CompareVersionsFacts.
Context {L : SemverLib}.

Lemma stripOperators_id (s : string) :
  (forall c, In c (list_ascii_of_string s) -> isOperatorChar c = false) ->
  stripOperators s = s.
Proof.
  unfold stripOperators.
  induction s as [| c rest IH]; simpl; intros Hall; [ reflexivity | ].
  rewrite (Hall c (or_introl eq_refl)). simpl.
  f_equal. apply IH. intros d Hd. apply Hall. now right.
Qed.

Lemma isVersion_strip (v : string) : isVersion v -> stripOperators v = v.
Proof.
  intros [sv Hsv]. apply stripOperators_id.
  intros c Hc. exact (version_chars _ _ Hsv Hc).
Qed.

Lemma isVersion_no_range_prefix (v : string) :
  isVersion v -> startsWithRangeOperator v = false.
Proof.
  intros [sv Hsv]. unfold startsWithRangeOperator, startsWith.
  destruct v as [| c rest]; [ reflexivity | ].
  pose proof (version_chars _ c Hsv (or_introl eq_refl)) as Hc.
  unfold isOperatorChar in Hc.
  apply orb_false_iff in Hc as [Hc Hlt].
  apply orb_false_iff in Hc as [Hc _].
  apply orb_false_iff in Hc as [_ Hgt].
  apply Ascii.eqb_neq in Hgt, Hlt. cbn [String.prefix].
  destruct (ascii_dec ">" c) as [E | _]; [ now subst c | ].
  destruct (ascii_dec "<" c) as [E | _]; [ now subst c | ].
  reflexivity.
Qed.

(** A bare, caret or tilde version takes the second branch and is cleaned
    to the version it carries. *)
Lemma bareOrCaretTilde_clean (current : string) :
  bareOrCaretTilde current ->
  startsWithRangeOperator current = false
  /\ isVersion (stripOperators current).
Proof.
  intros (v & Hv & [-> | [-> | ->]]).
  - split; [ now apply isVersion_no_range_prefix | ].
    now rewrite isVersion_strip.
  - split; [ reflexivity | ].
    unfold stripOperators. simpl. fold (stripOperators v).
    now rewrite isVersion_strip.
  - split; [ reflexivity | ].
    unfold stripOperators. simpl. fold (stripOperators v).
    now rewrite isVersion_strip.
Qed.

(** In the second branch [compareVersions] is [semver.gt] on the cleaned
    strings, whatever the prefix. *)
Lemma compareVersions_clean_branch (current target : string) :
  startsWithRangeOperator current = false ->
  compareVersions current target =
  (d <- semver.gt (stripOperators current) (stripOperators target) ;;
   Ok {| isDowngrade := d; isRangeSatisfied := None |}).
Proof.
  intros Hb. unfold compareVersions. rewrite Hb.
  now destruct (startsWith current "^" || startsWith current "~").
Qed.

Lemma gt_true_iff (a b : string) :
  semver.gt a b = Ok true <-> semverGreater a b.
Proof.
  unfold semver.gt, semver.compare, semverGreater, bind. split.
  - destruct (newSemVer a) as [va | ea]; [ | discriminate ].
    destruct (newSemVer b) as [vb | eb]; [ | discriminate ].
    destruct (compare va vb) eqn:Hc; try discriminate.
    intros _. now exists va, vb.
  - intros (va & vb & -> & -> & ->). reflexivity.
Qed.

(** ** C1 *)

(** C1.  When [current] is a bare version or a version behind [^] or [~],
    [compareVersions current target] leaves [isRangeSatisfied] undefined;
    it returns [isDowngrade = true] exactly when the cleaned [current] is
    strictly greater than the cleaned [target] as semantic versions; it
    returns a relation whenever the cleaned [target] parses; and on equal
    inputs it returns [isDowngrade = false] without failing. *)
Theorem compareVersions_downgrade_iff (current target : string) :
  bareOrCaretTilde current ->
  (forall r, compareVersions current target = Ok r -> isRangeSatisfied r = None)
  /\ (compareVersions current target
        = Ok {| isDowngrade := true; isRangeSatisfied := None |}
      <-> semverGreater (stripOperators current) (stripOperators target))
  /\ (isVersion (stripOperators target) ->
      exists d, compareVersions current target
                = Ok {| isDowngrade := d; isRangeSatisfied := None |})
  /\ compareVersions current current
     = Ok {| isDowngrade := false; isRangeSatisfied := None |}.
Proof.
  intros Hcur. destruct (bareOrCaretTilde_clean Hcur) as [Hbranch [vc Hvc]].
  rewrite !compareVersions_clean_branch by assumption.
  repeat split.
  - intros r. unfold bind.
    destruct (semver.gt _ _); [ | discriminate ].
    now intros [= <-].
  - intros H. apply gt_true_iff. unfold bind in H.
    destruct (semver.gt _ _) as [[|] | e]; try discriminate; reflexivity.
  - intros H. apply gt_true_iff in H. now rewrite H.
  - intros [vt Hvt]. unfold semver.gt, semver.compare, bind.
    rewrite Hvc, Hvt. eauto.
  - unfold semver.gt, semver.compare, bind.
    now rewrite Hvc, compare_same.
Qed.

(** ** C2 *)

(** C2.  When [current] starts with [>=], [<=], [>] or [<],
    [compareVersions current target] returns [isDowngrade = false] and
    [isRangeSatisfied = satisfies(target, current)]; that flag is [true]
    exactly when [current] parses as a range, [target] parses as a version
    and the range admits the version. *)
Theorem compareVersions_range (current target : string) :
  startsWith current ">=" = true \/ startsWith current "<=" = true
  \/ startsWith current ">" = true \/ startsWith current "<" = true ->
  compareVersions current target
  = Ok {| isDowngrade := false;
          isRangeSatisfied := Some (semver.satisfies target current) |}
  /\ (semver.satisfies target current = true
      <-> exists r v, newRange current = Some r /\ newSemVer target = Ok v
                      /\ rangeTest r v = true).
Proof.
  intros H. split.
  - unfold compareVersions, startsWithRangeOperator.
    destruct H as [-> | [-> | [-> | ->]]]; simpl;
      rewrite ?orb_true_r; reflexivity.
  - unfold semver.satisfies. split.
    + destruct (newRange current) as [r |]; [ | discriminate ].
      destruct (newSemVer target) as [v | e]; [ | discriminate ].
      intros Ht. now exists r, v.
    + intros (r & v & -> & -> & Ht). exact Ht.
Qed.

(** ** C8 *)

(** C8, as amended.  With a range operator in front of [current] the
    comparator never fails: a [target] that is not a version, and a
    [current] that is not a valid range, both give [isDowngrade = false] and
    [isRangeSatisfied = false].  Otherwise it fails exactly with the error
    [semver] raises for the cleaned [current], or, when that one parses, for
    the cleaned [target]. *)
Theorem compareVersions_failures (current target : string) :
  (startsWithRangeOperator current = true ->
   (exists r, compareVersions current target = Ok r)
   /\ (malformed target \/ newRange current = None ->
       compareVersions current target
       = Ok {| isDowngrade := false; isRangeSatisfied := Some false |}))
  /\ (startsWithRangeOperator current = false ->
      forall e,
        compareVersions current target = Throw e
        <-> (newSemVer (stripOperators current) = Throw e
             \/ (isVersion (stripOperators current)
                 /\ newSemVer (stripOperators target) = Throw e))).
Proof.
  split.
  - intros Hb. unfold compareVersions. rewrite Hb. split; [ eauto | ].
    unfold semver.satisfies. intros [[e He] | Hr].
    + rewrite He. now destruct (newRange current).
    + now rewrite Hr.
  - intros Hb e. rewrite compareVersions_clean_branch by assumption.
    unfold semver.gt, semver.compare, bind, isVersion.
    destruct (newSemVer (stripOperators current)) as [vc | ec].
    + destruct (newSemVer (stripOperators target)) as [vt | et].
      * split; [ discriminate | ].
        intros [H | [_ H]]; discriminate.
      * split.
        -- intros [= ->]. right. eauto.
        -- intros [H | [_ H]]; [ discriminate | now inversion H ].
    + split.
      * intros [= ->]. now left.
      * intros [H | [[v Hv] _]]; [ now inversion H | discriminate ].
Qed.

End CompareVersionsFacts.

(* ================================================================== *)
(** * Loops and objects *)

(** A loop whose every step leaves the state alone leaves it alone. *)
Lemma forEach_skip {A S : Type} (body : S -> A -> Result S) (xs : list A) (s : S) :
  (forall x, In x xs -> body s x = Ok s) -> forEach body xs s = Ok s.
Proof.
  induction xs as [| x xs IH]; intros H; simpl; [ reflexivity | ].
  rewrite (H x (or_introl eq_refl)). simpl.
  apply IH. intros y Hy. apply H. now right.
Qed.

(** An invariant of every step is an invariant of the loop. *)
Lemma forEach_invariant {A S : Type} (I : S -> Prop) (body : S -> A -> Result S)
    (xs : list A) :
  (forall s x s', In x xs -> I s -> body s x = Ok s' -> I s') ->
  forall s s', I s -> forEach body xs s = Ok s' -> I s'.
Proof.
  induction xs as [| x xs IH]; intros Hstep s s' Hs; simpl.
  - now intros [= <-].
  - destruct (body s x) as [s1 |] eqn:Hb; simpl; [ | discriminate ].
    apply IH.
    + intros t y t' Hy. apply Hstep. now right.
    + eapply Hstep; eauto. now left.
Qed.

Section ObjectFacts.
Variable V : Type.
Implicit Types (o : JsObject.t V) (k : string) (v : V).

Lemma get_set_same k v o : JsObject.get k (JsObject.set k v o) = Some v.
Proof.
  induction o as [| [k' v'] o IH]; simpl.
  - now rewrite String.eqb_refl.
  - destruct (String.eqb k k') eqn:E; simpl; rewrite E; [ reflexivity | exact IH ].
Qed.

Lemma get_set_other k k' v o :
  k <> k' -> JsObject.get k (JsObject.set k' v o) = JsObject.get k o.
Proof.
  intros Hne. induction o as [| [k0 v0] o IH]; simpl.
  - apply String.eqb_neq in Hne. now rewrite Hne.
  - destruct (String.eqb_spec k' k0) as [<- | Hne']; simpl.
    + apply String.eqb_neq in Hne. now rewrite Hne.
    + now rewrite IH.
Qed.

Lemma get_None_iff k o : JsObject.get k o = None <-> ~ In k (JsObject.keys o).
Proof.
  induction o as [| [k' v'] o IH]; simpl.
  - tauto.
  - destruct (String.eqb_spec k k') as [-> | Hne].
    + split; [ discriminate | ]. intros H. exfalso. apply H. now left.
    + rewrite IH. split; [ | tauto ].
      intros H [E | Hin]; [ now apply Hne | now apply H ].
Qed.

Lemma get_Some_In k v o : JsObject.get k o = Some v -> In (k, v) o.
Proof.
  induction o as [| [k' v'] o IH]; simpl; [ discriminate | ].
  destruct (String.eqb_spec k k') as [-> | Hne].
  - intros [= ->]. now left.
  - intros H. right. now apply IH.
Qed.

Lemma In_get k v o : JsObject.wf o -> In (k, v) o -> JsObject.get k o = Some v.
Proof.
  unfold JsObject.wf.
  induction o as [| [k' v'] o IH]; simpl; intros Hwf Hin; [ contradiction | ].
  inversion Hwf as [| ? ? Hnotin Hwf']; subst.
  destruct Hin as [[= -> ->] | Hin].
  - now rewrite String.eqb_refl.
  - destruct (String.eqb_spec k k') as [-> | Hne].
    + exfalso. apply Hnotin. change k' with (fst (k', v)). now apply in_map.
    + now apply IH.
Qed.

Lemma keys_set k v o :
  JsObject.keys (JsObject.set k v o)
  = if existsb (String.eqb k) (JsObject.keys o)
    then JsObject.keys o else (JsObject.keys o ++ [k])%list.
Proof.
  induction o as [| [k' v'] o IH]; simpl; [ reflexivity | ].
  destruct (String.eqb k k') eqn:E; simpl; [ reflexivity | ].
  rewrite IH. now destruct (existsb _ _).
Qed.

Lemma wf_set k v o : JsObject.wf o -> JsObject.wf (JsObject.set k v o).
Proof.
  unfold JsObject.wf. intros Hwf. rewrite keys_set.
  destruct (existsb (String.eqb k) (JsObject.keys o)) eqn:E; [ assumption | ].
  apply NoDup_app; [ assumption | repeat constructor; intros [] | ].
  intros x Hx [E' | []]. subst x.
  assert (existsb (String.eqb k) (JsObject.keys o) = true); [ | congruence ].
  apply existsb_exists. exists k. split; [ assumption | apply String.eqb_refl ].
Qed.

End ObjectFacts.

(* ================================================================== *)
(** * The scanning phase of [update] *)

Lemma Updates_get_set_same depType pkg info u :
  Updates.get depType (Updates.set depType pkg info u)
  = JsObject.set pkg info (Updates.get depType u).
Proof. now destruct depType. Qed.

Lemma Updates_get_set_other depType depType' pkg info u :
  depType' <> depType ->
  Updates.get depType' (Updates.set depType pkg info u) = Updates.get depType' u.
Proof. destruct depType, depType'; simpl; congruence. Qed.

Lemma wfUpdates_set depType pkg info u :
  wfUpdates u -> wfUpdates (Updates.set depType pkg info u).
Proof.
  intros Hwf t. destruct (DependencyType_eqb t depType) eqn:E.
  - assert (t = depType) as -> by (destruct t, depType; simpl in E; congruence).
    rewrite Updates_get_set_same. apply wf_set, Hwf.
  - rewrite Updates_get_set_other; [ apply Hwf | ].
    intros ->. now destruct depType.
Qed.

Lemma lastMatch_None pkg cur catalogs :
  lastMatch pkg cur catalogs = None <->
  (forall entry, In entry catalogs -> matchOf pkg cur entry = None).
Proof.
  induction catalogs as [| e rest IH]; simpl.
  - split; [ intros _ entry [] | reflexivity ].
  - destruct (lastMatch pkg cur rest) as [m |] eqn:Hl.
    + split; [ discriminate | ]. intros H.
      assert (Some m = None); [ | discriminate ].
      apply IH. intros entry Hin. apply H. now right.
    + split.
      * intros He entry [<- | Hin]; [ assumption | ].
        now apply (proj1 IH).
      * intros H. apply H. now left.
Qed.

Lemma lastMatch_Some pkg cur catalogs category target :
  lastMatch pkg cur catalogs = Some (category, target) ->
  exists catalog,
    In (category, catalog) catalogs
    /\ JsObject.get pkg catalog = Some target
    /\ target <> "" /\ target <> cur.
Proof.
  induction catalogs as [| [c cat] rest IH]; simpl; [ discriminate | ].
  destruct (lastMatch pkg cur rest) as [m |].
  - intros [= ->]. destruct (IH eq_refl) as (catalog & Hin & H).
    exists catalog. split; [ now right | exact H ].
  - destruct (JsObject.get pkg cat) as [tgt |] eqn:Hget; [ | discriminate ].
    destruct (truthy tgt && negb (String.eqb tgt cur)) eqn:Htest; [ | discriminate ].
    intros [= -> ->]. exists cat.
    apply andb_true_iff in Htest as [Ht Hne].
    apply negb_true_iff, String.eqb_neq in Hne.
    repeat split; [ now left | assumption | | assumption ].
    intros ->. discriminate.
Qed.

Lemma last_app_nonempty {A : Type} (l1 l2 : list A) (d : A) :
  l2 <> [] -> last (l1 ++ l2) d = last l2 d.
Proof.
  intros Hne. induction l1 as [| x l1 IH]; [ reflexivity | ].
  cbn [app last]. rewrite IH.
  destruct (l1 ++ l2)%list eqn:E; [ | reflexivity ].
  apply app_eq_nil in E as [_ E]. contradiction.
Qed.

(** [lastMatch] is the last element of [matching]. *)
Lemma lastMatch_matching pkg cur catalogs :
  lastMatch pkg cur catalogs = last (map Some (matching pkg cur catalogs)) None.
Proof.
  induction catalogs as [| entry rest IH]; [ reflexivity | ].
  cbn [lastMatch]. unfold matching in *. cbn [flat_map]. rewrite IH.
  rewrite map_app.
  destruct (flat_map _ rest) as [| m ms] eqn:E.
  - rewrite app_nil_r. now destruct (matchOf pkg cur entry).
  - rewrite last_app_nonempty by discriminate.
    assert (H : exists m', last (map Some (m :: ms)) None = Some m').
    { clear. revert m. induction ms as [| m2 ms IHms]; intros m.
      - now exists m.
      - destruct (IHms m2) as [m' Hm']. exists m'. exact Hm'. }
    destruct H as [m' ->]. reflexivity.
Qed.

Section ScanFacts.
Context {L : SemverLib}.

(** One step of the innermost loop: either the catalog does not match and
    nothing changes, or the comparator is called and its outcome stored
    under the package name. *)
Lemma scanCatalog_step depType pkg cur st entry st' :
  scanCatalog depType pkg cur st entry = Ok st' ->
  match matchOf pkg cur entry with
  | None => st' = st
  | Some (category, target) =>
      exists comparison,
        compareVersions cur target = Ok comparison
        /\ st' = (Updates.set depType pkg
                    (mkUpdateInfo cur target category comparison) (fst st),
                  true)
  end.
Proof.
  destruct entry as [category catalog]. unfold scanCatalog, matchOf.
  destruct (JsObject.get pkg catalog) as [target |]; [ | now intros [= <-] ].
  destruct (truthy target && negb (String.eqb target cur));
    [ | now intros [= <-] ].
  unfold bind. destruct (compareVersions cur target) as [r | e]; [ | discriminate ].
  intros [= <-]. now exists r.
Qed.

(** The loop over the catalogs for one declared package. *)
Lemma scanCatalogs_spec depType pkg cur catalogs :
  forall st st',
    forEach (scanCatalog depType pkg cur) catalogs st = Ok st' ->
    (forall t, t <> depType ->
               Updates.get t (fst st') = Updates.get t (fst st))
    /\ (forall k, k <> pkg ->
                  JsObject.get k (Updates.get depType (fst st'))
                  = JsObject.get k (Updates.get depType (fst st)))
    /\ (wfUpdates (fst st) -> wfUpdates (fst st'))
    /\ (snd st = true -> snd st' = true)
    /\ match lastMatch pkg cur catalogs with
       | None => st' = st
       | Some (category, target) =>
           snd st' = true
           /\ exists info,
               JsObject.get pkg (Updates.get depType (fst st')) = Some info
               /\ pendingFrom cur category target info
       end.
Proof.
  induction catalogs as [| entry rest IH]; intros st st'; simpl.
  - intros [= <-]. repeat split; auto.
  - destruct (scanCatalog depType pkg cur st entry) as [st1 |] eqn:Hstep;
      simpl; [ | discriminate ].
    intros Hrest. apply scanCatalog_step in Hstep.
    destruct (IH _ _ Hrest) as (Hframe & Hkeys & Hwf & Hflag & Hlast).
    assert (Hframe1 : forall t, t <> depType ->
                Updates.get t (fst st1) = Updates.get t (fst st)).
    { intros t Ht. destruct (matchOf pkg cur entry) as [[c tgt] |].
      - destruct Hstep as (r & _ & ->). simpl.
        now apply Updates_get_set_other.
      - now subst st1. }
    assert (Hkeys1 : forall k, k <> pkg ->
                JsObject.get k (Updates.get depType (fst st1))
                = JsObject.get k (Updates.get depType (fst st))).
    { intros k Hk. destruct (matchOf pkg cur entry) as [[c tgt] |].
      - destruct Hstep as (r & _ & ->). simpl.
        rewrite Updates_get_set_same. now apply get_set_other.
      - now subst st1. }
    assert (Hwf1 : wfUpdates (fst st) -> wfUpdates (fst st1)).
    { intros H. destruct (matchOf pkg cur entry) as [[c tgt] |].
      - destruct Hstep as (r & _ & ->). simpl. now apply wfUpdates_set.
      - now subst st1. }
    assert (Hflag1 : snd st = true -> snd st1 = true).
    { intros H. destruct (matchOf pkg cur entry) as [[c tgt] |].
      - now destruct Hstep as (r & _ & ->).
      - now subst st1. }
    repeat split.
    + intros t Ht. rewrite Hframe by assumption. now apply Hframe1.
    + intros k Hk. rewrite Hkeys by assumption. now apply Hkeys1.
    + auto.
    + auto.
    + destruct (lastMatch pkg cur rest) as [[c tgt] |]; [ exact Hlast | ].
      subst st'. destruct (matchOf pkg cur entry) as [[c tgt] |].
      * destruct Hstep as (r & Hr & ->). simpl. split; [ reflexivity | ].
        exists (mkUpdateInfo cur tgt c r).
        rewrite Updates_get_set_same, get_set_same.
        split; [ reflexivity | now exists r ].
      * assumption.
Qed.

(** The loop over the packages of one bucket. *)
Lemma scanPackages_spec catalogs depType bucket :
  JsObject.wf bucket ->
  forall st st',
    forEach (scanPackage catalogs depType) bucket st = Ok st' ->
    (forall t, t <> depType ->
               Updates.get t (fst st') = Updates.get t (fst st))
    /\ (wfUpdates (fst st) -> wfUpdates (fst st'))
    /\ (snd st = true -> snd st' = true)
    /\ (forall k cur, In (k, cur) bucket ->
                      lastMatch k cur catalogs <> None -> snd st' = true)
    /\ ((forall k cur, In (k, cur) bucket -> lastMatch k cur catalogs = None) ->
        st' = st)
    /\ (forall k,
          scanned catalogs k (JsObject.get k bucket)
                  (JsObject.get k (Updates.get depType (fst st)))
                  (JsObject.get k (Updates.get depType (fst st')))).
Proof.
  unfold JsObject.wf.
  induction bucket as [| [pkg cur] rest IH]; intros Hwf st st'; simpl.
  - intros [= <-]. repeat split; auto; try (now intros k cur []).
    all: intros; hnf; auto.
  - inversion Hwf as [| ? ? Hnotin Hwf']; subst.
    destruct (forEach (scanCatalog depType pkg cur) catalogs st) as [st1 |] eqn:Hstep;
      simpl; [ | discriminate ].
    intros Hrest.
    destruct (scanCatalogs_spec _ _ _ _ _ Hstep)
      as (Hframe1 & Hkeys1 & Hwf1 & Hflag1 & Hlast1).
    destruct (IH Hwf' _ _ Hrest)
      as (Hframe & Hwfu & Hflag & Hsome & Hnone & Hkeys).
    repeat split.
    + intros t Ht. rewrite Hframe by assumption. now apply Hframe1.
    + auto.
    + auto.
    + intros k c [[= -> ->] | Hin] Hm.
      * apply Hflag. destruct (lastMatch k c catalogs) as [[c' tgt] |];
          [ apply Hlast1 | congruence ].
      * eapply Hsome; eauto.
    + intros Hall. rewrite Hnone.
      * rewrite (Hall pkg cur (or_introl eq_refl)) in Hlast1. exact Hlast1.
      * intros k c Hin. apply Hall. now right.
    + intros k. specialize (Hkeys k).
      destruct (String.eqb_spec k pkg) as [-> | Hne].
      * assert (Hrestk : JsObject.get pkg rest = None)
          by now apply get_None_iff.
        rewrite Hrestk in Hkeys. simpl in Hkeys. simpl. rewrite Hkeys.
        destruct (lastMatch pkg cur catalogs) as [[c tgt] |].
        -- apply Hlast1.
        -- now subst st1.
      * rewrite (Hkeys1 k Hne) in Hkeys. exact Hkeys.
Qed.

End ScanFacts.

Section CollectFacts.
Context {L : SemverLib}.

Lemma declared_In depType k cur p bucket :
  PackageJson.get depType p = Some bucket -> JsObject.wf bucket ->
  In (k, cur) bucket -> declared depType k p = Some cur.
Proof.
  intros Hb Hwf Hin. unfold declared. rewrite Hb. now apply In_get.
Qed.

Lemma declared_Some depType k cur p :
  declared depType k p = Some cur ->
  exists bucket, PackageJson.get depType p = Some bucket /\ In (k, cur) bucket.
Proof.
  unfold declared. destruct (PackageJson.get depType p) as [b |]; [ | discriminate ].
  intros H. exists b. split; [ reflexivity | now apply get_Some_In ].
Qed.

(** One pass of the outer loop. *)
Lemma scanBucket_spec p catalogs st depType st' :
  wfPackageJson p ->
  scanBucket p catalogs st depType = Ok st' ->
  (forall t, t <> depType -> Updates.get t (fst st') = Updates.get t (fst st))
  /\ (wfUpdates (fst st) -> wfUpdates (fst st'))
  /\ (snd st = true -> snd st' = true)
  /\ (forall k cur, declared depType k p = Some cur ->
                    lastMatch k cur catalogs <> None -> snd st' = true)
  /\ ((forall k cur, declared depType k p = Some cur ->
                     lastMatch k cur catalogs = None) -> st' = st)
  /\ (forall k,
        scanned catalogs k (declared depType k p)
                (JsObject.get k (Updates.get depType (fst st)))
                (JsObject.get k (Updates.get depType (fst st')))).
Proof.
  intros Hwfp. unfold scanBucket.
  destruct (PackageJson.get depType p) as [bucket |] eqn:Hb.
  - intros Hloop.
    destruct (scanPackages_spec catalogs depType (Hwfp _ _ Hb) _ Hloop)
      as (Hframe & Hwf & Hflag & Hsome & Hnone & Hkeys).
    repeat split; auto.
    + intros k cur Hd. apply declared_Some in Hd as (b & Hb' & Hin).
      rewrite Hb in Hb'. injection Hb' as <-. eauto.
    + intros Hall. apply Hnone. intros k cur Hin. apply Hall.
      eapply declared_In; eauto.
    + intros k. unfold declared. rewrite Hb. apply Hkeys.
  - intros [= <-]. repeat split; auto.
    + intros k cur Hd. unfold declared in Hd. rewrite Hb in Hd. discriminate.
    + intros k. unfold declared. rewrite Hb. reflexivity.
Qed.

Lemma collectUpdates_steps p catalogs st :
  collectUpdates p catalogs = Ok st ->
  exists st1 st2,
    scanBucket p catalogs (Updates.empty, false) dependencies = Ok st1
    /\ scanBucket p catalogs st1 devDependencies = Ok st2
    /\ scanBucket p catalogs st2 peerDependencies = Ok st.
Proof.
  unfold collectUpdates, dependencyTypes. cbn [forEach]. unfold bind.
  destruct (scanBucket p catalogs (Updates.empty, false) dependencies)
    as [st1 |] eqn:H1; [ | discriminate ].
  destruct (scanBucket p catalogs st1 devDependencies) as [st2 |] eqn:H2;
    [ | discriminate ].
  destruct (scanBucket p catalogs st2 peerDependencies) as [st3 |] eqn:H3;
    [ | discriminate ].
  intros [= <-]. now exists st1, st2.
Qed.

(** The pending changes found by the scan: for every bucket and package,
    the change from the last matching catalog, and nothing when the package
    is not declared or no catalog matches. *)
Lemma collectUpdates_spec p catalogs updates hasUpdates :
  wfPackageJson p ->
  collectUpdates p catalogs = Ok (updates, hasUpdates) ->
  wfUpdates updates
  /\ (forall depType k,
        scanned catalogs k (declared depType k p) None
                (JsObject.get k (Updates.get depType updates)))
  /\ (forall depType k cur,
        declared depType k p = Some cur ->
        lastMatch k cur catalogs <> None -> hasUpdates = true).
Proof.
  intros Hwfp Hc.
  destruct (collectUpdates_steps _ _ Hc) as (st1 & st2 & H1 & H2 & H3).
  destruct (scanBucket_spec _ _ _ Hwfp H1) as (F1 & W1 & G1 & S1 & _ & K1).
  destruct (scanBucket_spec _ _ _ Hwfp H2) as (F2 & W2 & G2 & S2 & _ & K2).
  destruct (scanBucket_spec _ _ _ Hwfp H3) as (F3 & W3 & G3 & S3 & _ & K3).
  repeat split.
  - apply W3, W2, W1. intros t. destruct t; constructor.
  - intros depType k. destruct depType.
    + rewrite F3, F2 by discriminate. apply (K1 k).
    + rewrite F3 by discriminate. specialize (K2 k).
      rewrite F1 in K2 by discriminate. exact K2.
    + specialize (K3 k). rewrite F2, F1 in K3 by discriminate. exact K3.
  - intros depType k cur Hd Hm. destruct depType; eauto.
Qed.

(** Without any matching catalog the scan finds nothing. *)
Lemma collectUpdates_none p catalogs :
  wfPackageJson p ->
  (forall depType k cur,
      declared depType k p = Some cur -> lastMatch k cur catalogs = None) ->
  collectUpdates p catalogs = Ok (Updates.empty, false).
Proof.
  intros Hwfp Hall. unfold collectUpdates, dependencyTypes.
  apply forEach_skip. intros depType _. unfold scanBucket.
  destruct (PackageJson.get depType p) as [bucket |] eqn:Hb; [ | reflexivity ].
  apply forEach_skip. intros [k cur] Hin. unfold scanPackage.
  apply forEach_skip. intros entry Hentry.
  assert (Hm : matchOf k cur entry = None).
  { eapply lastMatch_None; [ | exact Hentry ].
    eapply Hall, declared_In; eauto. }
  destruct entry as [category catalog]. unfold scanCatalog.
  unfold matchOf in Hm.
  destruct (JsObject.get k catalog) as [target |]; [ | reflexivity ].
  now destruct (truthy target && negb (String.eqb target cur)).
Qed.

(** [hasUpdates] stays [false] only as long as [updates] is empty. *)
Lemma collectUpdates_flag p catalogs updates :
  collectUpdates p catalogs = Ok (updates, false) -> updates = Updates.empty.
Proof.
  intros Hc.
  unfold collectUpdates in Hc.
  pose proof (@forEach_invariant _ _
                (fun st : ScanState => snd st = false -> fst st = Updates.empty)
                (scanBucket p catalogs) dependencyTypes) as Hinv.
  refine (Hinv _ (Updates.empty, false) (updates, false) (fun _ => eq_refl)
               Hc eq_refl).
  clear Hinv Hc.
  intros s depType s' _ Hs. unfold scanBucket.
  destruct (PackageJson.get depType p) as [bucket |]; [ | now intros [= <-] ].
  intros Hloop.
  refine (@forEach_invariant _ _
            (fun st : ScanState => snd st = false -> fst st = Updates.empty)
            _ _ _ _ _ Hs Hloop).
  clear. intros s [k cur] s' _ Hs. unfold scanPackage. intros Hloop.
  refine (@forEach_invariant _ _
            (fun st : ScanState => snd st = false -> fst st = Updates.empty)
            _ _ _ _ _ Hs Hloop).
  clear. intros s entry s' _ Hs Hstep. apply scanCatalog_step in Hstep.
  destruct (matchOf k cur entry) as [[c tgt] |].
  - destruct Hstep as (r & _ & ->). discriminate.
  - now subst s'.
Qed.

End CollectFacts.

(* ================================================================== *)
(** * The applying phase of [update] *)

Lemma PackageJson_get_set_same depType bucket p :
  PackageJson.get depType (PackageJson.set depType bucket p) = Some bucket.
Proof. now destruct depType. Qed.

Lemma PackageJson_get_set_other depType depType' bucket p :
  depType' <> depType ->
  PackageJson.get depType' (PackageJson.set depType bucket p)
  = PackageJson.get depType' p.
Proof. destruct depType, depType'; simpl; congruence. Qed.

Lemma DependencyType_eqb_eq a b : DependencyType_eqb a b = true <-> a = b.
Proof. destruct a, b; simpl; split; congruence. Qed.

Section ApplyFacts.
Context {L : SemverLib}.
Variable answers : nat -> string.

(** One pending change: what happens to the manifest. *)
Lemma applyUpdate_step depType st k info st' :
  applyUpdate answers depType st (k, info) = Ok st' ->
  (forall t, t <> depType ->
             PackageJson.get t (packageJson st')
             = PackageJson.get t (packageJson st))
  /\ (wfPackageJson (packageJson st) -> wfPackageJson (packageJson st'))
  /\ (forall k', k' <> k ->
                 declared depType k' (packageJson st')
                 = declared depType k' (packageJson st))
  /\ (skipped depType info -> packageJson st' = packageJson st)
  /\ (~ skipped depType info ->
      UpdateInfo.isDowngrade info = false
      \/ isYes (answers (asked st)) = true ->
      declared depType k (packageJson st') = Some (UpdateInfo.new info)).
Proof.
  unfold applyUpdate.
  set (asking := UpdateInfo.isDowngrade info).
  assert (Hset : forall (stq : ApplyState) bucket,
             PackageJson.get depType (packageJson stq) = Some bucket ->
             let p' := PackageJson.set depType
                         (JsObject.set k (UpdateInfo.new info) bucket)
                         (packageJson stq) in
             (forall t, t <> depType ->
                        PackageJson.get t p' = PackageJson.get t (packageJson stq))
             /\ (wfPackageJson (packageJson stq) -> wfPackageJson p')
             /\ (forall k', k' <> k ->
                            declared depType k' p'
                            = declared depType k' (packageJson stq))
             /\ declared depType k p' = Some (UpdateInfo.new info)).
  { intros stq bucket Hb p'. subst p'. repeat split.
    - intros t Ht. now apply PackageJson_get_set_other.
    - intros Hwf t b. destruct (DependencyType_eqb t depType) eqn:E.
      + apply DependencyType_eqb_eq in E. subst t.
        rewrite PackageJson_get_set_same. intros [= <-].
        apply wf_set. eapply Hwf; eauto.
      + rewrite PackageJson_get_set_other; [ apply Hwf | ].
        intros ->. now rewrite (proj2 (DependencyType_eqb_eq _ _) eq_refl) in E.
    - intros k' Hk. unfold declared.
      rewrite PackageJson_get_set_same, Hb. now apply get_set_other.
    - unfold declared. rewrite PackageJson_get_set_same. apply get_set_same. }
  destruct (DependencyType_eqb depType peerDependencies) eqn:Epeer;
    destruct (UpdateInfo.isRangeSatisfied info) as [[|] |] eqn:Esat;
    destruct asking eqn:Easking; cbn beta iota zeta;
    try (destruct (isYes (answers (asked st))) eqn:Eyes; cbn beta iota zeta);
    try (apply DependencyType_eqb_eq in Epeer);
    try (intros [= <-]; cbn [packageJson];
         repeat split; auto;
         try (intros Hns; exfalso; apply Hns; split; assumption);
         try (intros _ [H | H]; discriminate);
         fail);
    cbn [packageJson];
    (destruct (PackageJson.get depType (packageJson st)) as [bucket |] eqn:Hb;
     [ | discriminate ]);
    intros [= <-]; cbn [packageJson];
    destruct (Hset st bucket Hb) as (F & W & K & D);
    repeat split; auto;
    intros [Hp Hs]; try congruence; subst depType; discriminate.
Qed.

(** The changes of one bucket, applied in order. *)
Lemma applyEntries_spec depType entries :
  JsObject.wf entries ->
  forall st st',
    forEach (applyUpdate answers depType) entries st = Ok st' ->
    (forall t, t <> depType ->
               PackageJson.get t (packageJson st')
               = PackageJson.get t (packageJson st))
    /\ (wfPackageJson (packageJson st) -> wfPackageJson (packageJson st'))
    /\ (forall k, JsObject.get k entries = None ->
                  declared depType k (packageJson st')
                  = declared depType k (packageJson st))
    /\ (forall k info,
          JsObject.get k entries = Some info ->
          (skipped depType info ->
           declared depType k (packageJson st')
           = declared depType k (packageJson st))
          /\ (~ skipped depType info ->
              UpdateInfo.isDowngrade info = false
              \/ (forall n, isYes (answers n) = true) ->
              declared depType k (packageJson st')
              = Some (UpdateInfo.new info))).
Proof.
  unfold JsObject.wf.
  induction entries as [| [k0 info0] rest IH]; intros Hwf st st';
    cbn [forEach JsObject.get].
  - intros [= <-]. split; [ reflexivity | ]. split; [ auto | ].
    split; [ intros; reflexivity | ]. intros k info H. discriminate H.
  - inversion Hwf as [| ? ? Hnotin Hwf']; subst.
    destruct (applyUpdate answers depType st (k0, info0)) as [st1 |] eqn:Hstep;
      cbn [bind]; [ | discriminate ].
    intros Hrest.
    destruct (applyUpdate_step _ _ _ _ Hstep) as (F1 & W1 & K1 & S1 & A1).
    destruct (IH Hwf' _ _ Hrest) as (F & W & K & E).
    assert (Hk0 : JsObject.get k0 rest = None) by now apply get_None_iff.
    repeat split.
    + intros t Ht. rewrite F by assumption. now apply F1.
    + auto.
    + intros k. destruct (String.eqb_spec k k0) as [-> | Hne]; [ discriminate | ].
      intros Hk. rewrite K by assumption. now apply K1.
    + destruct (String.eqb_spec k k0) as [-> | Hne].
      * injection H as <-. intros Hs. rewrite (K _ Hk0). now rewrite S1.
      * intros Hs. rewrite (proj1 (E _ _ H) Hs). now apply K1.
    + destruct (String.eqb_spec k k0) as [-> | Hne].
      * injection H as <-. intros Hns Hyes. rewrite (K _ Hk0).
        apply A1; [ assumption | ]. destruct Hyes as [Hd | Hy]; auto.
      * intros Hns Hyes. now apply (proj2 (E _ _ H)).
Qed.

Lemma applyUpdates_steps updates st st' :
  applyUpdates answers updates st = Ok st' ->
  exists st1 st2,
    forEach (applyUpdate answers dependencies) (Updates.deps updates) st = Ok st1
    /\ forEach (applyUpdate answers devDependencies) (Updates.devDeps updates) st1
       = Ok st2
    /\ forEach (applyUpdate answers peerDependencies) (Updates.peerDeps updates) st2
       = Ok st'.
Proof.
  unfold applyUpdates, Updates.entries. cbn [forEach applyBucket]. unfold bind.
  destruct (forEach (applyUpdate answers dependencies) _ st)
    as [st1 |] eqn:H1; [ | discriminate ].
  destruct (forEach (applyUpdate answers devDependencies) _ st1)
    as [st2 |] eqn:H2; [ | discriminate ].
  destruct (forEach (applyUpdate answers peerDependencies) _ st2)
    as [st3 |] eqn:H3; [ | discriminate ].
  intros [= <-]. now exists st1, st2.
Qed.

(** All pending changes, applied bucket after bucket: a package without a
    pending change keeps its declaration, a skipped change keeps it too, and
    a change that is neither skipped nor declined installs its version. *)
Lemma applyUpdates_spec updates st st' :
  wfUpdates updates ->
  applyUpdates answers updates st = Ok st' ->
  (wfPackageJson (packageJson st) -> wfPackageJson (packageJson st'))
  /\ (forall depType k,
        JsObject.get k (Updates.get depType updates) = None ->
        declared depType k (packageJson st')
        = declared depType k (packageJson st))
  /\ (forall depType k info,
        JsObject.get k (Updates.get depType updates) = Some info ->
        (skipped depType info ->
         declared depType k (packageJson st')
         = declared depType k (packageJson st))
        /\ (~ skipped depType info ->
            UpdateInfo.isDowngrade info = false
            \/ (forall n, isYes (answers n) = true) ->
            declared depType k (packageJson st')
            = Some (UpdateInfo.new info))).
Proof.
  intros Hwf Happly.
  destruct (applyUpdates_steps _ _ Happly) as (st1 & st2 & H1 & H2 & H3).
  destruct (@applyEntries_spec dependencies _ (Hwf dependencies) _ _ H1) as (F1 & W1 & K1 & E1).
  destruct (@applyEntries_spec devDependencies _ (Hwf devDependencies) _ _ H2) as (F2 & W2 & K2 & E2).
  destruct (@applyEntries_spec peerDependencies _ (Hwf peerDependencies) _ _ H3) as (F3 & W3 & K3 & E3).
  assert (D : forall t k s s',
             PackageJson.get t (packageJson s') = PackageJson.get t (packageJson s) ->
             declared t k (packageJson s') = declared t k (packageJson s)).
  { intros t k s s' H. unfold declared. now rewrite H. }
  repeat split.
  - auto.
  - intros depType k Hk. destruct depType; cbn [Updates.get] in Hk.
    + rewrite (D _ k st2 st'), (D _ k st1 st2) by (apply F3 || apply F2; discriminate).
      now apply K1.
    + rewrite (D _ k st2 st') by (apply F3; discriminate).
      rewrite (K2 _ Hk). apply D, F1. discriminate.
    + rewrite (K3 _ Hk).
      rewrite (D _ k st1 st2), (D _ k st st1) by (apply F2 || apply F1; discriminate).
      reflexivity.
  - intros Hs. destruct depType; cbn [Updates.get] in H.
    + rewrite (D _ k st2 st'), (D _ k st1 st2) by (apply F3 || apply F2; discriminate).
      now apply (proj1 (E1 _ _ H)).
    + rewrite (D _ k st2 st') by (apply F3; discriminate).
      rewrite (proj1 (E2 _ _ H) Hs). apply D, F1. discriminate.
    + rewrite (proj1 (E3 _ _ H) Hs).
      rewrite (D _ k st1 st2), (D _ k st st1) by (apply F2 || apply F1; discriminate).
      reflexivity.
  - intros Hns Hyes. destruct depType; cbn [Updates.get] in H.
    + rewrite (D _ k st2 st'), (D _ k st1 st2) by (apply F3 || apply F2; discriminate).
      now apply (proj2 (E1 _ _ H)).
    + rewrite (D _ k st2 st') by (apply F3; discriminate).
      now apply (proj2 (E2 _ _ H)).
    + now apply (proj2 (E3 _ _ H)).
Qed.

End ApplyFacts.

Section ApplyTotal.
Context {L : SemverLib}.
Variable answers : nat -> string.

Lemma applyUpdate_total depType st entry :
  PackageJson.get depType (packageJson st) <> None ->
  exists st',
    applyUpdate answers depType st entry = Ok st'
    /\ (forall t, PackageJson.get t (packageJson st) <> None ->
                  PackageJson.get t (packageJson st') <> None).
Proof.
  intros Hb. destruct entry as [k info]. unfold applyUpdate.
  destruct (PackageJson.get depType (packageJson st)) as [bucket |] eqn:Hget;
    [ clear Hb | now contradiction Hb ].
  assert (Hkeep : forall t,
             PackageJson.get t (packageJson st) <> None ->
             PackageJson.get t
               (PackageJson.set depType
                  (JsObject.set k (UpdateInfo.new info) bucket) (packageJson st))
             <> None).
  { intros t Ht. destruct (DependencyType_eqb t depType) eqn:E.
    - apply DependencyType_eqb_eq in E. subst t.
      rewrite PackageJson_get_set_same. discriminate.
    - rewrite PackageJson_get_set_other; [ assumption | ].
      intros ->. now rewrite (proj2 (DependencyType_eqb_eq _ _) eq_refl) in E. }
  destruct (UpdateInfo.isDowngrade info);
    destruct (DependencyType_eqb depType peerDependencies);
    destruct (UpdateInfo.isRangeSatisfied info) as [[|] |];
    cbn beta iota zeta;
    try (destruct (isYes (answers (asked st))); cbn beta iota zeta);
    cbn [packageJson]; rewrite ?Hget;
    eexists; (split; [ reflexivity | cbn [packageJson]; auto ]).
Qed.

Lemma applyEntries_total depType entries st :
  (entries <> [] -> PackageJson.get depType (packageJson st) <> None) ->
  exists st',
    forEach (applyUpdate answers depType) entries st = Ok st'
    /\ (forall t, PackageJson.get t (packageJson st) <> None ->
                  PackageJson.get t (packageJson st') <> None).
Proof.
  revert st. induction entries as [| entry rest IH]; intros st Hb.
  - exists st. split; [ reflexivity | auto ].
  - cbn [forEach].
    destruct (@applyUpdate_total depType st entry) as (st1 & -> & Hkeep1);
      [ apply Hb; discriminate | ].
    cbn [bind]. destruct (IH st1) as (st' & -> & Hkeep); [ | eauto ].
    intros _. apply Hkeep1, Hb. discriminate.
Qed.

(** The applying phase cannot fail when every bucket with a pending change
    is present in the manifest. *)
Lemma applyUpdates_total updates st :
  (forall depType, Updates.get depType updates <> [] ->
                   PackageJson.get depType (packageJson st) <> None) ->
  exists st', applyUpdates answers updates st = Ok st'.
Proof.
  intros Hb. unfold applyUpdates, Updates.entries. cbn [forEach applyBucket].
  destruct (@applyEntries_total dependencies (Updates.deps updates) st)
    as (st1 & -> & K1); [ apply (Hb dependencies) | ].
  cbn [bind].
  destruct (@applyEntries_total devDependencies (Updates.devDeps updates) st1)
    as (st2 & -> & K2); [ intros H; apply K1, (Hb devDependencies H) | ].
  cbn [bind].
  destruct (@applyEntries_total peerDependencies (Updates.peerDeps updates) st2)
    as (st3 & -> & K3); [ intros H; apply K2, K1, (Hb peerDependencies H) | ].
  cbn [bind]. eauto.
Qed.

(** A bucket of pending changes found by the scan is empty when the
    manifest has no such bucket. *)
Lemma collectUpdates_buckets p catalogs updates hasUpdates :
  wfPackageJson p ->
  collectUpdates p catalogs = Ok (updates, hasUpdates) ->
  forall depType, Updates.get depType updates <> [] ->
                  PackageJson.get depType p <> None.
Proof.
  intros Hwf Hc depType Hne Hnone.
  destruct (collectUpdates_spec _ Hwf Hc) as (_ & Hscan & _).
  destruct (Updates.get depType updates) as [| [k info] rest] eqn:Hu;
    [ now apply Hne | ].
  specialize (Hscan depType k). rewrite Hu in Hscan.
  unfold declared in Hscan. rewrite Hnone in Hscan.
  cbn in Hscan. rewrite String.eqb_refl in Hscan. discriminate.
Qed.

(** [update] returns as soon as the scan does. *)
Lemma update_total dryRun p catalogs scanned :
  wfPackageJson p ->
  collectUpdates p catalogs = Ok scanned ->
  exists outcome, update dryRun p catalogs answers = Ok outcome.
Proof.
  intros Hwf Hc. unfold update. rewrite Hc. cbn [bind].
  destruct scanned as [updates hasUpdates].
  destruct hasUpdates; cbn [negb]; [ | eauto ].
  destruct dryRun; [ eauto | ].
  destruct (@applyUpdates_total updates
              {| packageJson := p;
                 events := Log UpdatesAvailable :: display updates;
                 asked := 0 |}) as (st' & ->).
  - apply (collectUpdates_buckets _ Hwf Hc).
  - cbn [bind]. eauto.
Qed.

End ApplyTotal.

(* ================================================================== *)
(** * The report *)

Lemma display_isLog updates : forallb isLog (display updates) = true.
Proof.
  unfold display. apply forallb_forall. intros e He.
  apply in_flat_map in He as (depType & _ & He).
  destruct (Updates.get depType updates) as [| entry rest]; [ contradiction | ].
  destruct He as [<- | He]; [ reflexivity | ].
  apply in_app_or in He as [He | [<- | []]]; [ | reflexivity ].
  apply in_map_iff in He as ([k info] & <- & _). reflexivity.
Qed.

Lemma filter_none {A : Type} (f g : A -> bool) (l : list A) :
  forallb g l = true -> (forall x, g x = true -> f x = false) -> filter f l = [].
Proof.
  intros Hall Hfg. induction l as [| x l IH]; simpl in *; [ reflexivity | ].
  apply andb_true_iff in Hall as [Hx Hl].
  rewrite (Hfg x Hx). now apply IH.
Qed.

(** Every pending change has its line in the report. *)
Lemma display_complete updates depType entry :
  In entry (Updates.get depType updates) ->
  In (updateLine depType entry) (display updates).
Proof.
  intros Hin. unfold display. apply in_flat_map. exists depType. split.
  - destruct depType; simpl; auto.
  - destruct (Updates.get depType updates) as [| e rest]; [ contradiction | ].
    right. apply in_or_app. left. now apply in_map.
Qed.

(** The change lines of the report are the pending changes, bucket after
    bucket, one line each. *)
Lemma display_update_lines updates :
  filter isUpdateLine (display updates) = changeLines updates.
Proof.
  unfold changeLines.
  assert (Hlines : forall depType (entries : JsObject.t UpdateInfo.t),
             filter isUpdateLine (map (updateLine depType) entries)
             = map (updateLine depType) entries).
  { intros depType entries. induction entries as [| [k info] rest IH];
      simpl; [ reflexivity | now rewrite IH ]. }
  unfold display, dependencyTypes. cbn [flat_map].
  rewrite !filter_app, !app_nil_r.
  repeat match goal with
         | |- context [Updates.get ?t updates] =>
             destruct (Updates.get t updates) eqn:?; 
             cbn [filter isUpdateLine map app]
         end;
    repeat match goal with
           | e : (string * UpdateInfo.t)%type |- _ => destruct e
           end;
    cbn [filter isUpdateLine updateLine app];
    rewrite ?filter_app, ?Hlines; cbn [filter isUpdateLine app];
    rewrite ?app_nil_r; reflexivity.
Qed.

(* ================================================================== *)
(** * Properties of [update] *)

Lemma truthy_iff (s : string) : truthy s = true <-> s <> "".
Proof. destruct s; simpl; split; congruence. Qed.

Section UpdateFacts.
Context {L : SemverLib}.

(** A pending change found by the scan belongs to a declared package and
    comes from the last catalog that matches its declaration. *)
Lemma collectUpdates_pending p catalogs updates hasUpdates depType pkg info :
  wfPackageJson p ->
  collectUpdates p catalogs = Ok (updates, hasUpdates) ->
  JsObject.get pkg (Updates.get depType updates) = Some info ->
  exists cur category target,
    declared depType pkg p = Some cur
    /\ lastMatch pkg cur catalogs = Some (category, target)
    /\ pendingFrom cur category target info.
Proof.
  intros Hwf Hc Hget.
  destruct (collectUpdates_spec _ Hwf Hc) as (_ & Hscan & _).
  specialize (Hscan depType pkg). unfold scanned in Hscan.
  rewrite Hget in Hscan.
  destruct (declared depType pkg p) as [cur |]; [ | discriminate ].
  destruct (lastMatch pkg cur catalogs) as [[c tgt] |] eqn:Hl; [ | discriminate ].
  destruct Hscan as (info' & [= <-] & Hp). now exists cur, c, tgt.
Qed.

(** What a run that is not a dry run returns, in terms of its two phases. *)
Lemma update_phases p catalogs answers updates hasUpdates outcome :
  collectUpdates p catalogs = Ok (updates, hasUpdates) ->
  update false p catalogs answers = Ok outcome ->
  (hasUpdates = false /\ outcome = {| manifest := p; trace := [Log UpToDate] |})
  \/ (hasUpdates = true
      /\ exists st',
          applyUpdates answers updates
            {| packageJson := p;
               events := Log UpdatesAvailable :: display updates;
               asked := 0 |} = Ok st'
          /\ outcome = {| manifest := packageJson st';
                          trace := events st'
                                   ++ [SavePackageJson (packageJson st');
                                       Log Updated] |}).
Proof.
  intros Hc. unfold update. rewrite Hc. cbn [bind].
  destruct hasUpdates; cbn [negb].
  - destruct (applyUpdates answers updates _) as [st' |] eqn:Ha;
      cbn [bind]; [ | discriminate ].
    intros [= <-]. right. split; [ reflexivity | ]. now exists st'.
  - intros [= <-]. now left.
Qed.

(** ** C3 *)

(** C3.  In a run that is not a dry run, a pending change of the peer bucket
    whose range is already satisfied leaves the declaration of its package
    as it was, whatever the user answers; and the applying phase does so
    for any pending change with [isRangeSatisfied = true], also one that
    carries [isDowngrade = true]. *)
Theorem update_skips_satisfied_peer p catalogs answers updates hasUpdates :
  wfPackageJson p ->
  collectUpdates p catalogs = Ok (updates, hasUpdates) ->
  (exists outcome,
      update false p catalogs answers = Ok outcome
      /\ forall pkg info,
          JsObject.get pkg (Updates.get peerDependencies updates) = Some info ->
          UpdateInfo.isRangeSatisfied info = Some true ->
          declared peerDependencies pkg (manifest outcome)
          = Some (UpdateInfo.current info)
          /\ declared peerDependencies pkg p = Some (UpdateInfo.current info))
  /\ (forall pending st st' pkg info,
         wfUpdates pending ->
         applyUpdates answers pending st = Ok st' ->
         JsObject.get pkg (Updates.get peerDependencies pending) = Some info ->
         UpdateInfo.isRangeSatisfied info = Some true ->
         declared peerDependencies pkg (packageJson st')
         = declared peerDependencies pkg (packageJson st)).
Proof.
  intros Hwf Hc. split.
  - edestruct (update_total answers false) as (outcome & Hout);
      [ exact Hwf | exact Hc | ].
    exists outcome. split; [ assumption | ].
    intros pkg info Hget Hsat.
    edestruct collectUpdates_pending as (cur & c & tgt & Hd & _ & (r & _ & ->));
      [ exact Hwf | exact Hc | exact Hget | ].
    cbn [UpdateInfo.current mkUpdateInfo]. split; [ | assumption ].
    edestruct update_phases as [[_ ->] | (_ & st' & Ha & ->)];
      [ exact Hc | exact Hout | | ]; cbn [manifest]; [ assumption | ].
    edestruct collectUpdates_spec as (Hwfu & _); [ exact Hwf | exact Hc | ].
    edestruct applyUpdates_spec as (_ & _ & Hsome); [ exact Hwfu | exact Ha | ].
    rewrite (proj1 (Hsome _ _ _ Hget)); [ assumption | ].
    split; [ reflexivity | assumption ].
  - intros pending st st' pkg info Hwfu Ha Hget Hsat.
    edestruct applyUpdates_spec as (_ & _ & Hsome); [ exact Hwfu | exact Ha | ].
    apply (proj1 (Hsome _ _ _ Hget)). split; [ reflexivity | assumption ].
Qed.

(** ** C4 *)

(** The line of the report for one pending change, as [updateLine] builds
    it: every field of the change, the downgrade mark, and the range verdict
    in the peer bucket only. *)
Lemma updateLine_fields depType (entry : string * UpdateInfo.t) :
  updateLine depType entry
  = Log (UpdateLine (fst entry) (UpdateInfo.current (snd entry))
           (UpdateInfo.new (snd entry)) (UpdateInfo.category (snd entry))
           (UpdateInfo.isDowngrade (snd entry))
           (match depType with
            | peerDependencies => UpdateInfo.isRangeSatisfied (snd entry)
            | _ => None
            end)).
Proof. destruct entry as [pkg info]. now destruct depType. Qed.

(** C4.  A dry run returns the manifest it was given, asks no question and
    saves nothing, however many pending changes there are, downgrades
    included.  The full change set is reported: every pending change found
    by the scan has its line, which names the package, its declaration, the
    new version and the category and carries the downgrade mark and, in the
    peer bucket, the range verdict; the change lines of the report are these
    lines, one for each pending change, bucket after bucket; so every
    declared package for which some catalog gives another version has the
    line of the last such catalog, with the marks the comparator decides.
    The report stands between the heading and the closing notice.  The only
    way for a dry run to fail is the failure of the scan, before anything is
    printed. *)
Theorem update_dryRun p catalogs answers :
  let line (depType : DependencyType) (pkg : string) (info : UpdateInfo.t) :=
    Log (UpdateLine pkg (UpdateInfo.current info) (UpdateInfo.new info)
           (UpdateInfo.category info) (UpdateInfo.isDowngrade info)
           (match depType with
            | peerDependencies => UpdateInfo.isRangeSatisfied info
            | _ => None
            end)) in
  match update true p catalogs answers with
  | Ok outcome =>
      manifest outcome = p
      /\ filter isPrompt (trace outcome) = []
      /\ filter isSave (trace outcome) = []
      /\ exists updates hasUpdates,
          collectUpdates p catalogs = Ok (updates, hasUpdates)
          /\ (forall depType pkg info,
                In (pkg, info) (Updates.get depType updates) ->
                In (line depType pkg info) (trace outcome))
          /\ filter isUpdateLine (trace outcome)
             = flat_map
                 (fun depType =>
                    map (fun entry => line depType (fst entry) (snd entry))
                        (Updates.get depType updates))
                 [dependencies; devDependencies; peerDependencies]
          /\ (wfPackageJson p ->
              forall depType pkg cur category target,
                declared depType pkg p = Some cur ->
                lastMatch pkg cur catalogs = Some (category, target) ->
                exists comparison,
                  compareVersions cur target = Ok comparison
                  /\ In (Log (UpdateLine pkg cur target category
                                (isDowngrade comparison)
                                (match depType with
                                 | peerDependencies => isRangeSatisfied comparison
                                 | _ => None
                                 end)))
                        (trace outcome))
          /\ (if hasUpdates
              then exists report,
                     trace outcome
                     = (Log UpdatesAvailable :: report ++ [Log DryRunNotice])%list
              else trace outcome = [Log UpToDate])
  | Throw e => collectUpdates p catalogs = Throw e
  end.
Proof.
  cbv zeta. unfold update.
  destruct (collectUpdates p catalogs) as [[updates hasUpdates] | e] eqn:Hc;
    cbn [bind]; [ | reflexivity ].
  destruct hasUpdates; cbn [negb manifest trace].
  - assert (Hlog : forallb isLog
                     (Log UpdatesAvailable :: display updates ++ [Log DryRunNotice])
                   = true).
    { cbn [forallb isLog andb]. rewrite forallb_app, display_isLog. reflexivity. }
    split; [ reflexivity | ].
    split; [ eapply filter_none; [ exact Hlog | now intros [] ] | ].
    split; [ eapply filter_none; [ exact Hlog | now intros [] ] | ].
    exists updates, true. split; [ reflexivity | ].
    assert (Hin : forall depType pkg info,
               In (pkg, info) (Updates.get depType updates) ->
               In (Log (UpdateLine pkg (UpdateInfo.current info)
                          (UpdateInfo.new info) (UpdateInfo.category info)
                          (UpdateInfo.isDowngrade info)
                          (match depType with
                           | peerDependencies => UpdateInfo.isRangeSatisfied info
                           | _ => None
                           end)))
                  (Log UpdatesAvailable :: display updates ++ [Log DryRunNotice])).
    { intros depType pkg info H. right. apply in_or_app. left.
      apply display_complete in H. now rewrite updateLine_fields in H. }
    split; [ exact Hin | ]. split; [ | split ].
    + cbn [app filter isUpdateLine]. rewrite filter_app, display_update_lines.
      cbn [filter isUpdateLine]. rewrite app_nil_r.
      unfold changeLines, dependencyTypes. cbn [flat_map].
      rewrite (map_ext _ _ (updateLine_fields dependencies)),
        (map_ext _ _ (updateLine_fields devDependencies)),
        (map_ext _ _ (updateLine_fields peerDependencies)).
      reflexivity.
    + intros Hwf depType pkg cur category target Hd Hl.
      destruct (collectUpdates_spec _ Hwf Hc) as (_ & Hscan & _).
      specialize (Hscan depType pkg). unfold scanned in Hscan.
      rewrite Hd, Hl in Hscan. destruct Hscan as (info & Hget & (r & Hr & ->)).
      exists r. split; [ exact Hr | ].
      apply get_Some_In in Hget. exact (Hin _ _ _ Hget).
    + exists (display updates). reflexivity.
  - split; [ reflexivity | ]. split; [ reflexivity | ]. split; [ reflexivity | ].
    exists updates, false. split; [ reflexivity | ].
    pose proof (collectUpdates_flag _ _ Hc) as Hempty.
    split; [ | split; [ | split ] ].
    + subst updates. intros depType pkg info. now destruct depType.
    + subst updates. reflexivity.
    + intros Hwf depType pkg cur category target Hd Hl. exfalso.
      destruct (collectUpdates_spec _ Hwf Hc) as (_ & _ & Hflag).
      assert (Hf : false = true); [ | discriminate Hf ].
      eapply Hflag; [ exact Hd | ]. rewrite Hl. discriminate.
    + reflexivity.
Qed.

End UpdateFacts.

Lemma changesFor_one {V : Type} (k : string) (v : V) (o : JsObject.t V) :
  JsObject.wf o -> JsObject.get k o = Some v ->
  filter (fun entry => String.eqb (fst entry) k) o = [(k, v)].
Proof.
  unfold JsObject.wf.
  induction o as [| [k' v'] o IH]; cbn [JsObject.get filter fst JsObject.keys map];
    intros Hwf Hget; [ discriminate | ].
  inversion Hwf as [| ? ? Hnotin Hwf']; subst.
  rewrite (String.eqb_sym k' k).
  destruct (String.eqb_spec k k') as [<- | Hne].
  - injection Hget as ->. f_equal.
    clear IH Hwf Hwf'. induction o as [| [k2 v2] o IH]; [ reflexivity | ].
    cbn [filter fst]. destruct (String.eqb_spec k2 k) as [-> | _].
    + exfalso. apply Hnotin. now left.
    + apply IH. intros H. apply Hnotin. now right.
  - now apply IH.
Qed.

Section ApplyEvents.
Context {L : SemverLib}.
Variable answers : nat -> string.

(** The applying phase prints no change line. *)
Lemma applyUpdates_no_lines updates st st' :
  applyUpdates answers updates st = Ok st' ->
  filter isUpdateLine (events st') = filter isUpdateLine (events st).
Proof.
  pose (I := fun s : ApplyState =>
               filter isUpdateLine (events s) = filter isUpdateLine (events st)).
  intros Ha. change (I st').
  refine (@forEach_invariant _ _ I _ _ _ st st' eq_refl Ha).
  clear st' Ha. intros s [depType entries] s' _ Hs Hloop. cbn [applyBucket] in Hloop.
  refine (@forEach_invariant _ _ I _ _ _ s s' Hs Hloop).
  clear. intros s [k info] s' _ Hs. unfold applyUpdate, I in *.
  destruct (UpdateInfo.isDowngrade info);
    destruct (DependencyType_eqb depType peerDependencies);
    destruct (UpdateInfo.isRangeSatisfied info) as [[|] |];
    cbn beta iota zeta;
    try (destruct (isYes (answers (asked s))); cbn beta iota zeta);
    cbn [packageJson events];
    try (destruct (PackageJson.get depType (packageJson s)); [ | discriminate ]);
    intros [= <-]; cbn [events];
    rewrite ?filter_app; cbn [filter isUpdateLine]; rewrite ?app_nil_r;
    exact Hs.
Qed.

End ApplyEvents.

Section MoreUpdateFacts.
Context {L : SemverLib}.

(** The change lines of any run that finds something are the pending
    changes, one line each. *)
Lemma update_change_lines dryRun p catalogs answers updates outcome :
  collectUpdates p catalogs = Ok (updates, true) ->
  update dryRun p catalogs answers = Ok outcome ->
  filter isUpdateLine (trace outcome) = changeLines updates.
Proof.
  intros Hc. unfold update. rewrite Hc. cbn [bind negb].
  destruct dryRun.
  - intros [= <-]. cbn [trace filter isUpdateLine].
    rewrite filter_app, display_update_lines. cbn. apply app_nil_r.
  - destruct (applyUpdates answers updates _) as [st' |] eqn:Ha;
      cbn [bind]; [ | discriminate ].
    intros [= <-]. cbn [trace]. rewrite filter_app.
    rewrite (applyUpdates_no_lines _ _ _ Ha). cbn [events filter isUpdateLine].
    rewrite display_update_lines. apply app_nil_r.
Qed.

(** ** C5 *)

(** C5, as amended.  When at least one catalog, and so also when several
    catalogs, declare a package with a version that differs from its
    declaration, the scan keeps one pending change for that package and
    bucket: the one from the last matching category in iteration order.
    The report has one change line for each pending change, and a run that
    applies the change writes the version of that last category. *)
Theorem update_last_category_wins
    p catalogs updates hasUpdates depType pkg cur category target :
  wfPackageJson p ->
  collectUpdates p catalogs = Ok (updates, hasUpdates) ->
  declared depType pkg p = Some cur ->
  lastMatch pkg cur catalogs = Some (category, target) ->
  hasUpdates = true
  /\ (exists info,
         pendingFrom cur category target info
         /\ changesFor pkg (Updates.get depType updates) = [(pkg, info)]
         /\ forall answers,
             exists outcome,
               update false p catalogs answers = Ok outcome
               /\ (~ skipped depType info ->
                   UpdateInfo.isDowngrade info = false
                   \/ (forall n, isYes (answers n) = true) ->
                   declared depType pkg (manifest outcome) = Some target))
  /\ (forall dryRun answers outcome,
         update dryRun p catalogs answers = Ok outcome ->
         filter isUpdateLine (trace outcome) = changeLines updates).
Proof.
  intros Hwf Hc Hd Hl.
  edestruct collectUpdates_spec as (Hwfu & Hscan & Hflag);
    [ exact Hwf | exact Hc | ].
  assert (Hh : hasUpdates = true).
  { eapply Hflag; [ exact Hd | ]. rewrite Hl. discriminate. }
  subst hasUpdates. split; [ reflexivity | ]. split.
  - specialize (Hscan depType pkg). unfold scanned in Hscan.
    rewrite Hd, Hl in Hscan. destruct Hscan as (info & Hget & Hp).
    exists info. split; [ assumption | ]. split.
    + apply changesFor_one; [ apply Hwfu | assumption ].
    + intros answers.
      edestruct (update_total answers false) as (outcome & Hout);
        [ exact Hwf | exact Hc | ].
      exists outcome. split; [ assumption | ].
      intros Hns Hyes.
      edestruct update_phases as [[Hf _] | (_ & st' & Ha & ->)];
        [ exact Hc | exact Hout | discriminate | ].
      cbn [manifest].
      edestruct applyUpdates_spec as (_ & _ & Hsome); [ exact Hwfu | exact Ha | ].
      rewrite (proj2 (Hsome _ _ _ Hget) Hns Hyes).
      destruct Hp as (r & _ & ->). reflexivity.
  - intros dryRun answers outcome Hout.
    eapply update_change_lines; eauto.
Qed.

End MoreUpdateFacts.

Section Idempotence.
Context {L : SemverLib}.

(** When the catalogs agree, no catalog matches a package once it is
    declared with the version of one of them. *)
Lemma consistent_no_match catalogs pkg category catalog target :
  consistent catalogs ->
  In (category, catalog) catalogs ->
  JsObject.get pkg catalog = Some target -> target <> "" ->
  lastMatch pkg target catalogs = None.
Proof.
  intros Hcons Hin Hget Hne. apply lastMatch_None.
  intros [c2 cat2] Hin2. unfold matchOf.
  destruct (JsObject.get pkg cat2) as [v2 |] eqn:Hget2; [ | reflexivity ].
  destruct (truthy v2) eqn:Ht; [ | reflexivity ].
  apply truthy_iff in Ht.
  rewrite (Hcons _ _ _ _ _ _ _ Hin2 Hin Hget2 Hget Ht Hne).
  now rewrite String.eqb_refl.
Qed.

(** ** C6 *)

(** C6, as amended.  When the catalogs agree on every package, every
    confirmation is accepted and no pending change of the peer bucket is
    skipped as already satisfied, a second run after a run that is not a dry
    run finds no pending change and reports that everything is up to date. *)
Theorem update_idempotent_when_applied
    p catalogs answers answers' updates hasUpdates outcome :
  wfPackageJson p ->
  consistent catalogs ->
  collectUpdates p catalogs = Ok (updates, hasUpdates) ->
  update false p catalogs answers = Ok outcome ->
  (forall n, isYes (answers n) = true) ->
  (forall pkg info,
      JsObject.get pkg (Updates.get peerDependencies updates) = Some info ->
      UpdateInfo.isRangeSatisfied info <> Some true) ->
  collectUpdates (manifest outcome) catalogs = Ok (Updates.empty, false)
  /\ update false (manifest outcome) catalogs answers'
     = Ok {| manifest := manifest outcome; trace := [Log UpToDate] |}.
Proof.
  intros Hwf Hcons Hc Hout Hyes Hpeer.
  edestruct collectUpdates_spec as (Hwfu & Hscan & _);
    [ exact Hwf | exact Hc | ].
  assert (Hfix : forall depType k cur,
             JsObject.get k (Updates.get depType updates) = None ->
             declared depType k p = Some cur ->
             lastMatch k cur catalogs = None).
  { intros depType k cur Hnone Hd. specialize (Hscan depType k).
    unfold scanned in Hscan. rewrite Hnone, Hd in Hscan.
    destruct (lastMatch k cur catalogs) as [[c tgt] |]; [ | reflexivity ].
    destruct Hscan as (info & Hinfo & _). discriminate. }
  assert (Hgoal : wfPackageJson (manifest outcome)
                  /\ forall depType k cur,
                      declared depType k (manifest outcome) = Some cur ->
                      lastMatch k cur catalogs = None).
  { edestruct update_phases as [[Hf ->] | (_ & st' & Ha & ->)];
      [ exact Hc | exact Hout | | ]; cbn [manifest].
    - subst hasUpdates. apply collectUpdates_flag in Hc. subst updates.
      split; [ assumption | ].
      intros depType k cur. apply Hfix. now destruct depType.
    - edestruct applyUpdates_spec as (Hwf' & Hnone & Hsome);
        [ exact Hwfu | exact Ha | ].
      split; [ now apply Hwf' | ].
      intros depType k cur'.
      destruct (JsObject.get k (Updates.get depType updates)) as [info |] eqn:Hget.
      + rewrite (proj2 (Hsome _ _ _ Hget)).
        * intros [= <-].
          edestruct collectUpdates_pending
            as (cur & c & tgt & _ & Hl & (r & _ & ->));
            [ exact Hwf | exact Hc | exact Hget | ].
          cbn [UpdateInfo.new mkUpdateInfo].
          apply lastMatch_Some in Hl as (catalog & Hin & Hcat & Hne & _).
          eapply consistent_no_match; eauto.
        * intros [-> Hsat]. exact (Hpeer _ _ Hget Hsat).
        * now right.
      + rewrite (Hnone _ _ Hget). cbn [packageJson]. now apply Hfix. }
  destruct Hgoal as [Hwf2 Hno].
  assert (Hc2 : collectUpdates (manifest outcome) catalogs
                = Ok (Updates.empty, false))
    by now apply collectUpdates_none.
  split; [ assumption | ].
  unfold update. rewrite Hc2. reflexivity.
Qed.

End Idempotence.

Section EmptyVersions.
Context {L : SemverLib}.

Lemma get_dropEmpty pkg catalog :
  JsObject.wf catalog ->
  JsObject.get pkg (dropEmpty catalog)
  = match JsObject.get pkg catalog with
    | Some target => if truthy target then Some target else None
    | None => None
    end.
Proof.
  unfold JsObject.wf, dropEmpty.
  induction catalog as [| [k v] rest IH];
    cbn [JsObject.get filter snd JsObject.keys map]; intros Hwf;
    [ reflexivity | ].
  inversion Hwf as [| ? ? Hnotin Hwf']; subst.
  destruct (truthy v) eqn:Hv; cbn [JsObject.get].
  - destruct (String.eqb pkg k); [ now rewrite Hv | now apply IH ].
  - destruct (String.eqb_spec pkg k) as [-> | Hne]; [ | now apply IH ].
    rewrite (IH Hwf').
    assert (Hnone : JsObject.get k rest = None) by now apply get_None_iff.
    now rewrite Hnone, Hv.
Qed.

(** A catalog and the same catalog without its empty versions are scanned
    alike. *)
Lemma scanCatalog_dropEmpty depType pkg cur st category catalog :
  JsObject.wf catalog ->
  scanCatalog depType pkg cur st (category, dropEmpty catalog)
  = scanCatalog depType pkg cur st (category, catalog).
Proof.
  intros Hwf. unfold scanCatalog. rewrite (get_dropEmpty pkg Hwf).
  destruct (JsObject.get pkg catalog) as [target |]; [ | reflexivity ].
  destruct (truthy target) eqn:Ht; [ now rewrite Ht | reflexivity ].
Qed.

Lemma forEach_map_ext {A B S : Type} (f : A -> B) (body : S -> B -> Result S)
    (body' : S -> A -> Result S) (xs : list A) :
  (forall s x, In x xs -> body s (f x) = body' s x) ->
  forall s, forEach body (map f xs) s = forEach body' xs s.
Proof.
  induction xs as [| x xs IH]; intros Hext s; cbn [map forEach]; [ reflexivity | ].
  rewrite (Hext s x (or_introl eq_refl)).
  destruct (body' s x); cbn [bind]; [ | reflexivity ].
  apply IH. intros s' y Hy. apply Hext. now right.
Qed.

Lemma forEach_ext {A S : Type} (body body' : S -> A -> Result S) (xs : list A) :
  (forall s x, body s x = body' s x) ->
  forall s, forEach body xs s = forEach body' xs s.
Proof.
  intros Hext. induction xs as [| x xs IH]; intros s; cbn [forEach];
    [ reflexivity | ].
  rewrite Hext. destruct (body' s x); cbn [bind]; [ apply IH | reflexivity ].
Qed.

Lemma collectUpdates_dropEmpty p catalogs :
  (forall category catalog, In (category, catalog) catalogs -> JsObject.wf catalog) ->
  collectUpdates p (map (fun entry => (fst entry, dropEmpty (snd entry))) catalogs)
  = collectUpdates p catalogs.
Proof.
  intros Hwf. unfold collectUpdates. apply forEach_ext.
  intros s depType. unfold scanBucket.
  destruct (PackageJson.get depType p) as [bucket |]; [ | reflexivity ].
  revert s. apply forEach_ext. intros s [pkg cur]. unfold scanPackage.
  revert s. apply forEach_map_ext. intros s [category catalog] Hin.
  cbn [fst snd]. apply scanCatalog_dropEmpty. eapply Hwf; eauto.
Qed.

(** ** C10 *)

(** C10.  A catalog entry whose version is the empty string is passed over
    by the scan: the loop body leaves [updates] and [hasUpdates] as they are;
    no pending change ever carries an empty version, and every pending change
    comes from a catalog that declares its version; with distinct category
    names none comes from the category of the empty entry; and the whole run
    is the same as on the catalogs without their empty entries. *)
Theorem update_ignores_empty_version
    p catalogs category catalog pkg updates hasUpdates :
  wfPackageJson p ->
  JsObject.wf catalogs ->
  (forall c cat, In (c, cat) catalogs -> JsObject.wf cat) ->
  In (category, catalog) catalogs ->
  JsObject.get pkg catalog = Some "" ->
  collectUpdates p catalogs = Ok (updates, hasUpdates) ->
  (forall depType cur st,
      scanCatalog depType pkg cur st (category, catalog) = Ok st)
  /\ (forall depType info,
         JsObject.get pkg (Updates.get depType updates) = Some info ->
         UpdateInfo.new info <> ""
         /\ UpdateInfo.category info <> category
         /\ exists cat',
             In (UpdateInfo.category info, cat') catalogs
             /\ JsObject.get pkg cat' = Some (UpdateInfo.new info))
  /\ (forall dryRun answers,
         update dryRun p
           (map (fun entry => (fst entry, dropEmpty (snd entry))) catalogs) answers
         = update dryRun p catalogs answers).
Proof.
  intros Hwf Hwfc Hwfcat Hin Hempty Hc. repeat split.
  - intros depType cur st. unfold scanCatalog. now rewrite Hempty.
  - edestruct collectUpdates_pending
      as (cur & c & tgt & _ & Hl & (r & _ & ->));
      [ exact Hwf | exact Hc | exact H | ].
    apply lastMatch_Some in Hl as (cat' & _ & _ & Hne & _).
    exact Hne.
  - edestruct collectUpdates_pending
      as (cur & c & tgt & _ & Hl & (r & _ & ->));
      [ exact Hwf | exact Hc | exact H | ].
    apply lastMatch_Some in Hl as (cat' & Hin' & Hget' & Hne & _).
    cbn [UpdateInfo.category mkUpdateInfo]. intros ->.
    assert (cat' = catalog) as ->.
    { apply In_get in Hin, Hin'; try assumption. congruence. }
    congruence.
  - edestruct collectUpdates_pending
      as (cur & c & tgt & _ & Hl & (r & _ & ->));
      [ exact Hwf | exact Hc | exact H | ].
    apply lastMatch_Some in Hl as (cat' & Hin' & Hget' & _).
    exists cat'. now split.
  - intros dryRun answers. unfold update.
    now rewrite collectUpdates_dropEmpty.
Qed.

End EmptyVersions.

(* ================================================================== *)
(** * Properties of [updateCategory] *)

Lemma set_fresh {V : Type} (k : string) (v : V) (o : JsObject.t V) :
  ~ In k (JsObject.keys o) -> JsObject.set k v o = (o ++ [(k, v)])%list.
Proof.
  induction o as [| [k' v'] o IH]; cbn [JsObject.set JsObject.keys map fst app];
    intros Hnotin; [ reflexivity | ].
  destruct (String.eqb_spec k k') as [-> | Hne].
  - exfalso. apply Hnotin. now left.
  - f_equal. apply IH. intros H. apply Hnotin. now right.
Qed.

Section RefreshFacts.
Import UpdateChecker.
Variable npmView : string -> Result string.

Lemma refreshed_key entry : fst (refreshed npmView entry) = fst entry.
Proof. unfold refreshed. now destruct (npmView (fst entry)). Qed.

Lemma refreshPackage_spec st entry :
  ~ In (fst entry) (JsObject.keys (updatedDeps st)) ->
  refreshPackage npmView st entry
  = {| updatedDeps := (updatedDeps st ++ [refreshed npmView entry])%list;
       updateCount := updateCount st + (if changed npmView entry then 1 else 0);
       printed := (printed st ++ [lineFor npmView entry])%list |}.
Proof.
  destruct entry as [pkg cur]. cbn [fst]. intros Hfresh.
  unfold refreshPackage, refreshed, changed, lineFor. cbn [fst snd].
  destruct (npmView pkg) as [output | error].
  - rewrite set_fresh by exact Hfresh.
    destruct (String.eqb (trim output) cur); cbn [negb]; f_equal; lia.
  - rewrite set_fresh by exact Hfresh. f_equal. lia.
Qed.

(** The loop over a catalog with distinct package names. *)
Lemma refreshLoop_from deps :
  JsObject.wf deps ->
  forall st,
    (forall k, In k (JsObject.keys deps) -> ~ In k (JsObject.keys (updatedDeps st))) ->
    fold_left (refreshPackage npmView) deps st
    = {| updatedDeps := (updatedDeps st ++ map (refreshed npmView) deps)%list;
         updateCount := updateCount st + length (filter (changed npmView) deps);
         printed := (printed st ++ map (lineFor npmView) deps)%list |}.
Proof.
  unfold JsObject.wf.
  induction deps as [| entry rest IH]; intros Hwf st Hfresh;
    cbn [fold_left map filter JsObject.keys] in *.
  - rewrite !app_nil_r, Nat.add_0_r. now destruct st.
  - inversion Hwf as [| ? ? Hnotin Hwf']; subst.
    rewrite refreshPackage_spec by (apply Hfresh; now left).
    rewrite IH; [ | assumption | ].
    + cbn [updatedDeps updateCount printed]. rewrite <- !app_assoc. cbn [app].
      f_equal. destruct (changed npmView entry); cbn [length]; lia.
    + cbn [updatedDeps]. intros k Hk Hin.
      unfold JsObject.keys in Hin. rewrite map_app in Hin.
      apply in_app_or in Hin as [Hin | [Hin | []]].
      * apply (Hfresh k); [ now right | exact Hin ].
      * rewrite refreshed_key in Hin. subst k. contradiction.
Qed.

Lemma refreshLoop_spec deps category :
  JsObject.wf deps ->
  refreshLoop npmView deps category
  = {| updatedDeps := map (refreshed npmView) deps;
       updateCount := length (filter (changed npmView) deps);
       printed := Log (Updating category) :: map (lineFor npmView) deps |}.
Proof.
  intros Hwf. unfold refreshLoop. rewrite refreshLoop_from; auto.
Qed.

Lemma lineFor_isLog deps : forallb isLog (map (lineFor npmView) deps) = true.
Proof.
  induction deps as [| entry rest IH]; cbn [map forallb]; [ reflexivity | ].
  rewrite IH, andb_true_r. unfold lineFor.
  destruct (npmView (fst entry)); [ | reflexivity ].
  now destruct (negb _).
Qed.

Lemma filter_lineFor_updated deps :
  length (filter isPackageUpdated (map (lineFor npmView) deps))
  = length (filter (changed npmView) deps).
Proof.
  induction deps as [| entry rest IH]; cbn [map filter]; [ reflexivity | ].
  unfold lineFor at 1, changed at 1.
  destruct (npmView (fst entry)) as [output | error]; cbn [isPackageUpdated].
  - destruct (negb (String.eqb (trim output) (snd entry)));
      cbn [isPackageUpdated length]; now rewrite IH.
  - exact IH.
Qed.

End RefreshFacts.

Section UpdateCategoryFacts.
Import UpdateChecker.
Variable pathJoin : string -> string -> string.
Variable readCatalog : string -> option (JsObject.t string).
Variable npmView : string -> Result string.

(** ** C7 *)

(** C7.  For a catalog that is read with distinct package names:
    when the registry gives a different version for at least one package,
    the run prints its lines, copies the catalog to the backup and then
    writes the whole refreshed catalog, once each and in that order; when it
    gives none, nothing is copied or written; a package whose lookup fails
    keeps its entry, has its error printed, and the other packages are still
    processed; there is one "updated" line for each changed package.  On the
    catalog a:1.0.0, b:2.0.0 with the registry answering 1.0.0 and 2.1.0 the
    run is: a unchanged, b updated, one backup, a:1.0.0, b:2.1.0 written. *)
Theorem updateCategory_refresh catalogPath category deps :
  let filePath := pathJoin catalogPath (category ++ ".json") in
  let run := updateCategory pathJoin readCatalog npmView catalogPath category in
  readCatalog filePath = Some deps ->
  JsObject.wf deps ->
  (filter (changed npmView) deps <> [] ->
   run = (Log (Updating category) :: map (lineFor npmView) deps
          ++ [CopyFile filePath (filePath ++ ".backup");
              WriteFile filePath (map (refreshed npmView) deps);
              Log (UpdatedSuccessfully category (filePath ++ ".backup"))])%list)
  /\ (filter (changed npmView) deps = [] ->
      filter isCopyFile run = [] /\ filter isWriteFile run = [])
  /\ (forall pkg cur error,
         In (pkg, cur) deps -> npmView pkg = Throw error ->
         In (pkg, cur) (map (refreshed npmView) deps)
         /\ In (Log (ErrorUpdating pkg (message error))) run)
  /\ JsObject.keys (map (refreshed npmView) deps) = JsObject.keys deps
  /\ length (filter isPackageUpdated run) = length (filter (changed npmView) deps)
  /\ updateCategory pathJoin
       (fun _ => Some [("a", "1.0.0"); ("b", "2.0.0")])
       (fun pkg => if String.eqb pkg "a" then Ok "1.0.0" else Ok "2.1.0")
       catalogPath category
     = [Log (Updating category);
        Log (NoChanges "a" "1.0.0");
        Log (PackageUpdated "b" "2.0.0" "2.1.0");
        CopyFile filePath (filePath ++ ".backup");
        WriteFile filePath [("a", "1.0.0"); ("b", "2.1.0")];
        Log (UpdatedSuccessfully category (filePath ++ ".backup"))].
Proof.
  intros filePath run Hread Hwf.
  assert (Hrun : run = (let st := refreshLoop npmView deps category in
                        if (0 <? updateCount st)%nat
                        then printed st
                             ++ [CopyFile filePath (filePath ++ ".backup");
                                 WriteFile filePath (updatedDeps st);
                                 Log (UpdatedSuccessfully category
                                        (filePath ++ ".backup"))]
                        else printed st ++ [Log (NoUpdatesNeeded category)])%list).
  { subst run. unfold updateCategory. fold filePath. now rewrite Hread. }
  rewrite (refreshLoop_spec npmView category Hwf) in Hrun.
  cbn [updateCount printed updatedDeps] in Hrun. cbv zeta in Hrun.
  assert (Hlines : forall tail,
             forallb isLog tail = true ->
             forallb isLog (Log (Updating category)
                            :: map (lineFor npmView) deps ++ tail)%list = true).
  { intros tail Ht. cbn [forallb isLog andb].
    now rewrite forallb_app, lineFor_isLog, Ht. }
  repeat split.
  - intros Hne. rewrite Hrun.
    destruct (filter (changed npmView) deps); [ contradiction | reflexivity ].
  - rewrite Hrun, H. cbn [length Nat.ltb Nat.leb].
    eapply filter_none; [ apply (Hlines [Log (NoUpdatesNeeded category)]);
                          reflexivity | now intros [] ].
  - rewrite Hrun, H. cbn [length Nat.ltb Nat.leb].
    eapply filter_none; [ apply (Hlines [Log (NoUpdatesNeeded category)]);
                          reflexivity | now intros [] ].
  - apply in_map_iff. exists (pkg, cur). split; [ | assumption ].
    unfold refreshed. cbn [fst]. now rewrite H0.
  - assert (Hin : In (Log (ErrorUpdating pkg (message error)))
                     (map (lineFor npmView) deps)).
    { apply in_map_iff. exists (pkg, cur). split; [ | assumption ].
      unfold lineFor. cbn [fst]. now rewrite H0. }
    rewrite Hrun.
    match goal with |- context [if ?c then _ else _] => destruct c end;
      right; apply in_or_app; now left.
  - unfold JsObject.keys. rewrite map_map. apply map_ext.
    intros entry. apply refreshed_key.
  - rewrite Hrun. rewrite <- (filter_lineFor_updated npmView deps).
    match goal with |- context [if ?c then _ else _] => destruct c end;
      cbn [app filter isPackageUpdated];
      rewrite filter_app; cbn [filter isPackageUpdated];
      now rewrite app_nil_r.
Qed.

End UpdateCategoryFacts.

(* ================================================================== *)
(** * Properties of [validateCatalog] *)

Section ValidatorFacts.
Import Validator.
Variable pathJoin : string -> string -> string.

(** The loop over the entries accepts exactly the lists whose values are
    all strings. *)
Lemma checkEntries_iff category (members : list (string * Json)) :
  forEach (checkEntry category) members tt = Ok tt
  <-> forallb (fun entry => typeofString (snd entry)) members = true.
Proof.
  induction members as [| [pkg version] rest IH]; cbn [forEach forallb snd].
  - tauto.
  - unfold checkEntry at 1. destruct (typeofString version); cbn [negb bind andb].
    + exact IH.
    + split; discriminate.
Qed.

Lemma indexed_values n items :
  forallb (fun entry => typeofString (snd entry)) (indexed n items)
  = forallb typeofString items.
Proof.
  revert n. induction items as [| x rest IH]; intros n; cbn [indexed forallb snd];
    [ reflexivity | now rewrite IH ].
Qed.

(** What the body of the second loop accepts: objects and arrays whose
    values are all strings. *)
Lemma checkCategory_iff readJson catalogPath category json :
  readJson (pathJoin catalogPath (category ++ ".json")) = Parsed json ->
  checkCategory pathJoin readJson catalogPath tt category = Ok tt
  <-> accepted json = true.
Proof.
  intros Hread. unfold checkCategory. rewrite Hread.
  destruct json; cbn [typeofObject isNull negb orb accepted entries];
    try (split; discriminate).
  - rewrite checkEntries_iff. now rewrite indexed_values.
  - apply checkEntries_iff.
Qed.

(** ** C9 *)

(** C9 at an array.  A catalog file that holds an array of strings passes
    [validateCatalog], although its top-level value is not a mapping from
    package names to versions. *)
Theorem validateCatalog_accepts_array catalogPath category items :
  forallb typeofString items = true ->
  validateCatalog pathJoin (fun _ => true) (fun _ => Parsed (JArray items))
    catalogPath [category] = Ok tt.
Proof.
  intros Hitems. unfold validateCatalog. cbn [negb filter length Nat.ltb Nat.leb].
  cbn [forEach]. 
  assert (Hc : checkCategory pathJoin (fun _ => Parsed (JArray items))
                 catalogPath tt category = Ok tt).
  { apply (checkCategory_iff (fun _ => Parsed (JArray items)) catalogPath category
             eq_refl). exact Hitems. }
  now rewrite Hc.
Qed.

End ValidatorFacts.

(* ================================================================== *)
(** * More about [update] *)

Lemma keys_set_present {V : Type} (k : string) (v : V) (o : JsObject.t V) :
  In k (JsObject.keys o) -> JsObject.keys (JsObject.set k v o) = JsObject.keys o.
Proof.
  intros Hin. rewrite keys_set.
  assert (H : existsb (String.eqb k) (JsObject.keys o) = true).
  { apply existsb_exists. exists k. split; [ assumption | apply String.eqb_refl ]. }
  now rewrite H.
Qed.

Lemma get_Some_key {V : Type} (k : string) (v : V) (o : JsObject.t V) :
  JsObject.get k o = Some v -> In k (JsObject.keys o).
Proof.
  intros H. apply get_Some_In in H.
  change k with (fst (k, v)). now apply in_map.
Qed.

Section ApplyMore.
Context {L : SemverLib}.
Variable answers : nat -> string.

(** One pending change either leaves the manifest as it is, or installs its
    version; the latter needs a change that is not skipped and, for a
    downgrade, the answer yes. *)
Lemma applyUpdate_cases depType st k info st' :
  applyUpdate answers depType st (k, info) = Ok st' ->
  packageJson st' = packageJson st
  \/ (declared depType k (packageJson st') = Some (UpdateInfo.new info)
      /\ ~ skipped depType info
      /\ (UpdateInfo.isDowngrade info = false
          \/ isYes (answers (asked st)) = true)).
Proof.
  unfold applyUpdate, skipped.
  destruct (UpdateInfo.isDowngrade info) eqn:Easking;
    destruct (DependencyType_eqb depType peerDependencies) eqn:Epeer;
    destruct (UpdateInfo.isRangeSatisfied info) as [[|] |] eqn:Esat;
    cbn beta iota zeta;
    try (destruct (isYes (answers (asked st))) eqn:Eyes; cbn beta iota zeta);
    cbn [packageJson];
    try (intros [= <-]; left; reflexivity);
    (destruct (PackageJson.get depType (packageJson st)) as [bucket |] eqn:Hb;
     [ | discriminate ]);
    intros [= <-]; cbn [packageJson]; right;
    (split; [ unfold declared; rewrite PackageJson_get_set_same;
              apply get_set_same | ]);
    (split; [ intros [Hp Hs]; try congruence; subst depType; discriminate
            | auto ]).
Qed.

(** What the events of one pending change are: a question exactly for a
    downgrade, never a save nor a change line. *)
Lemma applyUpdate_trace depType st entry st' :
  applyUpdate answers depType st entry = Ok st' ->
  exists extra,
    events st' = (events st ++ extra)%list
    /\ filter isSave extra = []
    /\ length (filter isPrompt extra)
       = (if UpdateInfo.isDowngrade (snd entry) then 1 else 0).
Proof.
  destruct entry as [k info]. unfold applyUpdate. cbn [snd].
  destruct (UpdateInfo.isDowngrade info);
    destruct (DependencyType_eqb depType peerDependencies);
    destruct (UpdateInfo.isRangeSatisfied info) as [[|] |];
    cbn beta iota zeta;
    try (destruct (isYes (answers (asked st))); cbn beta iota zeta);
    cbn [packageJson events];
    try (destruct (PackageJson.get depType (packageJson st)); [ | discriminate ]);
    intros [= <-]; cbn [events];
    rewrite <- ?app_assoc;
    first [ (eexists; split; [ reflexivity | split; reflexivity ])
          | (exists []; rewrite app_nil_r; repeat split) ].
Qed.

Lemma applyEntries_trace depType entries :
  forall st st',
    forEach (applyUpdate answers depType) entries st = Ok st' ->
    exists extra,
      events st' = (events st ++ extra)%list
      /\ filter isSave extra = []
      /\ length (filter isPrompt extra) = length (downgrades entries).
Proof.
  induction entries as [| entry rest IH]; intros st st'; cbn [forEach].
  - intros [= <-]. exists []. rewrite app_nil_r. repeat split.
  - destruct (applyUpdate answers depType st entry) as [st1 |] eqn:Hstep;
      cbn [bind]; [ | discriminate ].
    intros Hrest.
    apply applyUpdate_trace in Hstep as (e1 & He1 & Hs1 & Hp1).
    apply IH in Hrest as (e2 & He2 & Hs2 & Hp2).
    exists (e1 ++ e2)%list. rewrite He2, He1, <- app_assoc.
    split; [ reflexivity | ].
    rewrite !filter_app, Hs1, Hs2, length_app, Hp1, Hp2.
    split; [ reflexivity | ].
    unfold downgrades. cbn [filter].
    destruct (UpdateInfo.isDowngrade (snd entry)); reflexivity.
Qed.

(** The events of the applying phase: one question for each downgrade, no
    save. *)
Lemma applyUpdates_trace updates st st' :
  applyUpdates answers updates st = Ok st' ->
  exists extra,
    events st' = (events st ++ extra)%list
    /\ filter isSave extra = []
    /\ length (filter isPrompt extra)
       = length (downgrades (Updates.deps updates))
         + length (downgrades (Updates.devDeps updates))
         + length (downgrades (Updates.peerDeps updates)).
Proof.
  intros Ha. apply applyUpdates_steps in Ha as (st1 & st2 & H1 & H2 & H3).
  apply applyEntries_trace in H1 as (e1 & He1 & Hs1 & Hp1).
  apply applyEntries_trace in H2 as (e2 & He2 & Hs2 & Hp2).
  apply applyEntries_trace in H3 as (e3 & He3 & Hs3 & Hp3).
  exists (e1 ++ e2 ++ e3)%list.
  rewrite He3, He2, He1, <- !app_assoc. split; [ reflexivity | ].
  rewrite !filter_app, Hs1, Hs2, Hs3, !length_app, Hp1, Hp2, Hp3.
  split; [ reflexivity | lia ].
Qed.

(** The step that handles the pending change of a package, inside the loop
    over its bucket. *)
Lemma applyEntries_key depType entries k info :
  JsObject.wf entries ->
  JsObject.get k entries = Some info ->
  forall st st',
    forEach (applyUpdate answers depType) entries st = Ok st' ->
    exists s0 s1,
      applyUpdate answers depType s0 (k, info) = Ok s1
      /\ declared depType k (packageJson s0) = declared depType k (packageJson st)
      /\ declared depType k (packageJson st') = declared depType k (packageJson s1).
Proof.
  unfold JsObject.wf.
  induction entries as [| [k0 info0] rest IH]; intros Hwf Hget st st';
    cbn [forEach JsObject.get] in *; [ discriminate | ].
  inversion Hwf as [| ? ? Hnotin Hwf']; subst.
  destruct (applyUpdate answers depType st (k0, info0)) as [st1 |] eqn:Hstep;
    cbn [bind]; [ | discriminate ].
  intros Hrest.
  destruct (String.eqb_spec k k0) as [-> | Hne].
  - injection Hget as <-. exists st, st1. split; [ assumption | ].
    split; [ reflexivity | ].
    edestruct applyEntries_spec as (_ & _ & Hnone & _);
      [ exact Hwf' | exact Hrest | ].
    apply Hnone. now apply get_None_iff.
  - destruct (IH Hwf' Hget _ _ Hrest) as (s0 & s1 & Hs & H0 & H1).
    exists s0, s1. split; [ assumption | ]. split; [ | assumption ].
    rewrite H0.
    edestruct applyUpdate_step as (_ & _ & Hother & _); [ exact Hstep | ].
    now apply Hother.
Qed.

Lemma applyUpdates_key updates depType k info st st' :
  wfUpdates updates ->
  JsObject.get k (Updates.get depType updates) = Some info ->
  applyUpdates answers updates st = Ok st' ->
  exists s0 s1,
    applyUpdate answers depType s0 (k, info) = Ok s1
    /\ declared depType k (packageJson s0) = declared depType k (packageJson st)
    /\ declared depType k (packageJson st') = declared depType k (packageJson s1).
Proof.
  intros Hwf Hget Ha.
  destruct (applyUpdates_steps _ _ _ Ha) as (st1 & st2 & H1 & H2 & H3).
  edestruct (@applyEntries_spec answers dependencies) as (F1 & _);
    [ exact (Hwf dependencies) | exact H1 | ].
  edestruct (@applyEntries_spec answers devDependencies) as (F2 & _);
    [ exact (Hwf devDependencies) | exact H2 | ].
  edestruct (@applyEntries_spec answers peerDependencies) as (F3 & _);
    [ exact (Hwf peerDependencies) | exact H3 | ].
  assert (D : forall t s s',
             PackageJson.get t (packageJson s') = PackageJson.get t (packageJson s) ->
             declared t k (packageJson s') = declared t k (packageJson s)).
  { intros t s s' H. unfold declared. now rewrite H. }
  destruct depType; cbn [Updates.get] in Hget.
  - edestruct applyEntries_key as (s0 & s1 & Hs & H0 & Hend);
      [ exact (Hwf dependencies) | exact Hget | exact H1 | ].
    exists s0, s1. split; [ assumption | ]. split; [ assumption | ].
    rewrite <- Hend.
    rewrite (D dependencies st2 st'), (D dependencies st1 st2)
      by (apply F3 || apply F2; discriminate).
    reflexivity.
  - edestruct applyEntries_key as (s0 & s1 & Hs & H0 & Hend);
      [ exact (Hwf devDependencies) | exact Hget | exact H2 | ].
    exists s0, s1. split; [ assumption | ]. split.
    + rewrite H0. apply D, F1. discriminate.
    + rewrite <- Hend. apply D, F3. discriminate.
  - edestruct applyEntries_key as (s0 & s1 & Hs & H0 & Hend);
      [ exact (Hwf peerDependencies) | exact Hget | exact H3 | ].
    exists s0, s1. split; [ assumption | ]. split; [ | assumption ].
    rewrite H0.
    rewrite (D peerDependencies st1 st2), (D peerDependencies st st1)
      by (apply F2 || apply F1; discriminate).
    reflexivity.
Qed.

(** The applying phase keeps the package names of every bucket when every
    pending change belongs to a declared package. *)
Lemma applyUpdates_keys p updates st st' :
  (forall depType k info,
      In (k, info) (Updates.get depType updates) ->
      exists bucket, PackageJson.get depType p = Some bucket
                     /\ In k (JsObject.keys bucket)) ->
  (forall depType,
      sameKeys (PackageJson.get depType p) (PackageJson.get depType (packageJson st))) ->
  applyUpdates answers updates st = Ok st' ->
  forall depType,
    sameKeys (PackageJson.get depType p) (PackageJson.get depType (packageJson st')).
Proof.
  intros Hdecl Hst Ha.
  pose (I := fun s : ApplyState =>
               forall depType,
                 sameKeys (PackageJson.get depType p)
                          (PackageJson.get depType (packageJson s))).
  change (I st'). unfold applyUpdates in Ha.
  refine (@forEach_invariant _ _ I _ _ _ st st' Hst Ha).
  clear st st' Hst Ha. intros s [depType entries] s' Hin Hs Hloop.
  cbn [applyBucket] in Hloop.
  assert (Hentries : entries = Updates.get depType updates).
  { unfold Updates.entries in Hin.
    destruct Hin as [[= <- <-] | [[= <- <-] | [[= <- <-] | []]]]; reflexivity. }
  subst entries.
  refine (@forEach_invariant _ _ I _ _ _ s s' Hs Hloop).
  clear s s' Hs Hloop Hin. intros s [k info] s' Hin Hs Hstep t.
  destruct (Hdecl _ _ _ Hin) as (bucket & Hb & Hk).
  destruct (applyUpdate_cases _ _ _ _ Hstep) as [-> | _]; [ apply Hs | ].
  unfold applyUpdate in Hstep.
  pose proof (Hs depType) as Hsd. unfold sameKeys in Hsd. rewrite Hb in Hsd.
  destruct (PackageJson.get depType (packageJson s)) as [b |] eqn:Hbs;
    [ | contradiction ].
  assert (Hset : forall q,
             packageJson s' = PackageJson.set depType
                                (JsObject.set k (UpdateInfo.new info) b) q ->
             PackageJson.get t q = PackageJson.get t (packageJson s) ->
             sameKeys (PackageJson.get t p) (PackageJson.get t (packageJson s'))).
  { intros q -> Hq. destruct (DependencyType_eqb t depType) eqn:E.
    - apply DependencyType_eqb_eq in E. subst t.
      rewrite PackageJson_get_set_same, Hb. cbn.
      rewrite keys_set_present; [ assumption | now rewrite Hsd ].
    - rewrite PackageJson_get_set_other, Hq; [ apply Hs | ].
      intros ->. now rewrite (proj2 (DependencyType_eqb_eq _ _) eq_refl) in E. }
  destruct (UpdateInfo.isDowngrade info);
    destruct (DependencyType_eqb depType peerDependencies);
    destruct (UpdateInfo.isRangeSatisfied info) as [[|] |];
    cbn beta iota zeta in Hstep;
    try (destruct (isYes (answers (asked s))); cbn beta iota zeta in Hstep);
    cbn [packageJson] in Hstep; rewrite ?Hbs in Hstep;
    injection Hstep as <-; cbn [packageJson];
    first [ apply Hs | (eapply Hset; [ reflexivity | reflexivity ]) ].
Qed.

End ApplyMore.

Section UpdateMore.
Context {L : SemverLib}.

(** The comparator never raises both flags. *)
Lemma compareVersions_flags current target r :
  compareVersions current target = Ok r ->
  isDowngrade r = true -> isRangeSatisfied r = None.
Proof.
  unfold compareVersions.
  destruct (startsWithRangeOperator current).
  - intros [= <-]. discriminate.
  - destruct (startsWith current "^" || startsWith current "~");
      unfold bind; destruct (semver.gt _ _); try discriminate;
      now intros [= <-].
Qed.

(** X1.  A pending change found by the scan never carries both flags: one
    that asks for a confirmation as a downgrade has no range verdict, and one
    with a range verdict is no downgrade; so no change is both asked about and
    skipped. *)
Theorem update_flags_exclusive p catalogs updates hasUpdates depType pkg info :
  wfPackageJson p ->
  collectUpdates p catalogs = Ok (updates, hasUpdates) ->
  JsObject.get pkg (Updates.get depType updates) = Some info ->
  (UpdateInfo.isDowngrade info = true -> UpdateInfo.isRangeSatisfied info = None)
  /\ (UpdateInfo.isDowngrade info = true -> ~ skipped depType info)
  /\ (UpdateInfo.isRangeSatisfied info <> None ->
      UpdateInfo.isDowngrade info = false
      /\ startsWithRangeOperator (UpdateInfo.current info) = true).
Proof.
  intros Hwf Hc Hget.
  edestruct collectUpdates_pending as (cur & c & tgt & _ & _ & (r & Hr & ->));
    [ exact Hwf | exact Hc | exact Hget | ].
  cbn [mkUpdateInfo UpdateInfo.isDowngrade UpdateInfo.isRangeSatisfied
       UpdateInfo.current].
  pose proof (compareVersions_flags _ _ Hr) as Hflags.
  split; [ exact Hflags | ]. split.
  - intros Hd [_ Hs]. cbn [mkUpdateInfo UpdateInfo.isRangeSatisfied] in Hs.
    rewrite (Hflags Hd) in Hs. discriminate.
  - intros Hs. split.
    + destruct (isDowngrade r); [ now contradiction Hs; apply Hflags | reflexivity ].
    + unfold compareVersions in Hr.
      destruct (startsWithRangeOperator cur); [ reflexivity | ].
      exfalso. apply Hs.
      destruct (startsWith cur "^" || startsWith cur "~");
        unfold bind in Hr; destruct (semver.gt _ _); try discriminate;
        now injection Hr as <-.
Qed.

(** X2.  [update] only rewrites versions: in the manifest it returns, every
    bucket that was absent is absent and every other bucket has the same
    package names in the same order. *)
Theorem update_keeps_packages dryRun p catalogs answers outcome :
  wfPackageJson p ->
  update dryRun p catalogs answers = Ok outcome ->
  forall depType,
    sameKeys (PackageJson.get depType p)
             (PackageJson.get depType (manifest outcome)).
Proof.
  intros Hwf Hout.
  assert (Hrefl : forall depType,
             sameKeys (PackageJson.get depType p) (PackageJson.get depType p)).
  { intros t. unfold sameKeys. now destruct (PackageJson.get t p). }
  unfold update in Hout.
  destruct (collectUpdates p catalogs) as [[updates hasUpdates] | e] eqn:Hc;
    cbn [bind] in Hout; [ | discriminate ].
  destruct hasUpdates; cbn [negb] in Hout;
    [ | injection Hout as <-; exact Hrefl ].
  destruct dryRun; [ injection Hout as <-; exact Hrefl | ].
  destruct (applyUpdates answers updates _) as [st' |] eqn:Ha;
    cbn [bind] in Hout; [ | discriminate ].
  injection Hout as <-. cbn [manifest].
  eapply applyUpdates_keys; [ | | exact Ha ]; [ | exact Hrefl ].
  intros depType k info Hin.
  edestruct collectUpdates_spec as (Hwfu & _); [ exact Hwf | exact Hc | ].
  edestruct collectUpdates_pending as (cur & c & tgt & Hd & _);
    [ exact Hwf | exact Hc | apply In_get; [ apply Hwfu | exact Hin ] | ].
  unfold declared in Hd.
  destruct (PackageJson.get depType p) as [bucket |]; [ | discriminate ].
  exists bucket. split; [ reflexivity | ]. eapply get_Some_key; eauto.
Qed.

(** X3.  A run that is not a dry run saves [package.json] exactly once when
    the scan found a pending change, also when every change was skipped or
    declined, and what it saves is the manifest it returns; when the scan
    found nothing it saves nothing. *)
Theorem update_saves_once p catalogs answers updates hasUpdates outcome :
  collectUpdates p catalogs = Ok (updates, hasUpdates) ->
  update false p catalogs answers = Ok outcome ->
  filter isSave (trace outcome)
  = if hasUpdates then [SavePackageJson (manifest outcome)] else [].
Proof.
  intros Hc Hout.
  destruct (update_phases _ _ _ Hc Hout) as [[-> ->] | (-> & st' & Ha & ->)];
    [ reflexivity | ].
  cbn [trace manifest].
  apply applyUpdates_trace in Ha as (extra & -> & Hs & _). cbn [events].
  rewrite !filter_app, Hs. cbn [filter isSave].
  rewrite (filter_none isSave isLog); [ reflexivity | apply display_isLog | ].
  now intros [].
Qed.

(** X4.  A run that is not a dry run asks exactly one question for each
    pending change that is a downgrade. *)
Theorem update_prompts_downgrades p catalogs answers updates hasUpdates outcome :
  collectUpdates p catalogs = Ok (updates, hasUpdates) ->
  update false p catalogs answers = Ok outcome ->
  length (filter isPrompt (trace outcome))
  = length (downgrades (Updates.deps updates))
    + length (downgrades (Updates.devDeps updates))
    + length (downgrades (Updates.peerDeps updates)).
Proof.
  intros Hc Hout.
  destruct (update_phases _ _ _ Hc Hout) as [[-> ->] | (-> & st' & Ha & ->)].
  - apply collectUpdates_flag in Hc. now subst updates.
  - cbn [trace]. apply applyUpdates_trace in Ha as (extra & -> & _ & Hp).
    cbn [events]. rewrite !filter_app, !length_app, Hp. cbn [filter isPrompt].
    rewrite (filter_none isPrompt isLog); [ cbn; lia | apply display_isLog | ].
    now intros [].
Qed.

(** X5.  When the user declines every question, a pending change that is a
    downgrade leaves the declaration of its package as it was. *)
Theorem update_declined_downgrade
    p catalogs answers updates hasUpdates outcome depType pkg info :
  wfPackageJson p ->
  collectUpdates p catalogs = Ok (updates, hasUpdates) ->
  update false p catalogs answers = Ok outcome ->
  (forall n, isYes (answers n) = false) ->
  JsObject.get pkg (Updates.get depType updates) = Some info ->
  UpdateInfo.isDowngrade info = true ->
  declared depType pkg (manifest outcome) = Some (UpdateInfo.current info).
Proof.
  intros Hwf Hc Hout Hno Hget Hdown.
  edestruct collectUpdates_spec as (Hwfu & _); [ exact Hwf | exact Hc | ].
  edestruct collectUpdates_pending as (cur & c & tgt & Hd & _ & (r & _ & Hinfo));
    [ exact Hwf | exact Hc | exact Hget | ].
  assert (Hcur : UpdateInfo.current info = cur) by now subst info.
  rewrite Hcur.
  destruct (update_phases _ _ _ Hc Hout) as [[_ ->] | (_ & st' & Ha & ->)];
    [ exact Hd | ].
  cbn [manifest].
  edestruct applyUpdates_key as (s0 & s1 & Hstep & H0 & H1);
    [ exact Hwfu | exact Hget | exact Ha | ].
  rewrite H1.
  destruct (applyUpdate_cases _ _ _ _ _ Hstep) as [-> | (_ & _ & [Hd' | Hy])].
  - now rewrite H0.
  - congruence.
  - rewrite Hno in Hy. discriminate.
Qed.

(** X6.  Whatever the answers, a declaration in the manifest that [update]
    returns is the declaration it had, or the version that the last matching
    catalog gives for that package; a package without a matching catalog
    keeps its declaration. *)
Theorem update_writes_catalog_versions
    dryRun p catalogs answers outcome depType pkg cur :
  wfPackageJson p ->
  update dryRun p catalogs answers = Ok outcome ->
  declared depType pkg p = Some cur ->
  match lastMatch pkg cur catalogs with
  | Some (category, target) =>
      declared depType pkg (manifest outcome) = Some cur
      \/ declared depType pkg (manifest outcome) = Some target
  | None => declared depType pkg (manifest outcome) = Some cur
  end.
Proof.
  intros Hwf Hout Hd.
  assert (Hsame : manifest outcome = p ->
                  match lastMatch pkg cur catalogs with
                  | Some (category, target) =>
                      declared depType pkg (manifest outcome) = Some cur
                      \/ declared depType pkg (manifest outcome) = Some target
                  | None => declared depType pkg (manifest outcome) = Some cur
                  end).
  { intros ->. destruct (lastMatch pkg cur catalogs) as [[c tgt] |]; auto. }
  unfold update in Hout.
  destruct (collectUpdates p catalogs) as [[updates hasUpdates] | e] eqn:Hc;
    cbn [bind] in Hout; [ | discriminate ].
  destruct hasUpdates; cbn [negb] in Hout;
    [ | injection Hout as <-; now apply Hsame ].
  destruct dryRun; [ injection Hout as <-; now apply Hsame | ].
  destruct (applyUpdates answers updates _) as [st' |] eqn:Ha;
    cbn [bind] in Hout; [ | discriminate ].
  injection Hout as <-. cbn [manifest]. clear Hsame.
  edestruct collectUpdates_spec as (Hwfu & Hscan & _); [ exact Hwf | exact Hc | ].
  specialize (Hscan depType pkg). unfold scanned in Hscan. rewrite Hd in Hscan.
  destruct (lastMatch pkg cur catalogs) as [[c tgt] |].
  - destruct Hscan as (info & Hget & (r & _ & ->)).
    edestruct applyUpdates_key as (s0 & s1 & Hstep & H0 & H1);
      [ exact Hwfu | exact Hget | exact Ha | ].
    rewrite H1. cbn [packageJson] in H0.
    destruct (applyUpdate_cases _ _ _ _ _ Hstep) as [-> | (Hnew & _)].
    + left. now rewrite H0.
    + right. exact Hnew.
  - edestruct applyUpdates_spec as (_ & Hnone & _); [ exact Hwfu | exact Ha | ].
    rewrite (Hnone _ _ Hscan). exact Hd.
Qed.

(** X7.  For a manifest whose package names are not names inherited from
    [Object.prototype], and once [package.json] and the catalogs are read:
    [update] prints "up to date" and nothing else, asks and writes nothing and
    leaves the manifest untouched, exactly when no catalog gives, for a
    declared package, a version that is not empty and differs from the
    declaration. *)
Theorem update_up_to_date_iff dryRun p catalogs answers :
  wfPackageJson p ->
  ownNames p ->
  update dryRun p catalogs answers
  = Ok {| manifest := p; trace := [Log UpToDate] |}
  <-> (forall depType pkg cur,
          declared depType pkg p = Some cur -> lastMatch pkg cur catalogs = None).
Proof.
  intros Hwf _. split.
  - intros Hout depType pkg cur Hd. unfold update in Hout.
    destruct (collectUpdates p catalogs) as [[updates hasUpdates] | e] eqn:Hc;
      cbn [bind] in Hout; [ | discriminate ].
    destruct hasUpdates; cbn [negb] in Hout.
    + exfalso. destruct dryRun; [ discriminate Hout | ].
      destruct (applyUpdates answers updates _) as [st' |] eqn:Ha;
        cbn [bind] in Hout; [ | discriminate ].
      apply applyUpdates_trace in Ha as (extra & He & _).
      injection Hout as _ Ht. rewrite He in Ht. cbn [events] in Ht.
      discriminate Ht.
    + edestruct collectUpdates_spec as (_ & Hscan & _); [ exact Hwf | exact Hc | ].
      apply collectUpdates_flag in Hc. subst updates.
      specialize (Hscan depType pkg). unfold scanned in Hscan.
      rewrite Hd in Hscan.
      destruct (lastMatch pkg cur catalogs) as [[c tgt] |]; [ | reflexivity ].
      destruct Hscan as (info & Hget & _). now destruct depType.
  - intros Hnone. unfold update.
    now rewrite (collectUpdates_none catalogs Hwf Hnone).
Qed.

(** X8.  A dry run shows what the real run shows first: the report of the
    dry run, short of its closing notice, is the start of the output of the
    run that is not a dry run, on the same manifest and catalogs. *)
Theorem update_dryRun_prefix p catalogs answers answers' dry real :
  update true p catalogs answers = Ok dry ->
  update false p catalogs answers' = Ok real ->
  trace dry = [Log UpToDate] /\ trace real = [Log UpToDate]
  \/ exists shown rest,
      trace dry = (shown ++ [Log DryRunNotice])%list
      /\ trace real = (shown ++ rest)%list.
Proof.
  unfold update.
  destruct (collectUpdates p catalogs) as [[updates hasUpdates] | e] eqn:Hc;
    cbn [bind]; [ | discriminate ].
  destruct hasUpdates; cbn [negb].
  - intros [= <-].
    destruct (applyUpdates answers' updates _) as [st' |] eqn:Ha;
      cbn [bind]; [ | discriminate ].
    intros [= <-]. right. cbn [trace].
    apply applyUpdates_trace in Ha as (extra & -> & _). cbn [events].
    exists (Log UpdatesAvailable :: display updates).
    exists (extra ++ [SavePackageJson (packageJson st'); Log Updated])%list.
    split; [ reflexivity | ]. now rewrite <- app_assoc.
  - intros [= <-] [= <-]. left. split; reflexivity.
Qed.

End UpdateMore.

(** A loop fails with the error of one of its steps. *)
Lemma forEach_throw {A S : Type} (body : S -> A -> Result S) (xs : list A) :
  forall s e,
    forEach body xs s = Throw e ->
    exists x s0, In x xs /\ body s0 x = Throw e.
Proof.
  induction xs as [| x xs IH]; intros s e; cbn [forEach]; [ discriminate | ].
  destruct (body s x) as [s1 | e1] eqn:Hstep; cbn [bind].
  - intros Hrest. destruct (IH _ _ Hrest) as (y & s0 & Hin & Hy).
    exists y, s0. split; [ now right | assumption ].
  - intros [= <-]. exists x, s. split; [ now left | assumption ].
Qed.

(** A loop that returns has run every one of its steps. *)
Lemma forEach_steps {A S : Type} (body : S -> A -> Result S) (xs : list A) :
  forall s s',
    forEach body xs s = Ok s' ->
    forall x, In x xs -> exists s0 s1, body s0 x = Ok s1.
Proof.
  induction xs as [| x xs IH]; intros s s'; cbn [forEach]; [ now intros _ y [] | ].
  destruct (body s x) as [s1 | e1] eqn:Hstep; cbn [bind]; [ | discriminate ].
  intros Hrest y [<- | Hin]; [ now exists s, s1 | ].
  exact (IH _ _ Hrest y Hin).
Qed.

Section UpdateFailure.
Context {L : SemverLib}.

(** A failure of the scan is a failure of the comparator, for the
    declaration of some package and the version, not empty and different,
    that some catalog gives for it. *)
Lemma collectUpdates_throw p catalogs e :
  wfPackageJson p ->
  collectUpdates p catalogs = Throw e ->
  exists depType pkg cur category catalog target,
    declared depType pkg p = Some cur
    /\ In (category, catalog) catalogs
    /\ JsObject.get pkg catalog = Some target
    /\ target <> "" /\ target <> cur
    /\ compareVersions cur target = Throw e.
Proof.
  intros Hwf Hout. unfold collectUpdates in Hout.
  apply forEach_throw in Hout as (depType & st & _ & Hbucket).
  unfold scanBucket in Hbucket.
  destruct (PackageJson.get depType p) as [bucket |] eqn:Hb; [ | discriminate ].
  apply forEach_throw in Hbucket as ([pkg cur] & st1 & Hin & Hpkg).
  unfold scanPackage in Hpkg.
  apply forEach_throw in Hpkg as ([category catalog] & st2 & Hcat & Hstep).
  unfold scanCatalog in Hstep.
  destruct (JsObject.get pkg catalog) as [target |] eqn:Hget; [ | discriminate ].
  destruct (truthy target && negb (String.eqb target cur)) eqn:Htest;
    [ | discriminate ].
  apply andb_true_iff in Htest as [Ht Hne].
  apply truthy_iff in Ht. apply negb_true_iff, String.eqb_neq in Hne.
  unfold bind in Hstep.
  destruct (compareVersions cur target) as [r | e'] eqn:Hcmp; [ discriminate | ].
  injection Hstep as <-.
  exists depType, pkg, cur, category, catalog, target.
  split; [ | repeat split; assumption ].
  unfold declared. rewrite Hb. apply In_get; [ exact (Hwf _ _ Hb) | exact Hin ].
Qed.

(** The scan does not get past a comparison that fails. *)
Lemma collectUpdates_stops p catalogs depType pkg cur category catalog target e :
  declared depType pkg p = Some cur ->
  In (category, catalog) catalogs ->
  JsObject.get pkg catalog = Some target ->
  target <> "" -> target <> cur ->
  compareVersions cur target = Throw e ->
  exists e', collectUpdates p catalogs = Throw e'.
Proof.
  intros Hd Hcat Hget Ht Hne Hcmp.
  destruct (collectUpdates p catalogs) as [st |] eqn:Hc; [ exfalso | eauto ].
  unfold collectUpdates in Hc.
  assert (Hdep : In depType dependencyTypes) by (destruct depType; cbn; auto).
  destruct (forEach_steps _ _ _ Hc _ Hdep) as (s0 & s1 & Hbucket).
  unfold scanBucket in Hbucket. unfold declared in Hd.
  destruct (PackageJson.get depType p) as [bucket |]; [ | discriminate ].
  apply get_Some_In in Hd.
  destruct (forEach_steps _ _ _ Hbucket _ Hd) as (s2 & s3 & Hpkg).
  unfold scanPackage in Hpkg.
  destruct (forEach_steps _ _ _ Hpkg _ Hcat) as (s4 & s5 & Hstep).
  unfold scanCatalog in Hstep. rewrite Hget in Hstep.
  apply truthy_iff in Ht. apply String.eqb_neq in Hne.
  rewrite Ht, Hne, Hcmp in Hstep. discriminate.
Qed.

(** X22.  One comparison that fails aborts the whole of [update], a dry run
    too.  For a manifest whose package names are not names inherited from
    [Object.prototype], and once [package.json] and the catalogs are read:
    when the comparator raises an error for the declaration of some package
    and the version, not empty and different, that some catalog gives for it,
    [update] is rejected before anything is printed, asked or written, and
    the error it is rejected with is one the comparator raised for such a
    pair.  The loop that applies the changes, for its part, never fails after
    a scan that returned. *)
Theorem update_fails_with_comparator dryRun p catalogs answers :
  wfPackageJson p ->
  ownNames p ->
  (forall depType pkg cur category catalog target e,
      declared depType pkg p = Some cur ->
      In (category, catalog) catalogs ->
      JsObject.get pkg catalog = Some target ->
      target <> "" -> target <> cur ->
      compareVersions cur target = Throw e ->
      exists e' depType' pkg' cur' category' catalog' target',
        update dryRun p catalogs answers = Throw e'
        /\ declared depType' pkg' p = Some cur'
        /\ In (category', catalog') catalogs
        /\ JsObject.get pkg' catalog' = Some target'
        /\ target' <> "" /\ target' <> cur'
        /\ compareVersions cur' target' = Throw e')
  /\ (forall updates hasUpdates shown,
        collectUpdates p catalogs = Ok (updates, hasUpdates) ->
        exists st',
          applyUpdates answers updates
            {| packageJson := p; events := shown; asked := 0 |} = Ok st').
Proof.
  intros Hwf _. split.
  - intros depType pkg cur category catalog target e Hd Hcat Hget Ht Hne Hcmp.
    edestruct collectUpdates_stops as (e' & Hc);
      [ exact Hd | exact Hcat | exact Hget | exact Ht | exact Hne | exact Hcmp | ].
    edestruct collectUpdates_throw
      as (depType' & pkg' & cur' & category' & catalog' & target' & H);
      [ exact Hwf | exact Hc | ].
    exists e', depType', pkg', cur', category', catalog', target'.
    split; [ | exact H ].
    unfold update. now rewrite Hc.
  - intros updates hasUpdates shown Hc.
    apply applyUpdates_total. cbn [packageJson].
    eapply collectUpdates_buckets; [ exact Hwf | exact Hc ].
Qed.

End UpdateFailure.

(* ================================================================== *)
(** * Properties of [add] *)

Lemma set_same {V : Type} (k : string) (v : V) (o : JsObject.t V) :
  JsObject.get k o = Some v -> JsObject.set k v o = o.
Proof.
  induction o as [| [k' v'] o IH]; cbn [JsObject.get JsObject.set];
    [ discriminate | ].
  destruct (String.eqb k k'); [ now intros [= ->] | ].
  intros H. now rewrite IH.
Qed.

Lemma get_assign (k : string) (source : JsObject.t string) :
  JsObject.wf source ->
  forall target,
    JsObject.get k (assign target source)
    = match JsObject.get k source with
      | Some v => Some v
      | None => JsObject.get k target
      end.
Proof.
  unfold JsObject.wf, assign.
  induction source as [| [k0 v0] rest IH]; intros Hwf target;
    cbn [fold_left JsObject.get fst snd JsObject.keys map] in *; [ reflexivity | ].
  inversion Hwf as [| ? ? Hnotin Hwf']; subst.
  rewrite (IH Hwf').
  destruct (String.eqb_spec k k0) as [-> | Hne].
  - assert (Hnone : JsObject.get k0 rest = None) by now apply get_None_iff.
    rewrite Hnone. apply get_set_same.
  - destruct (JsObject.get k rest); [ reflexivity | now apply get_set_other ].
Qed.

Lemma wf_assign (target source : JsObject.t string) :
  JsObject.wf target -> JsObject.wf (assign target source).
Proof.
  unfold assign. revert target.
  induction source as [| [k0 v0] rest IH]; intros target Hwf;
    cbn [fold_left fst snd]; [ assumption | ].
  apply IH. now apply wf_set.
Qed.

(** Assigning a catalog twice is assigning it once. *)
Lemma assign_twice (target source : JsObject.t string) :
  JsObject.wf source -> assign (assign target source) source = assign target source.
Proof.
  intros Hwf.
  assert (Hall : forall k v, In (k, v) source ->
                             JsObject.get k (assign target source) = Some v).
  { intros k v Hin. rewrite get_assign by assumption.
    now rewrite (In_get k v Hwf Hin). }
  revert Hall. generalize (assign target source) as o. clear Hwf.
  unfold assign. induction source as [| [k0 v0] rest IH]; intros o Hall;
    cbn [fold_left fst snd]; [ reflexivity | ].
  rewrite set_same by (apply Hall; now left).
  apply IH. intros k v Hin. apply Hall. now right.
Qed.

Lemma PackageJson_set_get depType bucket p :
  PackageJson.get depType p = Some bucket -> PackageJson.set depType bucket p = p.
Proof. destruct p, depType; cbn; now intros ->. Qed.

Lemma PackageJson_set_set depType b b' p :
  PackageJson.set depType b (PackageJson.set depType b' p)
  = PackageJson.set depType b p.
Proof. now destruct depType. Qed.

Lemma declared_set_same depType k bucket p :
  declared depType k (PackageJson.set depType bucket p) = JsObject.get k bucket.
Proof. unfold declared. now rewrite PackageJson_get_set_same. Qed.

Lemma declared_set_other depType depType' k bucket p :
  depType' <> depType ->
  declared depType' k (PackageJson.set depType bucket p) = declared depType' k p.
Proof. intros H. unfold declared. now rewrite PackageJson_get_set_other. Qed.

Lemma declared_bucketOrEmpty depType k p :
  JsObject.get k (bucketOrEmpty depType p) = declared depType k p.
Proof.
  unfold bucketOrEmpty, declared. now destruct (PackageJson.get depType p).
Qed.

Lemma DependencyType_dec (a b : DependencyType) : a = b \/ a <> b.
Proof. destruct a, b; (now left) || (right; discriminate). Qed.

(** Creating the target bucket changes no declaration. *)
Lemma declared_create depType t k p :
  declared t k (PackageJson.set depType (bucketOrEmpty depType p) p)
  = declared t k p.
Proof.
  destruct (DependencyType_dec t depType) as [-> | Hne].
  - rewrite declared_set_same. apply declared_bucketOrEmpty.
  - now apply declared_set_other.
Qed.

Lemma wfPackageJson_set depType bucket p :
  wfPackageJson p -> JsObject.wf bucket ->
  wfPackageJson (PackageJson.set depType bucket p).
Proof.
  intros Hwf Hb t b. destruct (DependencyType_dec t depType) as [-> | Hne].
  - rewrite PackageJson_get_set_same. now intros [= <-].
  - rewrite PackageJson_get_set_other by assumption. apply Hwf.
Qed.

Lemma wf_bucketOrEmpty depType p :
  wfPackageJson p -> JsObject.wf (bucketOrEmpty depType p).
Proof.
  intros Hwf. unfold bucketOrEmpty.
  destruct (PackageJson.get depType p) as [b |] eqn:Hb;
    [ eapply Hwf; eauto | constructor ].
Qed.

(** Splitting [category:package] at the colon gives the two back. *)
Lemma splitOn_colon (category packageName : string) :
  includes ":" category = false -> includes ":" packageName = false ->
  RefSemver.splitOn ":" (category ++ ":" ++ packageName) = [category; packageName]
  /\ includes ":" (category ++ ":" ++ packageName) = true.
Proof.
  intros Hc Hp.
  assert (Hsplit : forall s, includes ":" s = false -> RefSemver.splitOn ":" s = [s]).
  { induction s as [| c s IH]; cbn [includes RefSemver.splitOn]; [ reflexivity | ].
    intros H. apply orb_false_iff in H as [Hne Hs].
    rewrite (IH Hs), Hne. reflexivity. }
  induction category as [| c rest IH]; cbn [includes append RefSemver.splitOn] in *.
  - rewrite (Hsplit _ Hp). split; reflexivity.
  - apply orb_false_iff in Hc as [Hne Hrest].
    destruct (IH Hrest) as [-> ->]. rewrite Hne, orb_true_r. split; reflexivity.
Qed.

Section AddFacts.
Import Add.
Variable catalogFile : string -> option (JsObject.t string).
Variable targetType : DependencyType.
Variable defaultBehavior : JsObject.t Behavior.

(** One item: it fails exactly when its category cannot be loaded, saves
    nothing, and keeps the target bucket present. *)
Lemma addItem_spec st item :
  PackageJson.get targetType (packageJson st) <> None ->
  let (st', r) := addItem catalogFile targetType defaultBehavior st item in
  PackageJson.get targetType (packageJson st') <> None
  /\ filter isSave (events st') = filter isSave (events st)
  /\ match catalogFile (categoryOf item) with
     | Some _ => r = None
     | None =>
         st' = st
         /\ r = Some (Error ("Category '" ++ categoryOf item ++ "' not found"))
     end.
Proof.
  intros Hb. unfold addItem, categoryOf, loadCatalog.
  destruct (includes ":" item).
  - destruct (catalogFile (nth 0 (RefSemver.splitOn ":" item) "undefined"))
      as [catalog |]; [ | repeat split; assumption ].
    assert (Hnf : forall line,
               filter isSave (events st ++ [Log line]) = filter isSave (events st)).
    { intros line. rewrite filter_app. cbn. apply app_nil_r. }
    destruct (JsObject.get _ catalog) as [version |];
      [ destruct (truthy version) | ];
      try (cbn [packageJson events]; repeat split; auto; fail).
    destruct (PackageJson.get targetType (packageJson st)) as [bucket |];
      [ | now contradiction Hb ].
    cbn [packageJson events]. rewrite PackageJson_get_set_same.
    repeat split; auto. discriminate.
  - destruct (catalogFile item) as [catalog |]; [ | repeat split; assumption ].
    cbn [packageJson events]. repeat split.
    + destruct (DependencyType_dec targetType
                  (actualTargetType targetType defaultBehavior item)) as [E | Hne].
      * rewrite E at 1. rewrite PackageJson_get_set_same. discriminate.
      * rewrite PackageJson_get_set_other by assumption. assumption.
    + rewrite filter_app. cbn. apply app_nil_r.
Qed.

Lemma addItems_spec items :
  forall st,
    PackageJson.get targetType (packageJson st) <> None ->
    let (st', r) := addItems catalogFile targetType defaultBehavior items st in
    filter isSave (events st') = filter isSave (events st)
    /\ (r = None <->
        forall item, In item items -> catalogFile (categoryOf item) <> None)
    /\ (forall e, r = Some e ->
          exists item,
            In item items /\ catalogFile (categoryOf item) = None
            /\ e = Error ("Category '" ++ categoryOf item ++ "' not found")).
Proof.
  induction items as [| item rest IH]; intros st Hb; cbn [addItems].
  - repeat split; auto; try discriminate; try (now intros item []).
  - pose proof (addItem_spec st item Hb) as Hstep.
    destruct (addItem catalogFile targetType defaultBehavior st item)
      as [st1 [e1 |]].
    + destruct Hstep as (_ & Hs & Hcat).
      destruct (catalogFile (categoryOf item)) eqn:Hitem;
        [ discriminate Hcat | ].
      destruct Hcat as [-> [= ->]]. repeat split; auto.
      * discriminate.
      * intros Hall. exfalso. apply (Hall item); [ now left | assumption ].
      * intros e [= <-]. exists item. repeat split; [ now left | assumption ].
    + destruct Hstep as (Hb1 & Hs1 & Hcat).
      specialize (IH st1 Hb1).
      destruct (addItems catalogFile targetType defaultBehavior rest st1)
        as [st' r].
      destruct IH as (Hs & Hiff & Herr). repeat split.
      * now rewrite Hs.
      * intros Hr item' [<- | Hin]; [ | now apply (proj1 Hiff Hr) ].
        destruct (catalogFile (categoryOf item)); [ discriminate | ].
        destruct Hcat as [_ Hcat]. discriminate Hcat.
      * intros Hall. apply Hiff. intros item' Hin. apply Hall. now right.
      * intros e He. destruct (Herr e He) as (item' & Hin & H).
        exists item'. split; [ now right | exact H ].
Qed.

(** The loop stops at the first item whose category cannot be loaded. *)
Lemma addItems_stops before item after :
  forall st,
    PackageJson.get targetType (packageJson st) <> None ->
    (forall i, In i before -> catalogFile (categoryOf i) <> None) ->
    catalogFile (categoryOf item) = None ->
    let (st', r) :=
      addItems catalogFile targetType defaultBehavior
        (before ++ item :: after)%list st in
    r = Some (Error ("Category '" ++ categoryOf item ++ "' not found"))
    /\ filter isSave (events st') = filter isSave (events st).
Proof.
  induction before as [| i before IH]; intros st Hb Hall Hitem;
    cbn [app addItems].
  - pose proof (addItem_spec st item Hb) as Hstep.
    destruct (addItem catalogFile targetType defaultBehavior st item)
      as [st1 r1].
    destruct Hstep as (_ & Hs & Hcat). rewrite Hitem in Hcat.
    destruct Hcat as [-> ->]. split; reflexivity.
  - pose proof (addItem_spec st i Hb) as Hstep.
    destruct (addItem catalogFile targetType defaultBehavior st i)
      as [st1 r1].
    destruct Hstep as (Hb1 & Hs1 & Hcat).
    destruct (catalogFile (categoryOf i)) eqn:Hi;
      [ | now contradiction (Hall i (or_introl eq_refl)) ].
    subst r1. specialize (IH st1 Hb1 (fun j Hj => Hall j (or_intror Hj)) Hitem).
    destruct (addItems catalogFile targetType defaultBehavior
                (before ++ item :: after)%list st1) as [st' r].
    destruct IH as [-> Hs]. split; [ reflexivity | now rewrite Hs ].
Qed.

(** X9.  Once [package.json] is read: when the category of some item cannot
    be loaded, [add] is rejected with the error that names the category of
    the first such item, and [savePackageJson] is not called, so that what
    the items before it changed is not written; when the category of every
    item can be loaded, [savePackageJson] is called exactly once, with the
    manifest that [add] built. *)
Theorem add_saves_or_fails items p :
  let outcome := add catalogFile items targetType defaultBehavior p in
  (forall before item after,
      items = (before ++ item :: after)%list ->
      (forall i, In i before -> catalogFile (categoryOf i) <> None) ->
      catalogFile (categoryOf item) = None ->
      failure outcome
      = Some (Error ("Category '" ++ categoryOf item ++ "' not found"))
      /\ filter isSave (trace outcome) = [])
  /\ ((forall item, In item items -> catalogFile (categoryOf item) <> None) ->
      filter isSave (trace outcome) = [SavePackageJson (manifest outcome)]).
Proof.
  cbv zeta. unfold add.
  set (st0 := {| packageJson :=
                   PackageJson.set targetType (bucketOrEmpty targetType p) p;
                 events := [] |}).
  assert (Hb : PackageJson.get targetType (packageJson st0) <> None).
  { subst st0. cbn [packageJson]. rewrite PackageJson_get_set_same. discriminate. }
  split.
  - intros before item after -> Hall Hitem.
    pose proof (addItems_stops before item after st0 Hb Hall Hitem) as Hstop.
    destruct (addItems catalogFile targetType defaultBehavior
                (before ++ item :: after)%list st0) as [st r].
    destruct Hstop as [-> Hs]. cbn [failure trace].
    split; [ reflexivity | exact Hs ].
  - intros Hall.
    pose proof (addItems_spec items st0 Hb) as Hspec.
    destruct (addItems catalogFile targetType defaultBehavior items st0)
      as [st r].
    destruct Hspec as (Hs & Hiff & _).
    rewrite (proj2 Hiff Hall). cbn [trace manifest].
    rewrite filter_app, Hs. reflexivity.
Qed.

(** The declarations after one item. *)
Lemma addItem_category st item catalog :
  includes ":" item = false ->
  catalogFile item = Some catalog ->
  JsObject.wf catalog ->
  let actual := actualTargetType targetType defaultBehavior item in
  let st' := fst (addItem catalogFile targetType defaultBehavior st item) in
  snd (addItem catalogFile targetType defaultBehavior st item) = None
  /\ packageJson st'
     = PackageJson.set actual (assign (bucketOrEmpty actual (packageJson st)) catalog)
         (packageJson st)
  /\ (forall pkg,
         declared actual pkg (packageJson st')
         = match JsObject.get pkg catalog with
           | Some version => Some version
           | None => declared actual pkg (packageJson st)
           end)
  /\ (forall depType pkg,
         depType <> actual ->
         declared depType pkg (packageJson st')
         = declared depType pkg (packageJson st)).
Proof.
  intros Hcolon Hfile Hwf. cbv zeta. unfold addItem, loadCatalog.
  rewrite Hcolon, Hfile. cbn [fst snd packageJson].
  repeat split.
  - intros pkg. rewrite declared_set_same, get_assign by assumption.
    now rewrite declared_bucketOrEmpty.
  - intros depType pkg Hne. now apply declared_set_other.
Qed.

(** X10.  Adding a whole category gives every package of its catalog the
    version of the catalog in the bucket the category goes to, leaves every
    other package of that bucket and every other bucket as they were, and
    succeeds. *)
Theorem add_category_installs item catalog p :
  includes ":" item = false ->
  catalogFile item = Some catalog ->
  JsObject.wf catalog ->
  let actual := actualTargetType targetType defaultBehavior item in
  let outcome := add catalogFile [item] targetType defaultBehavior p in
  failure outcome = None
  /\ (forall pkg,
         declared actual pkg (manifest outcome)
         = match JsObject.get pkg catalog with
           | Some version => Some version
           | None => declared actual pkg p
           end)
  /\ (forall depType pkg,
         depType <> actual ->
         declared depType pkg (manifest outcome) = declared depType pkg p).
Proof.
  intros Hcolon Hfile Hwf. cbv zeta. unfold add. cbn [addItems].
  set (st0 := {| packageJson :=
                   PackageJson.set targetType (bucketOrEmpty targetType p) p;
                 events := [] |}).
  destruct (addItem_category st0 Hcolon Hfile Hwf) as (Hr & _ & Hin & Hout).
  destruct (addItem catalogFile targetType defaultBehavior st0 item) as [st r].
  cbn [fst snd] in *. subst r. cbn [failure manifest].
  split; [ reflexivity | ]. split.
  - intros pkg. rewrite Hin. subst st0. cbn [packageJson].
    now rewrite declared_create.
  - intros depType pkg Hne. rewrite Hout by assumption.
    subst st0. cbn [packageJson]. apply declared_create.
Qed.

(** X11.  Once [package.json] is read, adding one package as
    [category:package], with a name that is not inherited from
    [Object.prototype] and a category that can be loaded, declares it in the
    target bucket with the version of the catalog when the catalog has a
    version for it that is not empty, and prints that it was not found
    otherwise; no other declaration changes, and in both cases
    [savePackageJson] is called once with the resulting manifest. *)
Theorem add_package category packageName catalog p :
  includes ":" category = false ->
  includes ":" packageName = false ->
  JsObject.inherited packageName = false ->
  catalogFile category = Some catalog ->
  let outcome :=
    add catalogFile [category ++ ":" ++ packageName] targetType defaultBehavior p in
  filter isSave (trace outcome) = [SavePackageJson (manifest outcome)]
  /\ (forall depType pkg,
         depType <> targetType \/ pkg <> packageName ->
         declared depType pkg (manifest outcome) = declared depType pkg p)
  /\ match JsObject.get packageName catalog with
     | Some (String c rest) =>
         declared targetType packageName (manifest outcome) = Some (String c rest)
         /\ In (Log (Added packageName (String c rest) targetType)) (trace outcome)
     | _ =>
         declared targetType packageName (manifest outcome)
         = declared targetType packageName p
         /\ In (Log (PackageNotFound packageName category)) (trace outcome)
     end.
Proof.
  intros Hc Hp _ Hfile. cbv zeta.
  destruct (splitOn_colon category packageName Hc Hp) as [Hsplit Hinc].
  unfold add. cbn [addItems]. unfold addItem, loadCatalog.
  rewrite Hinc, Hsplit. cbn [nth]. rewrite Hfile.
  cbn [packageJson]. rewrite PackageJson_get_set_same.
  destruct (JsObject.get packageName catalog) as [[| c rest] |];
    cbn [truthy failure manifest trace packageJson events app].
  - split; [ reflexivity | ]. split; [ intros; apply declared_create | ].
    split; [ apply declared_create | now left ].
  - split; [ reflexivity | ]. rewrite PackageJson_set_set. split.
    + intros depType pkg [Hne | Hne].
      * rewrite declared_set_other by assumption.
        unfold declared. reflexivity.
      * destruct (DependencyType_dec depType targetType) as [-> | Ht].
        -- rewrite declared_set_same, get_set_other by assumption.
           apply declared_bucketOrEmpty.
        -- now rewrite declared_set_other by assumption.
    + split; [ rewrite declared_set_same; apply get_set_same | now left ].
  - split; [ reflexivity | ]. split; [ intros; apply declared_create | ].
    split; [ apply declared_create | now left ].
Qed.

(** X12.  With [--dev] or [--peer] nothing outside the chosen bucket is
    written, whatever the items and the default behaviour say; and without a
    default behaviour nothing outside [dependencies] is. *)
Theorem add_respects_flag items p depType :
  targetType <> dependencies \/ defaultBehavior = [] ->
  depType <> targetType ->
  PackageJson.get depType
    (manifest (add catalogFile items targetType defaultBehavior p))
  = PackageJson.get depType p.
Proof.
  intros Hflag Hne.
  assert (Hactual : forall item,
             actualTargetType targetType defaultBehavior item = targetType).
  { intros item. unfold actualTargetType.
    destruct Hflag as [Ht | ->].
    - destruct targetType; try reflexivity. now contradiction Ht.
    - now destruct targetType. }
  assert (Hloop : forall st,
             PackageJson.get depType
               (packageJson
                  (fst (addItems catalogFile targetType defaultBehavior items st)))
             = PackageJson.get depType (packageJson st)).
  { induction items as [| item rest IH]; intros st; cbn [addItems];
      [ reflexivity | ].
    assert (Hstep : PackageJson.get depType
                      (packageJson
                         (fst (addItem catalogFile targetType defaultBehavior st item)))
                    = PackageJson.get depType (packageJson st)).
    { unfold addItem. rewrite Hactual.
      destruct (includes ":" item).
      - destruct (loadCatalog catalogFile _) as [catalog |]; [ | reflexivity ].
        destruct (JsObject.get _ catalog) as [version |];
          [ destruct (truthy version) | ]; try reflexivity.
        destruct (PackageJson.get targetType (packageJson st)); [ | reflexivity ].
        cbn [fst packageJson]. now apply PackageJson_get_set_other.
      - destruct (loadCatalog catalogFile item) as [catalog |]; [ | reflexivity ].
        cbn [fst packageJson]. now apply PackageJson_get_set_other. }
    destruct (addItem catalogFile targetType defaultBehavior st item)
      as [st1 [e |]]; cbn [fst] in *; [ exact Hstep | ].
    rewrite IH. exact Hstep. }
  unfold add.
  set (st0 := {| packageJson :=
                   PackageJson.set targetType (bucketOrEmpty targetType p) p;
                 events := [] |}).
  specialize (Hloop st0).
  destruct (addItems catalogFile targetType defaultBehavior items st0)
    as [st [e |]]; cbn [fst manifest] in *; rewrite Hloop; subst st0;
    cbn [packageJson]; now apply PackageJson_get_set_other.
Qed.

(** X13.  Adding the same category a second time changes nothing: the
    manifest after two calls is the manifest after one. *)
Theorem add_category_twice item catalog p :
  includes ":" item = false ->
  catalogFile item = Some catalog ->
  JsObject.wf catalog ->
  let once := manifest (add catalogFile [item] targetType defaultBehavior p) in
  manifest (add catalogFile [item] targetType defaultBehavior once) = once.
Proof.
  intros Hcolon Hfile Hwf. cbv zeta. unfold add. cbn [addItems].
  unfold addItem, loadCatalog. rewrite Hcolon, Hfile.
  cbn [manifest packageJson].
  set (actual := actualTargetType targetType defaultBehavior item).
  set (p0 := PackageJson.set targetType (bucketOrEmpty targetType p) p).
  set (b1 := assign (bucketOrEmpty actual p0) catalog).
  set (p1 := PackageJson.set actual b1 p0).
  assert (Hcreate : PackageJson.set targetType (bucketOrEmpty targetType p1) p1 = p1).
  { apply PackageJson_set_get. unfold bucketOrEmpty.
    destruct (PackageJson.get targetType p1) eqn:E; [ reflexivity | ].
    exfalso. subst p1.
    destruct (DependencyType_dec targetType actual) as [Heq | Hne].
    - rewrite Heq in E at 1. rewrite PackageJson_get_set_same in E. discriminate.
    - rewrite PackageJson_get_set_other in E by assumption.
      subst p0. rewrite PackageJson_get_set_same in E. discriminate. }
  rewrite Hcreate.
  assert (Hb : bucketOrEmpty actual p1 = b1).
  { unfold bucketOrEmpty. subst p1. now rewrite PackageJson_get_set_same. }
  rewrite Hb. subst b1. rewrite assign_twice by assumption.
  subst p1. apply PackageJson_set_set.
Qed.

End AddFacts.

(** The manifest after a whole category was added: its buckets have
    distinct package names and the bucket of the category follows the
    catalog. *)
Lemma add_category_installs_aux
    catalogFile targetType defaultBehavior item catalog p :
  wfPackageJson p ->
  includes ":" item = false ->
  catalogFile item = Some catalog ->
  JsObject.wf catalog ->
  let actual := Add.actualTargetType targetType defaultBehavior item in
  let added := Add.manifest (Add.add catalogFile [item] targetType defaultBehavior p) in
  wfPackageJson added
  /\ (forall pkg,
         declared actual pkg added
         = match JsObject.get pkg catalog with
           | Some version => Some version
           | None => declared actual pkg p
           end).
Proof.
  intros Hwf Hcolon Hfile Hwfc. cbv zeta. unfold Add.add. cbn [Add.addItems].
  unfold Add.addItem, Add.loadCatalog. rewrite Hcolon, Hfile.
  cbn [Add.manifest Add.packageJson]. split.
  - apply wfPackageJson_set.
    + apply wfPackageJson_set; [ assumption | now apply wf_bucketOrEmpty ].
    + apply wf_assign, wf_bucketOrEmpty.
      apply wfPackageJson_set; [ assumption | now apply wf_bucketOrEmpty ].
  - intros pkg. rewrite declared_set_same, get_assign by assumption.
    now rewrite declared_bucketOrEmpty, declared_create.
Qed.

Section AddThenUpdate.
Import Add.
Context {L : SemverLib}.

(** X14.  After a whole category was added, reconciling against the catalog
    of that category finds no pending change in the bucket it was added to. *)
Theorem add_then_update
    catalogFile targetType defaultBehavior item catalog p updates hasUpdates :
  wfPackageJson p ->
  includes ":" item = false ->
  catalogFile item = Some catalog ->
  JsObject.wf catalog ->
  let added := manifest (add catalogFile [item] targetType defaultBehavior p) in
  collectUpdates added [(item, catalog)] = Ok (updates, hasUpdates) ->
  Updates.get (actualTargetType targetType defaultBehavior item) updates = [].
Proof.
  intros Hwf Hcolon Hfile Hwfc. cbv zeta.
  set (actual := actualTargetType targetType defaultBehavior item).
  destruct (@add_category_installs_aux catalogFile targetType defaultBehavior
              item catalog p Hwf Hcolon Hfile Hwfc) as (Hwfa & Hin).
  fold actual in Hin.
  intros Hc.
  edestruct collectUpdates_spec as (_ & Hscan & _); [ exact Hwfa | exact Hc | ].
  destruct (Updates.get actual updates) as [| [k info] rest] eqn:Hu;
    [ reflexivity | exfalso ].
  specialize (Hscan actual k). rewrite Hu in Hscan. unfold scanned in Hscan.
  cbn [JsObject.get] in Hscan. rewrite String.eqb_refl in Hscan.
  rewrite Hin in Hscan.
  destruct (JsObject.get k catalog) as [version |] eqn:Hk.
  - cbn [lastMatch matchOf] in Hscan. rewrite Hk, String.eqb_refl in Hscan.
    rewrite andb_false_r in Hscan. discriminate.
  - destruct (declared actual k p) as [cur |]; [ | discriminate ].
    cbn [lastMatch matchOf] in Hscan. rewrite Hk in Hscan. discriminate.
Qed.

End AddThenUpdate.

(* ================================================================== *)
(** * Properties of [checkAll] *)

Section CheckAllFacts.
Import CheckAll.
Variable pathJoin : string -> string -> string.
Variable readCatalog : string -> option (JsObject.t string).
Variable npmView : string -> Result string.

Lemma checkPackages_spec deps :
  forall st,
    exists lines,
      fold_left (checkPackage npmView) deps st
      = {| printed := (printed st ++ lines)%list;
           categoryUpdates :=
             categoryUpdates st
             + length (filter (UpdateChecker.changed npmView) deps);
           totalUpdates :=
             totalUpdates st
             + length (filter (UpdateChecker.changed npmView) deps) |}.
Proof.
  induction deps as [| [pkg version] rest IH]; intros st; cbn [fold_left filter].
  - exists []. rewrite app_nil_r, !Nat.add_0_r. now destruct st.
  - assert (Hch : UpdateChecker.changed npmView (pkg, version)
                  = match npmView pkg with
                    | Ok output => negb (String.eqb (trim output) version)
                    | Throw _ => false
                    end) by reflexivity.
    rewrite Hch. unfold checkPackage at 2.
    destruct (npmView pkg) as [output | error].
    + destruct (negb (String.eqb (trim output) version)).
      * destruct (IH {| printed := printed st ++ [Outdated pkg version (trim output)];
                        categoryUpdates := S (categoryUpdates st);
                        totalUpdates := S (totalUpdates st) |}) as (lines & ->).
        cbn [printed categoryUpdates totalUpdates length].
        exists ([Outdated pkg version (trim output)] ++ lines)%list.
        rewrite <- app_assoc. f_equal; lia.
      * apply IH.
    + destruct (IH {| printed := printed st ++ [ErrorChecking pkg (message error)];
                      categoryUpdates := categoryUpdates st;
                      totalUpdates := totalUpdates st |}) as (lines & ->).
      cbn [printed categoryUpdates totalUpdates].
      exists ([ErrorChecking pkg (message error)] ++ lines)%list.
      now rewrite <- app_assoc.
Qed.

Lemma checkCategory_spec catalogPath st category :
  exists lines,
    printed (checkCategory pathJoin readCatalog npmView catalogPath st category)
    = (printed st ++ lines ++ [verdict pathJoin readCatalog npmView catalogPath category])%list
    /\ totalUpdates (checkCategory pathJoin readCatalog npmView catalogPath st category)
       = totalUpdates st + outdated pathJoin readCatalog npmView catalogPath category.
Proof.
  unfold checkCategory, verdict, outdated.
  destruct (readCatalog (pathJoin catalogPath (category ++ ".json"))) as [deps |].
  - destruct (checkPackages_spec deps
                {| printed := printed st ++ [Checking category];
                   categoryUpdates := 0;
                   totalUpdates := totalUpdates st |}) as (lines & ->).
    cbn [printed categoryUpdates totalUpdates Nat.add].
    exists (Checking category :: lines).
    split; [ | reflexivity ]. now rewrite <- !app_assoc.
  - cbn [printed totalUpdates]. exists []. split; [ reflexivity | lia ].
Qed.

Lemma checkCategories_spec catalogPath categories :
  forall st,
    let st' := fold_left (checkCategory pathJoin readCatalog npmView catalogPath)
                 categories st in
    totalUpdates st'
    = totalUpdates st
      + list_sum (map (outdated pathJoin readCatalog npmView catalogPath) categories)
    /\ (forall line, In line (printed st) -> In line (printed st'))
    /\ (forall category, In category categories ->
                         In (verdict pathJoin readCatalog npmView catalogPath category) (printed st')).
Proof.
  induction categories as [| c rest IH]; intros st; cbn [fold_left map list_sum].
  - split; [ cbn; lia | ]. split; [ auto | intros category [] ].
  - destruct (checkCategory_spec catalogPath st c) as (lines & Hp & Ht).
    destruct (IH (checkCategory pathJoin readCatalog npmView catalogPath st c))
      as (Ht' & Hkeep & Hverdicts).
    cbv zeta. split; [ rewrite Ht', Ht; unfold list_sum; cbn [fold_right]; lia | ].
    split.
    + intros line Hin. apply Hkeep. rewrite Hp. apply in_or_app. now left.
    + intros category [<- | Hin]; [ | now apply Hverdicts ].
      apply Hkeep. rewrite Hp. apply in_or_app. right. apply in_or_app.
      right. now left.
Qed.

(** X15.  The total that [checkAll] reports is the number of packages, over
    all categories that can be read, for which the registry gives another
    version; it prints that total, and for every category either the number
    of its outdated packages, that it is up to date, or that its file is
    skipped. *)
Theorem checkAll_counts catalogPath categories :
  let (lines, total) :=
    checkAll pathJoin readCatalog npmView catalogPath categories in
  total = list_sum (map (outdated pathJoin readCatalog npmView catalogPath) categories)
  /\ In (Summary total) lines
  /\ (forall category, In category categories ->
                       In (verdict pathJoin readCatalog npmView catalogPath category) lines).
Proof.
  unfold checkAll.
  destruct (checkCategories_spec catalogPath categories
              {| printed := []; categoryUpdates := 0; totalUpdates := 0 |})
    as (Ht & _ & Hv).
  cbv zeta in Ht, Hv. cbn [totalUpdates Nat.add] in Ht.
  split; [ exact Ht | ]. split.
  - apply in_or_app. right. now left.
  - intros category Hin. apply in_or_app. left. now apply Hv.
Qed.

End CheckAllFacts.

(* ================================================================== *)
(** * Catalog files across runs *)

Lemma append_neq (s t : string) : t <> "" -> s ++ t <> s.
Proof.
  intros Ht. induction s as [| c s IH]; cbn [append].
  - exact Ht.
  - intros [= H]. now apply IH.
Qed.

Section CatalogFilesFacts.
Import UpdateChecker CatalogFiles.
Variable pathJoin : string -> string -> string.
Variable npmView : string -> Result string.

(** A refreshed catalog is not changed by a second look at the registry. *)
Lemma refreshed_stable deps :
  filter (changed npmView) (map (refreshed npmView) deps) = [].
Proof.
  induction deps as [| [pkg version] rest IH]; cbn [map filter]; [ reflexivity | ].
  unfold refreshed at 1, changed at 1. cbn [fst snd].
  destruct (npmView pkg) as [output | error] eqn:Hview; cbn [fst snd];
    rewrite Hview; [ now rewrite String.eqb_refl | exact IH ].
Qed.

Lemma refreshed_wf deps :
  JsObject.wf deps -> JsObject.wf (map (refreshed npmView) deps).
Proof.
  unfold JsObject.wf, JsObject.keys. rewrite map_map.
  assert (H : map (fun x => fst (refreshed npmView x)) deps = map fst deps).
  { apply map_ext. intros entry. unfold refreshed.
    now destruct (npmView (fst entry)). }
  now rewrite H.
Qed.

Lemma run_logs (fs : Fs) events :
  forallb isLog events = true ->
  run fs events = fs /\ filter touches events = [].
Proof.
  unfold run. revert fs.
  induction events as [| e rest IH]; intros fs; cbn [forallb fold_left filter];
    [ now split | ].
  intros H. apply andb_true_iff in H as [He Hrest].
  destruct e; try discriminate He. cbn [perform touches isCopyFile isWriteFile orb].
  now apply IH.
Qed.

(** The events of one run, by whether something changed. *)
Lemma updateCategory_events (fs : Fs) catalogPath category deps :
  let filePath := pathJoin catalogPath (category ++ ".json") in
  fs filePath = Some deps ->
  JsObject.wf deps ->
  updateCategory pathJoin fs npmView catalogPath category
  = ((Log (Updating category) :: map (lineFor npmView) deps)
     ++ (if (0 <? length (filter (changed npmView) deps))%nat
         then [CopyFile filePath (filePath ++ ".backup");
               WriteFile filePath (map (refreshed npmView) deps);
               Log (UpdatedSuccessfully category (filePath ++ ".backup"))]
         else [Log (NoUpdatesNeeded category)]))%list.
Proof.
  intros filePath Hread Hwf. unfold updateCategory. fold filePath.
  rewrite Hread, (refreshLoop_spec npmView category Hwf).
  cbn [updateCount printed updatedDeps].
  now destruct (0 <? _)%nat.
Qed.

Lemma run_lines (fs : Fs) category deps tail :
  run fs ((Log (Updating category) :: map (lineFor npmView) deps) ++ tail)%list
  = run fs tail.
Proof.
  unfold run. rewrite fold_left_app. f_equal.
  apply (run_logs fs (Log (Updating category) :: map (lineFor npmView) deps)).
  cbn [forallb isLog andb]. apply lineFor_isLog.
Qed.

(** X16.  A run of [updateCategory] that finds a new version leaves the
    refreshed catalog in the catalog file and the catalog as it was in the
    backup file, and touches no other file; a run that finds none touches no
    file at all. *)
Theorem updateCategory_files (fs : Fs) catalogPath category deps :
  let filePath := pathJoin catalogPath (category ++ ".json") in
  let (events, fs') := updateCategoryOn pathJoin npmView fs catalogPath category in
  fs filePath = Some deps ->
  JsObject.wf deps ->
  (filter (changed npmView) deps <> [] ->
   fs' filePath = Some (map (refreshed npmView) deps)
   /\ fs' (filePath ++ ".backup") = Some deps
   /\ forall path, path <> filePath -> path <> filePath ++ ".backup" ->
                   fs' path = fs path)
  /\ (filter (changed npmView) deps = [] ->
      filter touches events = [] /\ forall path, fs' path = fs path).
Proof.
  unfold updateCategoryOn. intros Hread Hwf.
  set (filePath := pathJoin catalogPath (category ++ ".json")) in *.
  rewrite (updateCategory_events fs catalogPath category Hread Hwf).
  fold filePath. rewrite run_lines. split.
  - intros Hne.
    destruct (filter (changed npmView) deps); [ contradiction | ].
    cbn [length Nat.ltb Nat.leb run fold_left perform].
    unfold writeFile, copyFile. repeat split.
    + now rewrite String.eqb_refl.
    + assert (Hneq : filePath ++ ".backup" <> filePath)
        by (apply append_neq; discriminate).
      apply String.eqb_neq in Hneq. rewrite Hneq.
      now rewrite String.eqb_refl.
    + intros path H1 H2. apply String.eqb_neq in H1, H2. now rewrite H1, H2.
  - intros ->. cbn [length Nat.ltb Nat.leb]. split.
    + rewrite filter_app.
      destruct (run_logs fs (Log (Updating category) :: map (lineFor npmView) deps))
        as [_ ->]; [ cbn [forallb isLog andb]; apply lineFor_isLog | ].
      reflexivity.
    + reflexivity.
Qed.

(** X17.  Refreshing a category twice against the same registry: the second
    run finds the catalog that the first one left, copies and writes
    nothing, and leaves every file as it is. *)
Theorem updateCategory_twice (fs : Fs) catalogPath category deps :
  let filePath := pathJoin catalogPath (category ++ ".json") in
  fs filePath = Some deps ->
  JsObject.wf deps ->
  let fs1 := snd (updateCategoryOn pathJoin npmView fs catalogPath category) in
  let second := updateCategoryOn pathJoin npmView fs1 catalogPath category in
  fs1 filePath = Some (map (refreshed npmView) deps)
  /\ filter touches (fst second) = []
  /\ forall path, snd second path = fs1 path.
Proof.
  intros filePath Hread Hwf. cbv zeta. unfold updateCategoryOn. cbn [fst snd].
  assert (H1 : run fs (updateCategory pathJoin fs npmView catalogPath category)
                 filePath = Some (map (refreshed npmView) deps)).
  { rewrite (updateCategory_events fs catalogPath category Hread Hwf).
    fold filePath. rewrite run_lines.
    destruct (filter (changed npmView) deps) as [| entry rest] eqn:Hch.
    - cbn [length Nat.ltb Nat.leb run fold_left perform]. rewrite Hread. f_equal.
      clear Hread Hwf. induction deps as [| [pkg version] more IH];
        [ reflexivity | ].
      cbn [filter map] in *. unfold changed at 1 in Hch. unfold refreshed at 1.
      cbn [fst snd] in *. destruct (npmView pkg) as [output | error].
      + destruct (String.eqb_spec (trim output) version) as [<- | Hne];
          cbn [negb] in Hch; [ | discriminate ].
        f_equal. now apply IH.
      + f_equal. now apply IH.
    - cbn [length Nat.ltb Nat.leb run fold_left perform].
      unfold writeFile. now rewrite String.eqb_refl. }
  split; [ exact H1 | ].
  rewrite (updateCategory_events _ catalogPath category H1 (refreshed_wf Hwf)).
  rewrite refreshed_stable. cbn [length Nat.ltb Nat.leb].
  fold filePath.
  set (lines := (Log (Updating category)
                 :: map (lineFor npmView) (map (refreshed npmView) deps))).
  assert (Hlogs : forallb isLog (lines ++ [Log (NoUpdatesNeeded category)]) = true).
  { subst lines. rewrite forallb_app. cbn [forallb isLog andb].
    now rewrite lineFor_isLog. }
  split.
  - now apply run_logs.
  - intros path. now rewrite (proj1 (run_logs _ _ Hlogs)).
Qed.

End CatalogFilesFacts.

Section UpdateAllFacts.
Import UpdateChecker CatalogFiles.
Variable pathJoin : string -> string -> string.
Variable npmView : string -> Result string.
Variable catalogPath : string.

Let file (category : string) : string := pathJoin catalogPath (category ++ ".json").

(** The files after one run, path by path. *)
Lemma updateCategoryOn_files (fs : Fs) category deps :
  fs (file category) = Some deps ->
  JsObject.wf deps ->
  forall path,
    snd (updateCategoryOn pathJoin npmView fs catalogPath category) path
    = if (0 <? length (filter (changed npmView) deps))%nat
      then if String.eqb path (file category)
           then Some (map (refreshed npmView) deps)
           else if String.eqb path (file category ++ ".backup")
                then Some deps else fs path
      else fs path.
Proof.
  intros Hread Hwf path. unfold updateCategoryOn. cbn [snd].
  rewrite (updateCategory_events pathJoin npmView fs catalogPath category Hread Hwf).
  rewrite run_lines. fold (file category).
  destruct (0 <? _)%nat; [ | reflexivity ].
  cbn [run fold_left perform]. unfold writeFile, copyFile.
  destruct (String.eqb path (file category)); [ reflexivity | ].
  destruct (String.eqb path (file category ++ ".backup")); [ | reflexivity ].
  exact Hread.
Qed.

(** After a run the catalog of the category needs no refresh. *)
Lemma updateCategoryOn_settles (fs : Fs) category :
  (forall deps, fs (file category) = Some deps -> JsObject.wf deps) ->
  settled npmView
    (snd (updateCategoryOn pathJoin npmView fs catalogPath category))
    (file category).
Proof.
  intros Hwf. unfold settled.
  destruct (fs (file category)) as [deps |] eqn:Hread.
  - rewrite (updateCategoryOn_files fs category Hread (Hwf deps eq_refl)).
    destruct (filter (changed npmView) deps) as [| entry rest] eqn:Hch.
    + cbn [length Nat.ltb Nat.leb]. rewrite Hread. split; [ now apply Hwf | assumption ].
    + cbn [length Nat.ltb Nat.leb]. rewrite String.eqb_refl.
      split; [ apply refreshed_wf; now apply Hwf | apply refreshed_stable ].
  - unfold updateCategoryOn, updateCategory. cbn [snd]. fold (file category).
    rewrite Hread. cbn [run fold_left perform]. now rewrite Hread.
Qed.

(** A run on a catalog that needs no refresh touches no file. *)
Lemma updateCategoryOn_settled (fs : Fs) category :
  settled npmView fs (file category) ->
  filter touches (fst (updateCategoryOn pathJoin npmView fs catalogPath category)) = []
  /\ forall path,
       snd (updateCategoryOn pathJoin npmView fs catalogPath category) path = fs path.
Proof.
  unfold settled. destruct (fs (file category)) as [deps |] eqn:Hread.
  - intros [Hwf Hch]. split.
    + unfold updateCategoryOn. cbn [fst].
      rewrite (updateCategory_events pathJoin npmView fs catalogPath category
                 Hread Hwf).
      rewrite Hch. cbn [length Nat.ltb Nat.leb].
      apply run_logs with (fs := fs).
      rewrite forallb_app. cbn [forallb isLog andb]. now rewrite lineFor_isLog.
    + intros path. rewrite (updateCategoryOn_files fs category Hread Hwf).
      now rewrite Hch.
  - intros _. unfold updateCategoryOn, updateCategory. fold (file category).
    rewrite Hread. split; reflexivity.
Qed.

(** A run leaves the catalog files of the other categories alone. *)
Lemma updateCategoryOn_others (fs : Fs) category path :
  (forall deps, fs (file category) = Some deps -> JsObject.wf deps) ->
  path <> file category ->
  path <> file category ++ ".backup" ->
  snd (updateCategoryOn pathJoin npmView fs catalogPath category) path = fs path.
Proof.
  intros Hwf H1 H2. destruct (fs (file category)) as [deps |] eqn:Hread.
  - rewrite (updateCategoryOn_files fs category Hread (Hwf deps eq_refl)).
    apply String.eqb_neq in H1, H2. rewrite H1, H2. now destruct (0 <? _)%nat.
  - unfold updateCategoryOn, updateCategory. fold (file category).
    now rewrite Hread.
Qed.

Lemma updateAll_cons (fs : Fs) category rest :
  updateAll pathJoin npmView fs catalogPath (category :: rest)
  = let first := updateCategoryOn pathJoin npmView fs catalogPath category in
    let others := updateAll pathJoin npmView (snd first) catalogPath rest in
    ((fst first ++ fst others)%list, snd others).
Proof.
  cbn [updateAll].
  destruct (updateCategoryOn pathJoin npmView fs catalogPath category) as [e1 fs1].
  cbn [fst snd].
  now destruct (updateAll pathJoin npmView fs1 catalogPath rest).
Qed.

Section Pass.
Variable categories : list string.
Hypothesis no_backup_clash :
  forall c c', In c categories -> In c' categories ->
               file c' <> file c ++ ".backup".

(** One run keeps the catalogs well formed and keeps settled what was. *)
Lemma updateCategoryOn_keeps (fs : Fs) category :
  In category categories ->
  readable pathJoin catalogPath categories fs ->
  let fs' := snd (updateCategoryOn pathJoin npmView fs catalogPath category) in
  readable pathJoin catalogPath categories fs'
  /\ settled npmView fs' (file category)
  /\ (forall c, In c categories -> settled npmView fs (file c) ->
                settled npmView fs' (file c)).
Proof.
  intros Hin Hread. cbv zeta.
  assert (Hwf : forall deps, fs (file category) = Some deps -> JsObject.wf deps)
    by (intros deps; now apply Hread).
  pose proof (updateCategoryOn_settles fs category Hwf) as Hset.
  assert (Hother : forall c, In c categories -> file c <> file category ->
             snd (updateCategoryOn pathJoin npmView fs catalogPath category) (file c)
             = fs (file c)).
  { intros c Hc Hne. apply updateCategoryOn_others; auto. }
  split; [ | split; [ exact Hset | ] ].
  - intros c deps Hc. change (pathJoin catalogPath (c ++ ".json")) with (file c).
    destruct (string_dec (file c) (file category)) as [E | Hne].
    + rewrite E. intros Hd. unfold settled in Hset. rewrite Hd in Hset.
      apply Hset.
    + rewrite (Hother c Hc Hne). now apply Hread.
  - intros c Hc Hs.
    destruct (string_dec (file c) (file category)) as [E | Hne].
    + now rewrite E.
    + unfold settled. rewrite (Hother c Hc Hne). exact Hs.
Qed.

Lemma updateAll_settles todo :
  forall (fs : Fs) done,
    (forall c, In c todo -> In c categories) ->
    (forall c, In c done -> In c categories) ->
    readable pathJoin catalogPath categories fs ->
    (forall c, In c done -> settled npmView fs (file c)) ->
    let fs' := snd (updateAll pathJoin npmView fs catalogPath todo) in
    readable pathJoin catalogPath categories fs'
    /\ forall c, In c done \/ In c todo -> settled npmView fs' (file c).
Proof.
  induction todo as [| category rest IH]; intros fs done Htodo Hdone Hread Hset.
  - cbn [updateAll snd]. split; [ assumption | ].
    intros c [Hc | []]. now apply Hset.
  - rewrite updateAll_cons. cbv zeta. cbn [snd].
    destruct (@updateCategoryOn_keeps fs category (Htodo _ (or_introl eq_refl)) Hread)
      as (Hread1 & Hset1 & Hkeep1).
    destruct (IH (snd (updateCategoryOn pathJoin npmView fs catalogPath category))
                (category :: done)) as (Hread2 & Hset2).
    + intros c Hc. apply Htodo. now right.
    + intros c [<- | Hc]; [ apply Htodo; now left | now apply Hdone ].
    + exact Hread1.
    + intros c [<- | Hc]; [ exact Hset1 | ].
      apply Hkeep1; [ now apply Hdone | now apply Hset ].
    + split; [ exact Hread2 | ].
      intros c [Hc | [<- | Hc]]; apply Hset2.
      * left. now right.
      * left. now left.
      * now right.
Qed.

Lemma updateAll_settled todo :
  forall fs : Fs,
    (forall c, In c todo -> settled npmView fs (file c)) ->
    filter touches (fst (updateAll pathJoin npmView fs catalogPath todo)) = []
    /\ forall path,
         snd (updateAll pathJoin npmView fs catalogPath todo) path = fs path.
Proof.
  induction todo as [| category rest IH]; intros fs Hset.
  - cbn [updateAll fst snd filter]. now split.
  - rewrite updateAll_cons. cbv zeta. cbn [fst snd].
    destruct (@updateCategoryOn_settled fs category (Hset _ (or_introl eq_refl)))
      as (Hnone & Hsame).
    destruct (IH (snd (updateCategoryOn pathJoin npmView fs catalogPath category)))
      as (Hnone2 & Hsame2).
    + intros c Hc. unfold settled. rewrite Hsame. apply Hset. now right.
    + split.
      * now rewrite filter_app, Hnone, Hnone2.
      * intros path. now rewrite Hsame2, Hsame.
Qed.

End Pass.

(** X21.  Refreshing all categories twice against the same registry: when no
    catalog file is the backup file of another category, the second pass
    copies and writes nothing and leaves every file as the first pass left
    it. *)
Theorem updateAll_twice (fs : Fs) categories :
  (forall c c', In c categories -> In c' categories ->
                pathJoin catalogPath (c' ++ ".json")
                <> pathJoin catalogPath (c ++ ".json") ++ ".backup") ->
  (forall c deps, In c categories ->
                  fs (pathJoin catalogPath (c ++ ".json")) = Some deps ->
                  JsObject.wf deps) ->
  let fs1 := snd (updateAll pathJoin npmView fs catalogPath categories) in
  let second := updateAll pathJoin npmView fs1 catalogPath categories in
  filter touches (fst second) = []
  /\ forall path, snd second path = fs1 path.
Proof.
  intros Hclash Hread. cbv zeta.
  destruct (@updateAll_settles categories Hclash categories fs []) as (_ & Hset);
    auto; try (now intros c []).
  apply updateAll_settled. intros c Hc. apply Hset. now right.
Qed.

End UpdateAllFacts.

(* ================================================================== *)
(** * More about [validateCatalog] *)

Lemma filter_nil_iff {A : Type} (f : A -> bool) (l : list A) :
  filter f l = [] <-> forall x, In x l -> f x = false.
Proof.
  induction l as [| x l IH]; cbn [filter].
  - split; [ intros _ x [] | reflexivity ].
  - destruct (f x) eqn:E.
    + split; [ discriminate | ]. intros H.
      rewrite (H x (or_introl eq_refl)) in E. discriminate.
    + rewrite IH. split.
      * intros H y [<- | Hy]; auto.
      * intros H y Hy. apply H. now right.
Qed.

Section ValidatorMore.
Import Validator.
Variable pathJoin : string -> string -> string.
Variable access : string -> bool.
Variable readJson : string -> FileContent.

Lemma checkCategory_unit catalogPath category r :
  checkCategory pathJoin readJson catalogPath tt category = Ok r -> r = tt.
Proof. now destruct r. Qed.

Lemma checkCategories_iff catalogPath categories :
  forEach (checkCategory pathJoin readJson catalogPath) categories tt = Ok tt
  <-> forall category, In category categories ->
        exists json,
          readJson (pathJoin catalogPath (category ++ ".json")) = Parsed json
          /\ accepted json = true.
Proof.
  induction categories as [| c rest IH]; cbn [forEach].
  - split; [ intros _ category [] | reflexivity ].
  - split.
    + destruct (checkCategory pathJoin readJson catalogPath tt c) as [[] |] eqn:Hc;
        cbn [bind]; [ | discriminate ].
      intros Hrest category [<- | Hin]; [ | now apply (proj1 IH Hrest) ].
      unfold checkCategory in Hc.
      destruct (readJson (pathJoin catalogPath (c ++ ".json"))) as [e | msg | json]
        eqn:Hread; try discriminate.
      exists json. split; [ reflexivity | ].
      apply (checkCategory_iff pathJoin readJson catalogPath c Hread).
      unfold checkCategory. now rewrite Hread.
    + intros Hall. destruct (Hall c (or_introl eq_refl)) as (json & Hread & Hacc).
      apply (checkCategory_iff pathJoin readJson catalogPath c Hread) in Hacc.
      rewrite Hacc. cbn [bind]. apply IH. intros category Hin. apply Hall.
      now right.
Qed.

(** X18.  [validateCatalog] succeeds exactly when the catalog path can be
    accessed, the file of every category can be accessed, and every one of
    these files parses to an object or an array whose values are all
    strings. *)
Theorem validateCatalog_ok_iff catalogPath categories :
  validateCatalog pathJoin access readJson catalogPath categories = Ok tt
  <-> access catalogPath = true
      /\ (forall category, In category categories ->
            access (pathJoin catalogPath (category ++ ".json")) = true)
      /\ (forall category, In category categories ->
            exists json,
              readJson (pathJoin catalogPath (category ++ ".json")) = Parsed json
              /\ accepted json = true).
Proof.
  unfold validateCatalog.
  set (missing := filter _ categories).
  assert (Hmissing : missing = [] <->
                     forall category, In category categories ->
                       access (pathJoin catalogPath (category ++ ".json")) = true).
  { subst missing. rewrite filter_nil_iff. split.
    - intros H category Hin. apply negb_false_iff. now apply H.
    - intros H category Hin. apply negb_false_iff. now apply H. }
  destruct (access catalogPath); cbn [negb].
  - destruct missing as [| m ms] eqn:Hm; cbn [length Nat.ltb Nat.leb].
    + rewrite checkCategories_iff. split.
      * intros H. repeat split; [ now apply Hmissing | exact H ].
      * now intros (_ & _ & H).
    + split; [ discriminate | ].
      intros (_ & Hall & _). apply Hmissing in Hall. discriminate.
  - split; [ discriminate | now intros (H & _) ].
Qed.

(** X19.  When the catalog path and every file can be accessed and the
    categories before some category are all well formed, [validateCatalog]
    fails with the error of that category: broken JSON, a value that is
    null, a number, a boolean or a string at the top, or, in an object, the
    first package whose value is not a string, named with the category. *)
Theorem validateCatalog_first_error catalogPath good bad rest :
  access catalogPath = true ->
  (forall category, In category (good ++ bad :: rest) ->
     access (pathJoin catalogPath (category ++ ".json")) = true) ->
  (forall category, In category good ->
     exists json,
       readJson (pathJoin catalogPath (category ++ ".json")) = Parsed json
       /\ accepted json = true) ->
  let result :=
    validateCatalog pathJoin access readJson catalogPath (good ++ bad :: rest) in
  match readJson (pathJoin catalogPath (bad ++ ".json")) with
  | ReadFails e => result = Throw e
  | SyntaxError msg =>
      result = Throw (Error ("Invalid JSON in " ++ bad ++ ".json: " ++ msg))
  | Parsed (JObject members) =>
      forall strings pkg version others,
        members = (strings ++ (pkg, version) :: others)%list ->
        forallb (fun entry => typeofString (snd entry)) strings = true ->
        typeofString version = false ->
        result = Throw (Error ("Invalid version for " ++ pkg ++ " in " ++ bad
                               ++ ".json: must be a string"))
  | Parsed (JArray _) => True
  | Parsed _ =>
      result = Throw (Error ("Invalid format in " ++ bad
                             ++ ".json: must be an object"))
  end.
Proof.
  intros Hdir Hfiles Hgood. cbv zeta.
  assert (Hrun : validateCatalog pathJoin access readJson catalogPath
                   (good ++ bad :: rest)
                 = (_ <- checkCategory pathJoin readJson catalogPath tt bad ;;
                    forEach (checkCategory pathJoin readJson catalogPath) rest tt)).
  { unfold validateCatalog. rewrite Hdir. cbn [negb].
    rewrite (proj2 (filter_nil_iff _ (good ++ bad :: rest))).
    - cbn [length Nat.ltb Nat.leb].
      clear Hfiles. induction good as [| c good IH]; cbn [app forEach].
      + destruct (checkCategory pathJoin readJson catalogPath tt bad) as [[] |];
          reflexivity.
      + destruct (Hgood c (or_introl eq_refl)) as (json & Hread & Hacc).
        apply (checkCategory_iff pathJoin readJson catalogPath c Hread) in Hacc.
        rewrite Hacc. cbn [bind]. apply IH.
        intros category Hin. apply Hgood. now right.
    - intros category Hin. apply negb_false_iff. now apply Hfiles. }
  rewrite Hrun. clear Hrun. unfold checkCategory.
  destruct (readJson (pathJoin catalogPath (bad ++ ".json"))) as [e | msg | json];
    [ reflexivity | reflexivity | ].
  destruct json; cbn [typeofObject isNull negb orb bind entries];
    try reflexivity; try exact I.
  intros strings pkg version others -> Hstrings Hversion.
  assert (Hentries : forEach (checkEntry bad)
                       (strings ++ (pkg, version) :: others) tt
                     = Throw (Error ("Invalid version for " ++ pkg ++ " in " ++ bad
                                     ++ ".json: must be a string"))).
  { induction strings as [| [k v] strings IH]; cbn [app forEach].
    - unfold checkEntry at 1. now rewrite Hversion.
    - cbn [forallb snd] in Hstrings. apply andb_true_iff in Hstrings as [Hv Hs].
      unfold checkEntry at 1. rewrite Hv. cbn [negb bind]. now apply IH. }
  now rewrite Hentries.
Qed.

End ValidatorMore.

(* ================================================================== *)
(** * More about [compareVersions] *)

Section CompareVersionsMore.
Context {L : SemverLib}.

(** X20.  Without a range operator in front of [current], the comparator
    only looks at what is left of the two strings once [^ ~ > = <] are
    removed: a caret or a tilde in front of [current] makes no difference,
    and a range in the catalog is compared as the version inside it. *)
Theorem compareVersions_ignores_operators current current' target target' :
  startsWithRangeOperator current = false ->
  startsWithRangeOperator current' = false ->
  stripOperators current = stripOperators current' ->
  stripOperators target = stripOperators target' ->
  compareVersions current target = compareVersions current' target'.
Proof.
  intros Hc Hc' Ecur Etgt.
  rewrite !compareVersions_clean_branch by assumption.
  now rewrite Ecur, Etgt.
Qed.

End CompareVersionsMore.

(* ================================================================== *)
(** * Scenarios, evaluated with the reference instance *)

Module Examples.
Import Scenarios.

Ltac wf_buckets :=
  let t := fresh "t" in
  let b := fresh "b" in
  let H := fresh "H" in
  intros t b H; destruct t; cbn in H; try discriminate H;
  injection H as <-; unfold JsObject.wf; cbn;
  repeat (constructor; [ cbn; intuition discriminate | ]); constructor.

Ltac wf_updates :=
  let t := fresh "t" in
  intros t; destruct t; unfold JsObject.wf; cbn;
  repeat (constructor; [ cbn; intuition discriminate | ]); constructor.

Lemma reactRuntime_wf : wfPackageJson reactRuntime.
Proof. wf_buckets. Defined.

Lemma reactPeer_wf : wfPackageJson reactPeer.
Proof. wf_buckets. Defined.

Lemma bothFlags_wf : wfUpdates bothFlags.
Proof. wf_updates. Defined.

(** The examples of the specification. *)
Example classify_caret :
  @compareVersions RefSemver.lib "^2.0.0" "1.5.0"
  = Ok {| isDowngrade := true; isRangeSatisfied := None |}.
Proof. reflexivity. Qed.

Example classify_equal :
  @compareVersions RefSemver.lib "1.0.0" "1.0.0"
  = Ok {| isDowngrade := false; isRangeSatisfied := None |}.
Proof. reflexivity. Qed.

Example classify_range_satisfied :
  @compareVersions RefSemver.lib ">=1.0.0" "1.5.0"
  = Ok {| isDowngrade := false; isRangeSatisfied := Some true |}.
Proof. reflexivity. Qed.

Example classify_range_unsatisfied :
  @compareVersions RefSemver.lib ">=2.0.0" "1.5.0"
  = Ok {| isDowngrade := false; isRangeSatisfied := Some false |}.
Proof. reflexivity. Qed.

Example reconcile_upgrade :
  @update RefSemver.lib false reactRuntime core18 yes
  = Ok {| manifest := {| PackageJson.deps := Some [("react", "18.2.0")];
                         PackageJson.devDeps := None;
                         PackageJson.peerDeps := None |};
          trace := [Log UpdatesAvailable; Log (BucketHeader dependencies);
                    Log (UpdateLine "react" "17.0.0" "18.2.0" "core" false None);
                    Log Blank;
                    SavePackageJson
                      {| PackageJson.deps := Some [("react", "18.2.0")];
                         PackageJson.devDeps := None;
                         PackageJson.peerDeps := None |};
                    Log Updated] |}.
Proof. reflexivity. Qed.

Example reconcile_peer_satisfied :
  @update RefSemver.lib false reactPeer core18 yes
  = Ok {| manifest := reactPeer;
          trace := [Log UpdatesAvailable; Log (BucketHeader peerDependencies);
                    Log (UpdateLine "react" ">=17.0.0" "18.2.0" "core" false
                           (Some true));
                    Log Blank;
                    Log (Skipping "react" ">=17.0.0" "18.2.0");
                    SavePackageJson reactPeer;
                    Log Updated] |}.
Proof. reflexivity. Qed.

(** A change with both flags: the question is asked and accepted, and the
    change is skipped all the same. *)
Example apply_both_flags :
  @applyUpdates yes bothFlags
    {| packageJson := reactPeer; events := []; asked := 0 |}
  = Ok {| packageJson := reactPeer;
          events := [Prompt "react" ">=17.0.0" "16.0.0" "y";
                     Log (Skipping "react" ">=17.0.0" "16.0.0")];
          asked := 1 |}.
Proof. reflexivity. Qed.

(** ** Witnesses *)

Lemma compareVersions_downgrade_iff_witness :
  @compareVersions RefSemver.lib "^2.0.0" "1.5.0"
  = Ok {| isDowngrade := true; isRangeSatisfied := None |}
  /\ @compareVersions RefSemver.lib "^2.0.0" "^2.0.0"
     = Ok {| isDowngrade := false; isRangeSatisfied := None |}.
Proof.
  assert (Hcur : @bareOrCaretTilde RefSemver.lib "^2.0.0").
  { exists "2.0.0". split; [ eexists; reflexivity | right; left; reflexivity ]. }
  destruct (@compareVersions_downgrade_iff RefSemver.lib "^2.0.0" "1.5.0" Hcur)
    as (_ & Hiff & _ & Hsame).
  split; [ | exact Hsame ].
  apply Hiff. do 2 eexists. repeat split; reflexivity.
Defined.

Lemma compareVersions_range_witness :
  @compareVersions RefSemver.lib ">=1.0.0" "1.5.0"
  = Ok {| isDowngrade := false; isRangeSatisfied := Some true |}.
Proof.
  exact (proj1 (@compareVersions_range RefSemver.lib ">=1.0.0" "1.5.0"
                  (or_introl eq_refl))).
Defined.

Lemma compareVersions_failures_witness :
  @compareVersions RefSemver.lib "^banana" "1.0.0"
  = Throw (TypeError "Invalid Version: banana")
  /\ @compareVersions RefSemver.lib "1.0.0" "banana"
     = Throw (TypeError "Invalid Version: banana")
  /\ (exists r, @compareVersions RefSemver.lib ">=banana" "banana" = Ok r)
  /\ @compareVersions RefSemver.lib ">=1.0.0" "banana"
     = Ok {| isDowngrade := false; isRangeSatisfied := Some false |}
  /\ @compareVersions RefSemver.lib ">=banana" "1.0.0"
     = Ok {| isDowngrade := false; isRangeSatisfied := Some false |}.
Proof.
  split; [ | split; [ | split; [ | split ] ] ].
  - apply (proj2 (@compareVersions_failures RefSemver.lib "^banana" "1.0.0") eq_refl).
    left. reflexivity.
  - apply (proj2 (@compareVersions_failures RefSemver.lib "1.0.0" "banana") eq_refl).
    right. split; [ eexists; reflexivity | reflexivity ].
  - exact (proj1 (proj1 (@compareVersions_failures RefSemver.lib ">=banana" "banana")
                    eq_refl)).
  - apply (proj2 (proj1 (@compareVersions_failures RefSemver.lib ">=1.0.0" "banana")
                    eq_refl)).
    left. eexists. reflexivity.
  - apply (proj2 (proj1 (@compareVersions_failures RefSemver.lib ">=banana" "1.0.0")
                    eq_refl)).
    right. reflexivity.
Defined.

Lemma update_skips_satisfied_peer_witness :
  exists outcome,
    @update RefSemver.lib false reactPeer core18 no = Ok outcome
    /\ declared peerDependencies "react" (manifest outcome) = Some ">=17.0.0".
Proof.
  destruct (@update_skips_satisfied_peer RefSemver.lib reactPeer core18 no
              {| Updates.deps := []; Updates.devDeps := [];
                 Updates.peerDeps :=
                   [("react", reactChange ">=17.0.0" "18.2.0" "core" (Some true))] |}
              true reactPeer_wf eq_refl)
    as ((outcome & Hout & Hkeep) & _).
  exists outcome. split; [ exact Hout | ].
  exact (proj1 (Hkeep "react" _ eq_refl eq_refl)).
Defined.

Lemma update_dryRun_witness :
  @update RefSemver.lib true mixed coreAndTools no
  = Ok {| manifest := mixed;
          trace := [Log UpdatesAvailable;
                    Log (BucketHeader dependencies);
                    Log (UpdateLine "react" "17.0.0" "18.2.0" "core" false None);
                    Log Blank;
                    Log (BucketHeader devDependencies);
                    Log (UpdateLine "typescript" "5.4.0" "5.0.0" "tools" true None);
                    Log Blank;
                    Log (BucketHeader peerDependencies);
                    Log (UpdateLine "react" ">=17.0.0" "18.2.0" "core" false
                           (Some true));
                    Log Blank;
                    Log DryRunNotice] |}
  /\ exists outcome,
      @update RefSemver.lib true mixed coreAndTools no = Ok outcome
      /\ manifest outcome = mixed
      /\ filter isPrompt (trace outcome) = []
      /\ filter isSave (trace outcome) = []
      /\ In (Log (UpdateLine "typescript" "5.4.0" "5.0.0" "tools" true None))
            (trace outcome)
      /\ filter isUpdateLine (trace outcome)
         = [Log (UpdateLine "react" "17.0.0" "18.2.0" "core" false None);
            Log (UpdateLine "typescript" "5.4.0" "5.0.0" "tools" true None);
            Log (UpdateLine "react" ">=17.0.0" "18.2.0" "core" false (Some true))].
Proof.
  split; [ reflexivity | ].
  pose proof (@update_dryRun RefSemver.lib mixed coreAndTools no) as H.
  cbv zeta in H.
  destruct (@update RefSemver.lib true mixed coreAndTools no) as [outcome | e] eqn:E;
    [ | discriminate E ].
  exists outcome. destruct H as (Hm & Hp & Hs & updates & hasUpdates & Hc & Hin & Hl & _).
  injection Hc as <- <-.
  split; [ reflexivity | ]. split; [ exact Hm | ]. split; [ exact Hp | ].
  split; [ exact Hs | ]. split; [ | exact Hl ].
  exact (Hin devDependencies "typescript" _ (or_introl eq_refl)).
Defined.

Lemma update_last_category_wins_witness :
  exists outcome,
    @update RefSemver.lib false reactRuntime twoCatalogs no = Ok outcome
    /\ declared dependencies "react" (manifest outcome) = Some "18.2.0".
Proof.
  destruct (@update_last_category_wins RefSemver.lib reactRuntime twoCatalogs
              {| Updates.deps := [("react", reactChange "17.0.0" "18.2.0" "ui" None)];
                 Updates.devDeps := []; Updates.peerDeps := [] |}
              true dependencies "react" "17.0.0" "ui" "18.2.0"
              reactRuntime_wf eq_refl eq_refl eq_refl)
    as (_ & (info & (r & Hr & ->) & _ & Hrun) & _).
  destruct (Hrun no) as (outcome & Hout & Hwins).
  exists outcome. split; [ exact Hout | ].
  apply Hwins.
  - intros [Hpeer _]. discriminate Hpeer.
  - left. injection Hr as <-. reflexivity.
Defined.

Lemma update_idempotent_when_applied_witness :
  exists outcome,
    @update RefSemver.lib false reactRuntime core18 yes = Ok outcome
    /\ @update RefSemver.lib false (manifest outcome) core18 no
       = Ok {| manifest := manifest outcome; trace := [Log UpToDate] |}.
Proof.
  destruct (@update RefSemver.lib false reactRuntime core18 yes) as [outcome | e] eqn:E;
    [ | discriminate E ].
  exists outcome. split; [ reflexivity | ].
  refine (proj2 (@update_idempotent_when_applied RefSemver.lib reactRuntime core18 yes no
                   {| Updates.deps :=
                        [("react", reactChange "17.0.0" "18.2.0" "core" None)];
                      Updates.devDeps := []; Updates.peerDeps := [] |}
                   true outcome reactRuntime_wf _ eq_refl E (fun _ => eq_refl) _)).
  - intros c1 cat1 c2 cat2 pkg v1 v2 [[= <- <-] | []] [[= <- <-] | []] H1 H2 _ _.
    congruence.
  - intros pkg info H. discriminate H.
Defined.

Lemma update_ignores_empty_version_witness :
  @collectUpdates RefSemver.lib reactRuntime emptyVersion
  = Ok ({| Updates.deps := [("react", reactChange "17.0.0" "18.2.0" "ui" None)];
           Updates.devDeps := []; Updates.peerDeps := [] |}, true)
  /\ (forall st, @scanCatalog RefSemver.lib dependencies "react" "17.0.0" st
                   ("core", [("react", "")]) = Ok st)
  /\ UpdateInfo.category (reactChange "17.0.0" "18.2.0" "ui" None) <> "core".
Proof.
  split; [ reflexivity | ].
  assert (Hnames : JsObject.wf emptyVersion).
  { unfold JsObject.wf. cbn.
    repeat (constructor; [ cbn; intuition discriminate | ]). constructor. }
  assert (Hcats : forall c cat, In (c, cat) emptyVersion -> JsObject.wf cat).
  { intros c cat [[= <- <-] | [[= <- <-] | []]]; unfold JsObject.wf; cbn;
      repeat constructor; intros []. }
  destruct (@update_ignores_empty_version RefSemver.lib reactRuntime emptyVersion
              "core" [("react", "")] "react" _ true
              reactRuntime_wf Hnames Hcats (or_introl eq_refl) eq_refl eq_refl)
    as (Hstep & Hpending & _).
  split.
  - intros st. apply Hstep.
  - exact (proj1 (proj2 (Hpending dependencies _ eq_refl))).
Defined.

Lemma updateCategory_refresh_witness :
  UpdateChecker.updateCategory (fun dir file => dir ++ "/" ++ file)
    (fun _ => Some [("a", "1.0.0"); ("b", "2.0.0")])
    (fun pkg => if String.eqb pkg "a" then Ok "1.0.0" else Ok "2.1.0")
    "catalog" "core"
  = [UpdateChecker.Log (UpdateChecker.Updating "core");
     UpdateChecker.Log (UpdateChecker.NoChanges "a" "1.0.0");
     UpdateChecker.Log (UpdateChecker.PackageUpdated "b" "2.0.0" "2.1.0");
     UpdateChecker.CopyFile "catalog/core.json" "catalog/core.json.backup";
     UpdateChecker.WriteFile "catalog/core.json" [("a", "1.0.0"); ("b", "2.1.0")];
     UpdateChecker.Log
       (UpdateChecker.UpdatedSuccessfully "core" "catalog/core.json.backup")].
Proof.
  refine (proj1 (@updateCategory_refresh (fun dir file => dir ++ "/" ++ file)
                   (fun _ => Some [("a", "1.0.0"); ("b", "2.0.0")])
                   (fun pkg => if String.eqb pkg "a" then Ok "1.0.0" else Ok "2.1.0")
                   "catalog" "core" [("a", "1.0.0"); ("b", "2.0.0")]
                   eq_refl _) _).
  - unfold JsObject.wf. cbn.
    repeat (constructor; [ cbn; intuition discriminate | ]). constructor.
  - cbn. discriminate.
Defined.

Lemma validateCatalog_accepts_array_witness :
  Validator.validateCatalog (fun dir file => dir ++ "/" ++ file) (fun _ => true)
    (fun _ => Validator.Parsed (Validator.JArray [Validator.JString "1.0.0"]))
    "catalog" ["core"] = Ok tt.
Proof.
  exact (@validateCatalog_accepts_array (fun dir file => dir ++ "/" ++ file)
           "catalog" "core" [Validator.JString "1.0.0"] eq_refl).
Defined.

(** ** Counterexamples *)

(** C5 as stated fails: two categories match [react], one pending change is
    kept and one change line is printed. *)
Lemma update_multi_catalog_counterexample :
  matching "react" "17.0.0" twoCatalogs = [("core", "18.0.0"); ("ui", "18.2.0")]
  /\ @collectUpdates RefSemver.lib reactRuntime twoCatalogs
     = Ok ({| Updates.deps := [("react", reactChange "17.0.0" "18.2.0" "ui" None)];
              Updates.devDeps := []; Updates.peerDeps := [] |}, true)
  /\ exists outcome,
      @update RefSemver.lib true reactRuntime twoCatalogs no = Ok outcome
      /\ filter isUpdateLine (trace outcome)
         = [Log (UpdateLine "react" "17.0.0" "18.2.0" "ui" false None)].
Proof.
  split; [ reflexivity | ]. split; [ reflexivity | ].
  eexists. split; reflexivity.
Qed.

(** C6 as stated fails: a satisfied peer range is skipped by the first run
    and found again by the second. *)
Lemma update_not_idempotent_counterexample :
  exists outcome,
    @update RefSemver.lib false reactPeer core18 yes = Ok outcome
    /\ @collectUpdates RefSemver.lib (manifest outcome) core18
       = Ok ({| Updates.deps := []; Updates.devDeps := [];
                Updates.peerDeps :=
                  [("react", reactChange ">=17.0.0" "18.2.0" "core" (Some true))] |},
             true)
    /\ (forall answers,
           @update RefSemver.lib false (manifest outcome) core18 answers
           <> Ok {| manifest := manifest outcome; trace := [Log UpToDate] |}).
Proof.
  eexists. split; [ reflexivity | ]. split; [ reflexivity | ].
  intros answers. cbn. discriminate.
Qed.

(** C8 as stated fails: with a range in front, a [target] that is not a
    version is classified, not refused; so is a range that does not parse. *)
Lemma compareVersions_malformed_counterexample :
  @malformed RefSemver.lib "banana"
  /\ @compareVersions RefSemver.lib ">=1.0.0" "banana"
     = Ok {| isDowngrade := false; isRangeSatisfied := Some false |}
  /\ @compareVersions RefSemver.lib ">=banana" "1.0.0"
     = Ok {| isDowngrade := false; isRangeSatisfied := Some false |}
  /\ ~ (forall current target,
          @malformed RefSemver.lib current \/ @malformed RefSemver.lib target ->
          exists e, @compareVersions RefSemver.lib current target = Throw e).
Proof.
  split; [ eexists; reflexivity | ]. split; [ reflexivity | ].
  split; [ reflexivity | ].
  intros Hclaim.
  destruct (Hclaim ">=1.0.0" "banana") as [e He];
    [ right; eexists; reflexivity | discriminate He ].
Qed.

End Examples.

(* ================================================================== *)
(** * Further scenarios *)

Module MoreExamples.
Import Scenarios MoreScenarios.

Ltac distinct_keys :=
  unfold JsObject.wf; cbn;
  repeat (constructor; [ cbn; intuition discriminate | ]); constructor.

Lemma reactNewer_wf : wfPackageJson reactNewer.
Proof.
  intros t b H; destruct t; cbn in H; try discriminate H;
    injection H as <-; distinct_keys.
Defined.

Lemma coreCatalog_wf : JsObject.wf coreCatalog.
Proof. distinct_keys. Defined.

Lemma update_flags_exclusive_witness :
  startsWithRangeOperator ">=17.0.0" = true.
Proof.
  exact (proj2 (proj2 (proj2
           (@update_flags_exclusive RefSemver.lib reactPeer core18
              {| Updates.deps := []; Updates.devDeps := [];
                 Updates.peerDeps :=
                   [("react", reactChange ">=17.0.0" "18.2.0" "core" (Some true))] |}
              true peerDependencies "react" _
              Examples.reactPeer_wf eq_refl eq_refl))
           ltac:(discriminate))).
Defined.

Lemma update_keeps_packages_witness :
  exists outcome,
    @update RefSemver.lib false reactRuntime core18 yes = Ok outcome
    /\ sameKeys (PackageJson.deps reactRuntime) (PackageJson.deps (manifest outcome)).
Proof.
  eexists. split; [ reflexivity | ].
  exact (@update_keeps_packages RefSemver.lib false reactRuntime core18 yes _
           Examples.reactRuntime_wf eq_refl dependencies).
Defined.

Lemma update_saves_once_witness :
  exists outcome,
    @update RefSemver.lib false reactPeer core18 yes = Ok outcome
    /\ filter isSave (trace outcome) = [SavePackageJson (manifest outcome)].
Proof.
  eexists. split; [ reflexivity | ].
  exact (@update_saves_once RefSemver.lib reactPeer core18 yes _ true _
           eq_refl eq_refl).
Defined.

Lemma update_prompts_downgrades_witness :
  exists outcome,
    @update RefSemver.lib false reactNewer core17 no = Ok outcome
    /\ length (filter isPrompt (trace outcome)) = 1.
Proof.
  eexists. split; [ reflexivity | ].
  exact (@update_prompts_downgrades RefSemver.lib reactNewer core17 no
           downgradeFound true _ eq_refl eq_refl).
Defined.

Lemma update_declined_downgrade_witness :
  exists outcome,
    @update RefSemver.lib false reactNewer core17 no = Ok outcome
    /\ declared dependencies "react" (manifest outcome) = Some "18.2.0".
Proof.
  eexists. split; [ reflexivity | ].
  exact (@update_declined_downgrade RefSemver.lib reactNewer core17 no
           downgradeFound true _ dependencies "react" downgrade
           reactNewer_wf eq_refl eq_refl (fun _ => eq_refl) eq_refl eq_refl).
Defined.

Lemma update_writes_catalog_versions_witness :
  exists outcome,
    @update RefSemver.lib false reactNewer core17 yes = Ok outcome
    /\ (declared dependencies "react" (manifest outcome) = Some "18.2.0"
        \/ declared dependencies "react" (manifest outcome) = Some "17.0.0").
Proof.
  eexists. split; [ reflexivity | ].
  exact (@update_writes_catalog_versions RefSemver.lib false reactNewer core17 yes
           _ dependencies "react" "18.2.0" reactNewer_wf eq_refl eq_refl).
Defined.

Lemma reactNewer_own : ownNames reactNewer.
Proof.
  intros depType pkg cur. destruct depType; cbn; try discriminate.
  destruct (String.eqb_spec pkg "react") as [-> | _]; [ reflexivity | discriminate ].
Defined.

Lemma reactRuntime_own : ownNames reactRuntime.
Proof.
  intros depType pkg cur. destruct depType; cbn; try discriminate.
  destruct (String.eqb_spec pkg "react") as [-> | _]; [ reflexivity | discriminate ].
Defined.

Lemma update_up_to_date_iff_witness :
  @update RefSemver.lib false reactNewer core18 yes
  = Ok {| manifest := reactNewer; trace := [Log UpToDate] |}.
Proof.
  apply (proj2 (@update_up_to_date_iff RefSemver.lib false reactNewer core18 yes
                  reactNewer_wf reactNewer_own)).
  intros depType pkg cur. destruct depType; cbn; try discriminate.
  destruct (String.eqb pkg "react"); [ | discriminate ].
  now intros [= <-].
Defined.

Lemma update_dryRun_prefix_witness :
  exists dry real shown rest,
    @update RefSemver.lib true reactRuntime core18 no = Ok dry
    /\ @update RefSemver.lib false reactRuntime core18 yes = Ok real
    /\ trace dry = (shown ++ [Log DryRunNotice])%list
    /\ trace real = (shown ++ rest)%list.
Proof.
  destruct (@update RefSemver.lib true reactRuntime core18 no) as [dry | e] eqn:Ed;
    [ | discriminate Ed ].
  destruct (@update RefSemver.lib false reactRuntime core18 yes) as [real | e]
    eqn:Er; [ | discriminate Er ].
  destruct (@update_dryRun_prefix RefSemver.lib reactRuntime core18 no yes dry real
              Ed Er) as [[H _] | (shown & rest & Hd & Hr)].
  - injection Ed as <-. discriminate H.
  - exists dry, real, shown, rest. repeat split; assumption.
Defined.

Lemma add_saves_or_fails_witness :
  Add.failure (Add.add catalogFile ["core"; "ui:button"; "core:react"]
                 dependencies [] reactRuntime)
  = Some (Error "Category 'ui' not found")
  /\ filter Add.isSave
       (Add.trace (Add.add catalogFile ["core"; "ui:button"; "core:react"]
                     dependencies [] reactRuntime)) = [].
Proof.
  apply (proj1 (@add_saves_or_fails catalogFile dependencies []
                  ["core"; "ui:button"; "core:react"] reactRuntime)
           ["core"] "ui:button" ["core:react"] eq_refl).
  - intros i [<- | []]. discriminate.
  - reflexivity.
Defined.

Lemma add_category_installs_witness :
  declared peerDependencies "lodash"
    (Add.manifest (Add.add catalogFile ["core"] dependencies coreIsPeer reactRuntime))
  = Some "4.17.21"
  /\ declared dependencies "react"
       (Add.manifest (Add.add catalogFile ["core"] dependencies coreIsPeer
                        reactRuntime))
     = Some "17.0.0".
Proof.
  destruct (@add_category_installs catalogFile dependencies coreIsPeer "core"
              coreCatalog reactRuntime eq_refl eq_refl coreCatalog_wf)
    as (_ & Hin & Hout).
  split.
  - exact (Hin "lodash").
  - exact (Hout dependencies "react" ltac:(discriminate)).
Defined.

Lemma add_package_witness :
  declared devDependencies "lodash"
    (Add.manifest (Add.add catalogFile ["core:lodash"] devDependencies []
                     reactRuntime))
  = Some "4.17.21".
Proof.
  exact (proj1 (proj2 (proj2
           (@add_package catalogFile devDependencies [] "core" "lodash"
              coreCatalog reactRuntime eq_refl eq_refl eq_refl eq_refl)))).
Defined.

Lemma add_respects_flag_witness :
  PackageJson.get peerDependencies
    (Add.manifest (Add.add catalogFile ["core"] devDependencies coreIsPeer
                     reactRuntime))
  = PackageJson.get peerDependencies reactRuntime.
Proof.
  apply add_respects_flag; [ left | ]; discriminate.
Defined.

Lemma add_category_twice_witness :
  Add.manifest
    (Add.add catalogFile ["core"] dependencies coreIsPeer
       (Add.manifest (Add.add catalogFile ["core"] dependencies coreIsPeer
                        reactRuntime)))
  = Add.manifest (Add.add catalogFile ["core"] dependencies coreIsPeer reactRuntime).
Proof.
  exact (@add_category_twice catalogFile dependencies coreIsPeer "core"
           coreCatalog reactRuntime eq_refl eq_refl coreCatalog_wf).
Defined.

Lemma add_then_update_witness :
  exists updates hasUpdates,
    @collectUpdates RefSemver.lib
      (Add.manifest (Add.add catalogFile ["core"] dependencies [] reactRuntime))
      [("core", coreCatalog)] = Ok (updates, hasUpdates)
    /\ Updates.get dependencies updates = [].
Proof.
  do 2 eexists. split; [ reflexivity | ].
  exact (@add_then_update RefSemver.lib catalogFile dependencies [] "core"
           coreCatalog reactRuntime _ _ Examples.reactRuntime_wf eq_refl eq_refl
           coreCatalog_wf eq_refl).
Defined.

Lemma checkAll_counts_witness :
  snd (CheckAll.checkAll join files registry "catalog" ["core"; "ui"; "none"]) = 1
  /\ In (CheckAll.Found 1 "core")
        (fst (CheckAll.checkAll join files registry "catalog" ["core"; "ui"; "none"]))
  /\ In (CheckAll.Skipping "none")
        (fst (CheckAll.checkAll join files registry "catalog" ["core"; "ui"; "none"])).
Proof.
  pose proof (@checkAll_counts join files registry "catalog" ["core"; "ui"; "none"])
    as H.
  destruct (CheckAll.checkAll join files registry "catalog" ["core"; "ui"; "none"])
    as [lines total].
  destruct H as (Ht & _ & Hv). cbn [fst snd]. split; [ exact Ht | ]. split.
  - apply (Hv "core"). now left.
  - apply (Hv "none"). right. right. now left.
Defined.

Lemma updateCategory_files_witness :
  snd (CatalogFiles.updateCategoryOn join registry files "catalog" "core")
      "catalog/core.json.backup"
  = Some [("a", "1.0.0"); ("b", "2.0.0")]
  /\ snd (CatalogFiles.updateCategoryOn join registry files "catalog" "core")
         "catalog/core.json"
     = Some [("a", "1.0.0"); ("b", "2.1.0")].
Proof.
  pose proof (@updateCategory_files join registry files "catalog" "core"
                [("a", "1.0.0"); ("b", "2.0.0")]) as H.
  cbv zeta in H.
  destruct (CatalogFiles.updateCategoryOn join registry files "catalog" "core")
    as [events fs'].
  destruct (H eq_refl ltac:(distinct_keys)) as (Hchanged & _).
  destruct (Hchanged ltac:(cbn; discriminate)) as (Hfile & Hbackup & _).
  cbn [snd]. split; [ exact Hbackup | exact Hfile ].
Defined.

Lemma updateCategory_twice_witness :
  filter CatalogFiles.touches
    (fst (CatalogFiles.updateCategoryOn join registry
            (snd (CatalogFiles.updateCategoryOn join registry files "catalog" "core"))
            "catalog" "core")) = [].
Proof.
  exact (proj1 (proj2
           (@updateCategory_twice join registry files "catalog" "core"
              [("a", "1.0.0"); ("b", "2.0.0")] eq_refl ltac:(distinct_keys)))).
Defined.

Lemma updateAll_twice_witness :
  filter CatalogFiles.touches
    (fst (CatalogFiles.updateAll join registry
            (snd (CatalogFiles.updateAll join registry files "catalog" ["core"; "ui"]))
            "catalog" ["core"; "ui"])) = [].
Proof.
  refine (proj1 (@updateAll_twice join registry "catalog" files ["core"; "ui"] _ _)).
  - intros c c' [<- | [<- | []]] [<- | [<- | []]]; cbn; discriminate.
  - intros c deps [<- | [<- | []]]; cbn; intros [= <-]; distinct_keys.
Defined.

Lemma validateCatalog_ok_iff_witness :
  Validator.validateCatalog join (fun _ => true) documents "catalog" ["core"] = Ok tt.
Proof.
  apply (proj2 (@validateCatalog_ok_iff join (fun _ => true) documents
                  "catalog" ["core"])).
  split; [ reflexivity | ]. split; [ reflexivity | ].
  intros category [<- | []]. eexists. split; reflexivity.
Defined.

Lemma validateCatalog_first_error_witness :
  Validator.validateCatalog join (fun _ => true) documents "catalog" ["core"; "ui"]
  = Throw (Error "Invalid version for lodash in ui.json: must be a string").
Proof.
  refine (@validateCatalog_first_error join (fun _ => true) documents
            "catalog" ["core"] "ui" [] eq_refl (fun _ _ => eq_refl) _
            [("react", Validator.JString "18.2.0")] "lodash"
            (Validator.JNumber "4") [] eq_refl eq_refl eq_refl).
  intros category [<- | []]. eexists. split; reflexivity.
Defined.

Lemma compareVersions_ignores_operators_witness :
  @compareVersions RefSemver.lib "^2.0.0" ">=1.5.0"
  = @compareVersions RefSemver.lib "~2.0.0" "1.5.0".
Proof.
  exact (@compareVersions_ignores_operators RefSemver.lib
           "^2.0.0" "~2.0.0" ">=1.5.0" "1.5.0" eq_refl eq_refl eq_refl eq_refl).
Defined.

Lemma update_fails_with_comparator_witness :
  exists e,
    @update RefSemver.lib true reactRuntime [("core", [("react", "latest")])] no
    = Throw e
    /\ @compareVersions RefSemver.lib "17.0.0" "latest" = Throw e.
Proof.
  destruct (proj1 (@update_fails_with_comparator RefSemver.lib true reactRuntime
                     [("core", [("react", "latest")])] no
                     Examples.reactRuntime_wf reactRuntime_own)
              dependencies "react" "17.0.0" "core" [("react", "latest")] "latest"
              (TypeError "Invalid Version: latest")
              eq_refl (or_introl eq_refl) eq_refl
              ltac:(discriminate) ltac:(discriminate) eq_refl)
    as (e & depType & pkg & cur & category & catalog & target & Hout & _).
  exists e. split; [ exact Hout | ].
  cbn in Hout. now injection Hout as <-.
Defined.

End MoreExamples.
